(** * verve-challenge-go: the distributed unique-id service (extensions/main.go)

    A shallow embedding of [extensions/main.go].  The program is a small
    HTTP service: [acceptHandler] claims an integer id in a shared Redis
    store ([isUniqueID], a SET-if-absent with a one minute expiry), a
    background goroutine ([logAndNotifyUniqueRequests]) counts and deletes
    the keys once per minute and publishes the count to Kafka
    ([publishToKafka]), and [createKafkaTopic] / [waitForKafka] bootstrap the
    broker connection at start-up.

    The Go code is effectful throughout, so it is embedded in a state and
    exit monad [M] over a [World] that holds the clock, the Redis key space,
    the handles, the outcome schedules of the external services, the started
    goroutines and the trace of observable effects.

    - Redis, Kafka, [net/http], the clock and the environment are external to
      the repository.  Each call of a client is a primitive that appends its
      event to the trace and takes its outcome (success or error) from a
      schedule in the world, so that every pattern of failures can be run.
    - Redis keeps, per key, the stored value and the instant the key expires
      at; a key is there as long as the clock has not passed that instant.
    - [go f(x)] queues the call; the scheduler runs it at some later step.
      The ticker of the aggregation loop is the list of instants it delivers.
    - [log.Fatalf] ends the run with exit code 1.
    - In a run of actions a handler call, a tick and a notification are one
      step each.  The goroutines of the program do overlap between their
      store commands; where a property depends on what happens there, the
      handler and the tick are taken apart ([notify_phase], [tick_amid],
      [Baseline.answer] and [Baseline.count_and_notify]) and what the others
      do is run in between, down to their single store commands.

    The first, in-memory version of the service ([main.go], a [sync.Map] and
    a log file instead of Redis and Kafka) is embedded in [Module Baseline]. *)

From Stdlib Require Import ZArith Lia DecimalString DecimalPos DecimalZ Ascii.
From stdpp Require Import base gmap strings list fin_maps sorting.

Local Open Scope string_scope.
Local Open Scope list_scope.
Local Open Scope Z_scope.

(** ** Go constants and [strconv] *)

Module GoTime.
(** [time.Duration] counts nanoseconds. *)
Definition Second : Z := 1000000000.
Definition Minute : Z := 60 * Second.
End GoTime.

Module Http.
Definition MethodGet : string := "GET".
Definition StatusOK : Z := 200.
Definition StatusBadRequest : Z := 400.
Definition StatusMethodNotAllowed : Z := 405.
End Http.

Module Strconv.

(** Go's [int] is 64 bits wide on the platforms the image is built for. *)
Definition minInt : Z := - 2 ^ 63.
Definition maxInt : Z := 2 ^ 63 - 1.

Inductive NumError := ErrSyntax | ErrRange.

Definition is_digit (c : ascii) : bool :=
  let n := Z.of_N (N_of_ascii c) in (48 <=? n) && (n <=? 57).

(** The digit loop of [Atoi]: [n = n*10 + int(ch - '0')], a syntax error at
    the first byte that is not a decimal digit. *)
Fixpoint digits (acc : Z) (s : string) : option Z :=
  match s with
  | EmptyString => Some acc
  | String c s' =>
      if is_digit c
      then digits (10 * acc + (Z.of_N (N_of_ascii c) - 48)) s'
      else None
  end.

(** [strconv.Atoi]: an optional sign, at least one digit, only digits, and
    a value that fits an [int]. *)
Definition Atoi (s : string) : NumError + Z :=
  match s with
  | EmptyString => inl ErrSyntax
  | String c s' =>
      let neg := bool_decide (c = "-"%char) in
      let body := if bool_decide (c = "-"%char) || bool_decide (c = "+"%char)
                  then s' else s in
      match body with
      | EmptyString => inl ErrSyntax
      | _ =>
          match digits 0 body with
          | None => inl ErrSyntax
          | Some n =>
              let v := if neg then - n else n in
              if (minInt <=? v) && (v <=? maxInt) then inr v else inl ErrRange
          end
      end
  end.

(** [strconv.Itoa]: the decimal rendering, ["-"] in front of a negative. *)
Definition Itoa (n : Z) : string := NilZero.string_of_int (Z.to_int n).

End Strconv.

(** ** [encoding/json] on the payloads the program builds *)

Module Json.

(** The dynamic values the program stores in a [map[string]interface{}]: an
    [int], a [string], and a value of a type [json.Marshal] has no encoding
    for (a channel or a function), the only way [Marshal] can fail on such a
    map. *)
Inductive Value := JInt (n : Z) | JString (s : string) | JUnsupported.

Definition dquote : string := String (ascii_of_nat 34) EmptyString.
Definition backslash : string := String (ascii_of_nat 92) EmptyString.

Definition hex_digit (n : N) : ascii :=
  ascii_of_N (if (n <? 10)%N then 48 + n else 87 + n)%N.

(** One byte of a string, as the encoder writes it (HTML escaping is on by
    default): the quote and the backslash behind a backslash, the short
    escapes, [\u00XX] for the other control bytes and for [<], [>], [&].
    Bytes from 0x80 on are copied, which is what the encoder does with
    well-formed UTF-8 apart from U+2028 and U+2029. *)
Definition escape_byte (c : ascii) : string :=
  let n := N_of_ascii c in
  if (n =? 34)%N || (n =? 92)%N then backslash +:+ String c EmptyString
  else if (n =? 8)%N then backslash +:+ "b"
  else if (n =? 12)%N then backslash +:+ "f"
  else if (n =? 10)%N then backslash +:+ "n"
  else if (n =? 13)%N then backslash +:+ "r"
  else if (n =? 9)%N then backslash +:+ "t"
  else if (n <? 32)%N || (n =? 60)%N || (n =? 62)%N || (n =? 38)%N
       then backslash +:+ "u00" +:+
            String (hex_digit (n / 16)) (String (hex_digit (n mod 16)) EmptyString)
  else String c EmptyString.

Fixpoint escape (s : string) : string :=
  match s with
  | EmptyString => EmptyString
  | String c s' => escape_byte c +:+ escape s'
  end.

Definition quote (s : string) : string := dquote +:+ escape s +:+ dquote.

Definition encode_value (v : Value) : option string :=
  match v with
  | JInt n => Some (Strconv.Itoa n)
  | JString s => Some (quote s)
  | JUnsupported => None
  end.

(** Map keys are written in sorted (byte-wise) order. *)
Definition key_le (a b : string * Value) : Prop := String.leb a.1 b.1 = true.

#[global] Instance key_le_dec a b : Decision (key_le a b).
Proof. unfold key_le. apply _. Defined.

Definition member (k e : string) : string := quote k +:+ ":" +:+ e.

Fixpoint encode_members (l : list (string * Value)) : option (list string) :=
  match l with
  | [] => Some []
  | (k, v) :: l' =>
      match encode_value v, encode_members l' with
      | Some e, Some es => Some (member k e :: es)
      | _, _ => None
      end
  end.

Fixpoint join (sep : string) (l : list string) : string :=
  match l with
  | [] => EmptyString
  | [x] => x
  | x :: l' => x +:+ sep +:+ join sep l'
  end.

(** [json.Marshal] of a [map[string]interface{}]; [None] is a non-nil
    error. *)
Definition Marshal (m : gmap string Value) : option string :=
  match encode_members (merge_sort key_le (map_to_list m)) with
  | Some es => Some ("{" +:+ join "," es +:+ "}")
  | None => None
  end.

End Json.

(** ** The world the process runs in *)

(** Arguments of a log line; the text of an [error] value is the library's
    and is not modelled. *)
Inductive LogArg :=
| AStr (s : string)
| AInt (n : Z)
| ADuration (d : Z)
| AErr.

(** The observable effects, in the order the process performs them. *)
Inductive Event :=
| ELog (format : string) (args : list LogArg)
| ESleep (d : Z)
| ERedisPing
| ERedisSetNX (key : string) (value : bool) (expiration : Z)
| ERedisKeys (pattern : string)
| ERedisDel (key : string)
| EKafkaDial (network address : string)
| EKafkaConnClose
| EKafkaCreateTopics (topic : string) (numPartitions replicationFactor : Z)
| EKafkaWrite (topic key value : string)
| EHttpPost (url contentType body : string)
| EWriteHeader (status : Z)
| EWrite (body : string)
| EHandleFunc (pattern : string)
| EListenAndServe (addr : string).

(** A Redis entry: the stored value and the instant it expires at. *)
Record Entry := mkEntry { value : bool; expireAt : Z }.

(** The address [kafka.TCP(address)] makes.  The library canonicalises the
    text (it adds the default port when none is given); that is kafka-go's
    business, so the value is kept as the call with its argument. *)
Inductive NetAddr := kafka_TCP (address : string).

(** The balancer [initKafka] picks, [&kafka.LeastBytes{}]. *)
Inductive BalancerKind := kafka_LeastBytes.

(** [kafka.Writer], as far as [initKafka] fills it in. *)
Record Writer := mkWriter { Addr : NetAddr; Topic : string; Balancer : BalancerKind }.

(** What a [go] statement of the program can start. *)
Inductive Task :=
| GoLogAndNotifyUniqueRequests
| GoSendCountToEndpoint (endpoint : string) (count : Z).

Record World := mkWorld {
  now : Z;                          (* the clock, in nanoseconds *)
  rfc3339 : Z -> string;            (* time.Time.Format(time.RFC3339) in the local zone *)
  environ : gmap string string;     (* the process environment *)
  redisDB : string;                 (* address of the Redis client handle *)
  kafkaWriter : Writer;             (* the Kafka writer handle *)
  redis : gmap string Entry;        (* key space of the shared store *)
  redis_faults : list bool;         (* next Redis commands: true = the call errors *)
  dial_faults : list bool;          (* next kafka.Dial calls *)
  topic_faults : list bool;         (* next CreateTopics calls *)
  write_faults : list bool;         (* next WriteMessages calls *)
  post_results : list (option Z);   (* next http.Post calls: None = error, Some status *)
  goroutines : list Task;           (* started by go, not yet run *)
  trace : list Event                (* effects so far, oldest first *)
}.

Definition set_now (v : Z) (w : World) : World :=
  mkWorld v (rfc3339 w) (environ w) (redisDB w) (kafkaWriter w) (redis w)
    (redis_faults w) (dial_faults w) (topic_faults w) (write_faults w)
    (post_results w) (goroutines w) (trace w).

Definition set_redisDB (v : string) (w : World) : World :=
  mkWorld (now w) (rfc3339 w) (environ w) v (kafkaWriter w) (redis w)
    (redis_faults w) (dial_faults w) (topic_faults w) (write_faults w)
    (post_results w) (goroutines w) (trace w).

Definition set_kafkaWriter (v : Writer) (w : World) : World :=
  mkWorld (now w) (rfc3339 w) (environ w) (redisDB w) v (redis w)
    (redis_faults w) (dial_faults w) (topic_faults w) (write_faults w)
    (post_results w) (goroutines w) (trace w).

Definition set_redis (v : gmap string Entry) (w : World) : World :=
  mkWorld (now w) (rfc3339 w) (environ w) (redisDB w) (kafkaWriter w) v
    (redis_faults w) (dial_faults w) (topic_faults w) (write_faults w)
    (post_results w) (goroutines w) (trace w).

Definition set_redis_faults (v : list bool) (w : World) : World :=
  mkWorld (now w) (rfc3339 w) (environ w) (redisDB w) (kafkaWriter w) (redis w)
    v (dial_faults w) (topic_faults w) (write_faults w)
    (post_results w) (goroutines w) (trace w).

Definition set_dial_faults (v : list bool) (w : World) : World :=
  mkWorld (now w) (rfc3339 w) (environ w) (redisDB w) (kafkaWriter w) (redis w)
    (redis_faults w) v (topic_faults w) (write_faults w)
    (post_results w) (goroutines w) (trace w).

Definition set_topic_faults (v : list bool) (w : World) : World :=
  mkWorld (now w) (rfc3339 w) (environ w) (redisDB w) (kafkaWriter w) (redis w)
    (redis_faults w) (dial_faults w) v (write_faults w)
    (post_results w) (goroutines w) (trace w).

Definition set_write_faults (v : list bool) (w : World) : World :=
  mkWorld (now w) (rfc3339 w) (environ w) (redisDB w) (kafkaWriter w) (redis w)
    (redis_faults w) (dial_faults w) (topic_faults w) v
    (post_results w) (goroutines w) (trace w).

Definition set_post_results (v : list (option Z)) (w : World) : World :=
  mkWorld (now w) (rfc3339 w) (environ w) (redisDB w) (kafkaWriter w) (redis w)
    (redis_faults w) (dial_faults w) (topic_faults w) (write_faults w)
    v (goroutines w) (trace w).

Definition set_goroutines (v : list Task) (w : World) : World :=
  mkWorld (now w) (rfc3339 w) (environ w) (redisDB w) (kafkaWriter w) (redis w)
    (redis_faults w) (dial_faults w) (topic_faults w) (write_faults w)
    (post_results w) v (trace w).

Definition set_trace (v : list Event) (w : World) : World :=
  mkWorld (now w) (rfc3339 w) (environ w) (redisDB w) (kafkaWriter w) (redis w)
    (redis_faults w) (dial_faults w) (topic_faults w) (write_faults w)
    (post_results w) (goroutines w) v.

(** ** The monad: state passing, with process exit *)

(** A computation either returns a value in a new world or ends the process
    ([log.Fatalf] calls [os.Exit(1)]). *)
Inductive Result (A : Type) :=
| Ok (a : A) (w : World)
| Exit (code : Z) (w : World).

Arguments Ok {A} a w.
Arguments Exit {A} code w.

Definition M (A : Type) : Type := World -> Result A.

#[global] Instance M_ret : MRet M := fun A (a : A) (w : World) => Ok a w.

#[global] Instance M_bind : MBind M :=
  fun A B (k : A -> M B) (m : M A) (w : World) =>
    match m w with
    | Ok a w' => k a w'
    | Exit c w' => Exit c w'
    end.

(** [for _, x := range l { body }] *)
Fixpoint for_range {A} (l : list A) (body : A -> M unit) : M unit :=
  match l with
  | [] => mret tt
  | x :: l' => body x;; for_range l' body
  end.

Definition emit (e : Event) : M unit :=
  fun w => Ok tt (set_trace (trace w ++ [e]) w).

(** The head of an outcome schedule; an exhausted schedule means the calls
    succeed from there on. *)
Definition next_fault (l : list bool) : bool := hd false l.

(** ** Primitives: the standard library and the clients *)

Definition log_Printf (format : string) (args : list LogArg) : M unit :=
  emit (ELog format args).

(** [log.Fatalf]: the line is written and the process exits with code 1;
    deferred calls do not run. *)
Definition log_Fatalf {A} (format : string) (args : list LogArg) : M A :=
  fun w => Exit 1 (set_trace (trace w ++ [ELog format args]) w).

Definition os_Getenv (key : string) : M string :=
  fun w => Ok (default EmptyString (environ w !! key)) w.

(** [time.Now().Format(time.RFC3339)] *)
Definition time_Now_Format_RFC3339 : M string :=
  fun w => Ok (rfc3339 w (now w)) w.

Definition time_Sleep (d : Z) : M unit :=
  fun w => Ok tt (set_trace (trace w ++ [ESleep d]) (set_now (now w + Z.max 0 d) w)).

(** [go f(args)]: the call is queued; it runs when the scheduler picks it. *)
Definition go (t : Task) : M unit :=
  fun w => Ok tt (set_goroutines (goroutines w ++ [t]) w).

(** *** Redis *)

(** A key is there as long as the clock has not passed its expiry. *)
Definition live (t : Z) (e : Entry) : bool := t <=? expireAt e.

Definition live_keys (t : Z) (m : gmap string Entry) : gmap string Entry :=
  filter (fun kv => live t kv.2 = true) m.

(** Every command first takes its outcome from the schedule: a faulted
    command returns an error and leaves the key space alone. *)
Definition redis_called (e : Event) (w : World) : World :=
  set_trace (trace w ++ [e]) (set_redis_faults (tl (redis_faults w)) w).

Definition redis_command {A} (e : Event) (run : World -> A * gmap string Entry)
  : M (option A) :=
  fun w =>
    if next_fault (redis_faults w) then Ok None (redis_called e w)
    else let '(a, m) := run w in Ok (Some a) (set_redis m (redis_called e w)).

Definition redis_Ping : M (option unit) :=
  redis_command ERedisPing (fun w => (tt, redis w)).

(** [SetNX(ctx, key, value, expiration)]: SET key value NX with a time to
    live; [true] when the key was set, [false] when it was already there. *)
Definition redis_SetNX (key : string) (v : bool) (expiration : Z) : M (option bool) :=
  redis_command (ERedisSetNX key v expiration) (fun w =>
    match redis w !! key with
    | Some e =>
        if live (now w) e then (false, redis w)
        else (true, <[key := mkEntry v (now w + expiration)]> (redis w))
    | None => (true, <[key := mkEntry v (now w + expiration)]> (redis w))
    end).

Definition key_live (w : World) (k : string) : bool :=
  match redis w !! k with Some e => live (now w) e | None => false end.

(** The keys a full enumeration returns in world [w]. *)
Definition enumerated (w : World) : list string :=
  (map_to_list (live_keys (now w) (redis w))).*1.

(** [Keys(ctx, "*")]: every key that has not expired. *)
Definition redis_Keys_all : M (option (list string)) :=
  redis_command (ERedisKeys "*") (fun w => (enumerated w, redis w)).

(** [Del(ctx, key)]: the number of keys removed. *)
Definition redis_Del (key : string) : M (option Z) :=
  redis_command (ERedisDel key) (fun w =>
    match redis w !! key with
    | Some e => (if live (now w) e then 1 else 0, delete key (redis w))
    | None => (0, redis w)
    end).

(** *** Kafka *)

Definition kafka_Dial (network address : string) : M (option unit) :=
  fun w =>
    let w1 := set_trace (trace w ++ [EKafkaDial network address])
                (set_dial_faults (tl (dial_faults w)) w) in
    if next_fault (dial_faults w) then Ok None w1 else Ok (Some tt) w1.

Definition conn_Close (conn : unit) : M unit := emit EKafkaConnClose.

(** [conn.CreateTopics(cfg)]: [Some tt] is a nil error. *)
Definition conn_CreateTopics (conn : unit) (topic : string)
    (numPartitions replicationFactor : Z) : M (option unit) :=
  fun w =>
    let w1 := set_trace (trace w ++ [EKafkaCreateTopics topic numPartitions replicationFactor])
                (set_topic_faults (tl (topic_faults w)) w) in
    if next_fault (topic_faults w) then Ok None w1 else Ok (Some tt) w1.

(** [kafkaWriter.WriteMessages(ctx, kafka.Message{Key, Value})] *)
Definition kafkaWriter_WriteMessages (key val : string) : M (option unit) :=
  fun w =>
    let w1 := set_trace (trace w ++ [EKafkaWrite (Topic (kafkaWriter w)) key val])
                (set_write_faults (tl (write_faults w)) w) in
    if next_fault (write_faults w) then Ok None w1 else Ok (Some tt) w1.

(** *** net/http *)

(** [http.Post(url, contentType, body)]: the status code of the response,
    or an error. *)
Definition http_Post (url contentType body : string) : M (option Z) :=
  fun w =>
    Ok (default (Some Http.StatusOK) (head (post_results w)))
       (set_trace (trace w ++ [EHttpPost url contentType body])
          (set_post_results (tl (post_results w)) w)).

Definition w_WriteHeader (status : Z) : M unit := emit (EWriteHeader status).
Definition w_Write (body : string) : M unit := emit (EWrite body).

Definition newline : string := String (ascii_of_nat 10) EmptyString.

(** [http.Error(w, msg, code)]: the status, then the message and a newline. *)
Definition http_Error (msg : string) (code : Z) : M unit :=
  w_WriteHeader code;; w_Write (msg +:+ newline).

Record Request := mkRequest {
  Method : string;
  Query : list (string * string)    (* r.URL.Query(), in the order of the URL *)
}.

(** [url.Values.Get]: the first value of the key, the empty string when the
    key is missing. *)
Fixpoint Values_Get (q : list (string * string)) (key : string) : string :=
  match q with
  | [] => EmptyString
  | (k, v) :: q' => if String.eqb k key then v else Values_Get q' key
  end.

(** ** The program: extensions/main.go *)

Definition initRedis : M string :=
  redisHost ← os_Getenv "REDIS_HOST";
  redisPort ← os_Getenv "REDIS_PORT";
  let rdb := redisHost +:+ ":" +:+ redisPort in
  pong ← redis_Ping;
  match pong with
  | None => log_Fatalf "Failed to connect to Redis: %v" [AErr]
  | Some _ => mret rdb
  end.

Definition initKafka : M Writer :=
  kafkaBroker ← os_Getenv "KAFKA_BROKER";
  kafkaTopic ← os_Getenv "KAFKA_TOPIC";
  mret (mkWriter (kafka_TCP kafkaBroker) kafkaTopic kafka_LeastBytes).

(** The loop [for i := 0; i < retries; i++] of [waitForKafka], with the
    number of iterations left; the result is the returned [error], [None]
    for nil. *)
Fixpoint waitForKafka_from (left : nat) (broker : string) (retries delay : Z)
  : M (option string) :=
  match left with
  | O =>
      mret (Some ("could not connect to Kafka at " +:+ broker +:+ " after "
                  +:+ Strconv.Itoa retries +:+ " retries"))
  | S left' =>
      conn ← kafka_Dial "tcp" broker;
      match conn with
      | Some c =>
          conn_Close c;;
          log_Printf "Connected to Kafka at %s" [AStr broker];;
          mret None
      | None =>
          log_Printf "Failed to connect to Kafka at %s: %v. Retrying in %v..."
            [AStr broker; AErr; ADuration delay];;
          time_Sleep delay;;
          waitForKafka_from left' broker retries delay
      end
  end.

Definition waitForKafka (broker : string) (retries delay : Z) : M (option string) :=
  waitForKafka_from (Z.to_nat retries) broker retries delay.

Definition createKafkaTopic (topic broker : string) : M unit :=
  err ← waitForKafka broker 10 (5 * GoTime.Second);
  match err with
  | Some _ => log_Fatalf "Kafka is not ready: %v" [AErr]
  | None =>
      conn ← kafka_Dial "tcp" broker;
      match conn with
      | None => log_Fatalf "Failed to connect to Kafka broker: %v" [AErr]
      | Some c =>
          created ← conn_CreateTopics c topic 1 1;
          match created with
          | None => log_Printf "Failed to create Kafka topic %s: %v" [AStr topic; AErr]
          | Some _ => log_Printf "Kafka topic %s created successfully" [AStr topic]
          end;;
          conn_Close c   (* the deferred call *)
      end
  end.

Definition count_payload (count : Z) (timestamp : string) : gmap string Json.Value :=
  <["unique_request_count" := Json.JInt count]>
    (<["timestamp" := Json.JString timestamp]> ∅).

Definition publishToKafka (count : Z) : M unit :=
  timestamp ← time_Now_Format_RFC3339;
  let payload := count_payload count timestamp in
  match Json.Marshal payload with
  | None => log_Printf ("Failed to marshal Kafka message: %v" +:+ newline) [AErr]
  | Some message =>
      sent ← kafkaWriter_WriteMessages "unique-id-count" message;
      match sent with
      | None => log_Printf ("Failed to write message to Kafka: %v" +:+ newline) [AErr]
      | Some _ => log_Printf ("Published to Kafka: %s" +:+ newline) [AStr message]
      end
  end.

(** The clean-up loop of a tick: [for _, key := range keys { redisDB.Del(ctx, key) }];
    the result of [Del] is dropped. *)
Definition delete_keys (keys : list string) : M unit :=
  for_range keys (fun key => redis_Del key;; mret tt).

(** The body of the loop of [logAndNotifyUniqueRequests], one tick. *)
Definition logAndNotifyUniqueRequests_tick : M unit :=
  res ← redis_Keys_all;
  match res with
  | None =>
      log_Printf ("Error fetching keys from Redis: %v" +:+ newline) [AErr]  (* continue *)
  | Some keys =>
      let count := Z.of_nat (length keys) in
      publishToKafka count;;
      delete_keys keys
  end.

(** Receiving from [ticker.C] blocks until the tick's instant. *)
Definition ticker_receive (t : Z) : M unit :=
  fun w => Ok tt (set_now (Z.max (now w) t) w).

(** [logAndNotifyUniqueRequests]: [for range ticker.C] over the ticks the
    channel of the one-minute ticker delivers. *)
Definition logAndNotifyUniqueRequests (ticker_C : list Z) : M unit :=
  for_range ticker_C (fun t => ticker_receive t;; logAndNotifyUniqueRequests_tick).

Definition sendCountToEndpoint (endpoint : string) (count : Z) : M unit :=
  timestamp ← time_Now_Format_RFC3339;
  let payload := count_payload count timestamp in
  match Json.Marshal payload with
  | None => log_Printf ("Failed to marshal JSON payload: %v" +:+ newline) [AErr]
  | Some jsonData =>
      resp ← http_Post endpoint "application/json" jsonData;
      match resp with
      | None =>
          log_Printf ("Error sending request to endpoint %s: %v" +:+ newline)
            [AStr endpoint; AErr]
      | Some status =>
          log_Printf ("Sent count to endpoint %s, status code: %d" +:+ newline)
            [AStr endpoint; AInt status]
      end
  end.

Definition isUniqueID (id : Z) : M bool :=
  let key := Strconv.Itoa id in
  res ← redis_SetNX key true (1 * GoTime.Minute);
  match res with
  | None =>
      log_Printf ("Error checking ID in Redis: %v" +:+ newline) [AErr];;
      mret false
  | Some result => mret result
  end.

Definition acceptHandler (r : Request) : M unit :=
  if negb (String.eqb (Method r) Http.MethodGet) then
    http_Error "Only GET method is supported" Http.StatusMethodNotAllowed
  else
    let query := Query r in
    let idParam := Values_Get query "id" in
    let endpoint := Values_Get query "endpoint" in
    match Strconv.Atoi idParam with
    | inl _ => http_Error "Invalid or missing 'id' parameter" Http.StatusBadRequest
    | inr id =>
        if id <=? 0 then
          http_Error "Invalid or missing 'id' parameter" Http.StatusBadRequest
        else
          unique ← isUniqueID id;
          if negb unique then
            w_WriteHeader Http.StatusOK;;
            w_Write "ok (duplicate), retry with different id"
          else
            w_WriteHeader Http.StatusOK;;
            w_Write "ok";;
            if negb (String.eqb endpoint EmptyString) then
              res ← redis_Keys_all;
              let keys := default [] res in
              let count := Z.of_nat (length keys) in
              go (GoSendCountToEndpoint endpoint count)
            else mret tt
    end.

(** [main], up to the call of [http.ListenAndServe], which blocks while the
    process serves; from there on the process is driven by the actions of
    the next section. *)
Definition main : M unit :=
  rdb ← initRedis;
  (fun w => Ok tt (set_redisDB rdb w));;
  writer ← initKafka;
  (fun w => Ok tt (set_kafkaWriter writer w));;
  broker ← os_Getenv "KAFKA_BROKER";
  createKafkaTopic "unique-id-count" broker;;
  go GoLogAndNotifyUniqueRequests;;
  emit (EHandleFunc "/api/verve/accept");;
  let port := ":8080" in
  log_Printf ("Starting server on %s..." +:+ newline) [AStr port];;
  emit (EListenAndServe port).

(** ** The running system *)

(** What happens to the process while it serves: time passes, a request is
    handled, the ticker fires (one iteration of the aggregation loop), the
    scheduler runs a queued notification. *)
Inductive Action :=
| Elapse (d : N)
| Serve (r : Request)
| Tick
| Schedule.

Definition elapse (d : N) : M unit :=
  fun w => Ok tt (set_now (now w + Z.of_N d) w).

(** The first queued [sendCountToEndpoint] call and the queue without it. *)
Fixpoint next_notification (ts : list Task) : option (string * Z * list Task) :=
  match ts with
  | [] => None
  | GoSendCountToEndpoint endpoint count :: ts' => Some (endpoint, count, ts')
  | t :: ts' =>
      match next_notification ts' with
      | Some (endpoint, count, rest) => Some (endpoint, count, t :: rest)
      | None => None
      end
  end.

Definition schedule : M unit :=
  fun w =>
    match next_notification (goroutines w) with
    | Some (endpoint, count, rest) =>
        sendCountToEndpoint endpoint count (set_goroutines rest w)
    | None => Ok tt w
    end.

Definition step (a : Action) : M unit :=
  match a with
  | Elapse d => elapse d
  | Serve r => acceptHandler r
  | Tick => logAndNotifyUniqueRequests_tick
  | Schedule => schedule
  end.

Definition run (acts : list Action) : M unit := for_range acts step.

(** ** Reading a run *)

Definition world_of {A} (r : Result A) : World :=
  match r with Ok _ w => w | Exit _ w => w end.

(** The events a computation adds to the trace when run in [w]. *)
Definition events_of {A} (m : M A) (w : World) : list Event :=
  drop (length (trace w)) (trace (world_of (m w))).

Definition is_tick (a : Action) : bool :=
  match a with Tick => true | _ => false end.

(** Events of one kind, for reading a trace. *)
Definition is_redis (e : Event) : bool :=
  match e with
  | ERedisPing | ERedisSetNX _ _ _ | ERedisKeys _ | ERedisDel _ => true
  | _ => false
  end.

Definition is_response (e : Event) : bool :=
  match e with EWriteHeader _ | EWrite _ => true | _ => false end.

Definition is_kafka_write (e : Event) : bool :=
  match e with EKafkaWrite _ _ _ => true | _ => false end.

Definition is_del (e : Event) : bool :=
  match e with ERedisDel _ => true | _ => false end.

Definition is_listen (e : Event) : bool :=
  match e with EListenAndServe _ => true | _ => false end.

(** The values handed to [WriteMessages], read off a trace. *)
Definition published_values (evs : list Event) : list string :=
  omap (fun e => match e with EKafkaWrite _ _ v => Some v | _ => None end) evs.

(** No [Del] is issued after [WriteMessages] has been called: the deletions
    come before the publish. *)
Fixpoint deletes_precede_publish (evs : list Event) : bool :=
  match evs with
  | [] => true
  | e :: evs' =>
      if is_kafka_write e then forallb (fun e' => negb (is_del e')) evs'
      else deletes_precede_publish evs'
  end.

(** No [WriteMessages] is issued after a [Del]: the publish comes before the
    deletions. *)
Fixpoint publish_precedes_deletes (evs : list Event) : bool :=
  match evs with
  | [] => true
  | e :: evs' =>
      if is_del e then forallb (fun e' => negb (is_kafka_write e')) evs'
      else publish_precedes_deletes evs'
  end.

(** The first [n] outcomes of a schedule are all successes. *)
Definition no_faults (n : nat) (l : list bool) : bool := forallb negb (take n l).

(** ** What the steps of the program leave behind *)

(** The text [json.Marshal] produces for the two-field payload. *)
Definition count_message (count : Z) (timestamp : string) : string :=
  "{" +:+ (Json.member "timestamp" (Json.quote timestamp) +:+ "," +:+
           Json.member "unique_request_count" (Strconv.Itoa count)) +:+ "}".

(** The line [publishToKafka] logs after the send. *)
Definition publish_log (count : Z) (w : World) : Event :=
  if next_fault (write_faults w)
  then ELog ("Failed to write message to Kafka: %v" +:+ newline) [AErr]
  else ELog ("Published to Kafka: %s" +:+ newline)
         [AStr (count_message count (rfc3339 w (now w)))].

(** What a skipped tick leaves behind: the enumeration was attempted and the
    error logged. *)
Definition tick_skipped (w : World) : World :=
  set_trace (trace w ++ [ERedisKeys "*";
                         ELog ("Error fetching keys from Redis: %v" +:+ newline) [AErr]])
    (set_redis_faults (tl (redis_faults w)) w).

(** The events of [k] failed connection attempts of [waitForKafka]: each is
    a dial, the log line and the sleep. *)
Fixpoint failed_attempts (broker : string) (delay : Z) (k : nat) : list Event :=
  match k with
  | O => []
  | S k' =>
      [EKafkaDial "tcp" broker;
       ELog "Failed to connect to Kafka at %s: %v. Retrying in %v..."
         [AStr broker; AErr; ADuration delay];
       ESleep delay] ++ failed_attempts broker delay k'
  end.

(** The events of the attempt that connects. *)
Definition connected (broker : string) : list Event :=
  [EKafkaDial "tcp" broker; EKafkaConnClose;
   ELog "Connected to Kafka at %s" [AStr broker]].

(** The world after [k] failed attempts. *)
Definition after_failures (broker : string) (delay : Z) (k : nat) (w : World) : World :=
  set_trace (trace w ++ failed_attempts broker delay k)
    (set_now (now w + Z.of_nat k * Z.max 0 delay)
       (set_dial_faults (drop k (dial_faults w)) w)).

(** The line [createKafkaTopic] logs after the topic-creation request. *)
Definition topic_log (topic : string) (w : World) : Event :=
  if next_fault (topic_faults w)
  then ELog "Failed to create Kafka topic %s: %v" [AStr topic; AErr]
  else ELog "Kafka topic %s created successfully" [AStr topic].

(** The world [main] hands to [createKafkaTopic]: Redis answered the ping
    and both handles are assigned. *)
Definition handles_ready (w : World) : World :=
  set_kafkaWriter
    (mkWriter (kafka_TCP (default EmptyString (environ w !! "KAFKA_BROKER")))
              (default EmptyString (environ w !! "KAFKA_TOPIC")) kafka_LeastBytes)
    (set_redisDB
       (default EmptyString (environ w !! "REDIS_HOST") +:+ ":" +:+
        default EmptyString (environ w !! "REDIS_PORT"))
       (redis_called ERedisPing w)).

(** What [createKafkaTopic] does once the broker answers at attempt [k+1]. *)
Definition bootstrap_events (topic broker : string) (k : nat) (w : World) : list Event :=
  failed_attempts broker (5 * GoTime.Second) k ++ connected broker ++
  [EKafkaDial "tcp" broker; EKafkaCreateTopics topic 1 1; topic_log topic w;
   EKafkaConnClose].

(** What [main] does after the bootstrap. *)
Definition serving_events : list Event :=
  [EHandleFunc "/api/verve/accept";
   ELog ("Starting server on %s..." +:+ newline) [AStr ":8080"];
   EListenAndServe ":8080"].

Definition duplicate_body : string := "ok (duplicate), retry with different id".

(** The world after the handler wrote a 200 response with [body]. *)
Definition responded (body : string) (w : World) : World :=
  set_trace (trace w ++ [EWriteHeader Http.StatusOK; EWrite body]) w.

(** The count the handler takes from its own enumeration; the error of
    [Keys] is dropped, which leaves a nil slice. *)
Definition fresh_count (w : World) : Z :=
  Z.of_nat (length (if next_fault (redis_faults w) then [] else enumerated w)).

(** The world after the handler enumerated the store and started the
    notification goroutine. *)
Definition notification_queued (endpoint : string) (w : World) : World :=
  set_goroutines (goroutines w ++ [GoSendCountToEndpoint endpoint (fresh_count w)])
    (redis_called (ERedisKeys "*") w).

(** The line [sendCountToEndpoint] logs after the POST. *)
Definition post_log (endpoint : string) (w : World) : Event :=
  match default (Some Http.StatusOK) (head (post_results w)) with
  | None =>
      ELog ("Error sending request to endpoint %s: %v" +:+ newline) [AStr endpoint; AErr]
  | Some status =>
      ELog ("Sent count to endpoint %s, status code: %d" +:+ newline)
        [AStr endpoint; AInt status]
  end.

(** ** Windows of claims *)

(** A window of claims: before each call of [isUniqueID] some time passes;
    the result lists each identifier with what its call returned. *)
Fixpoint claims (l : list (N * Z)) : M (list (Z * bool)) :=
  match l with
  | [] => mret []
  | (d, id) :: l' =>
      elapse d;;
      b ← isUniqueID id;
      rs ← claims l';
      mret ((id, b) :: rs)
  end.

Definition elapsed (l : list (N * Z)) : Z :=
  foldr (fun c acc => Z.of_N c.1 + acc) 0 l.

(** The identifiers whose claim returned [true], in call order. *)
Definition claimed (rs : list (Z * bool)) : list Z :=
  (filter (fun r => r.2 = true) rs).*1.

(** The entry of [key] is in the store and lasts until [deadline]. *)
Definition held (key : string) (deadline : Z) (w : World) : Prop :=
  exists e, redis w !! key = Some e /\ deadline <= expireAt e.

(** The window since a drain at [t0]: every entry of the store is either
    left over and expired before [t0], or belongs to one of the identifiers
    [ids] claimed since and lasts a full minute beyond [t0]; each claimed
    identifier has its entry, and is listed once. *)
Record window_inv (t0 : Z) (ids : list Z) (w : World) : Prop := mkWindowInv {
  wi_clock : t0 <= now w;
  wi_store : forall k e, redis w !! k = Some e ->
    expireAt e < t0 \/
    (t0 + 1 * GoTime.Minute <= expireAt e /\ exists id, id ∈ ids /\ k = Strconv.Itoa id);
  wi_claimed : forall id, id ∈ ids ->
    exists e, redis w !! Strconv.Itoa id = Some e /\ t0 + 1 * GoTime.Minute <= expireAt e;
  wi_nodup : NoDup ids
}.

(** ** Worlds and requests for the examples *)

(** A world to run examples in: an empty store, every service reachable,
    the clock at 0 and rendered as a fixed text. *)
Definition frozen_clock (t : Z) : string := "2024-01-01T00:00:00Z".

Definition world0 : World :=
  mkWorld 0 frozen_clock
    (<["KAFKA_BROKER" := "kafka:9092"]> (<["KAFKA_TOPIC" := "unique-id-count"]>
      (<["REDIS_HOST" := "redis"]> (<["REDIS_PORT" := "6379"]> ∅))))
    EmptyString (mkWriter (kafka_TCP EmptyString) "unique-id-count" kafka_LeastBytes)
    ∅ [] [] [] [] [] [] [].

Definition get (id : string) : Request := mkRequest "GET" [("id", id)].

Definition get_notify (id endpoint : string) : Request :=
  mkRequest "GET" [("id", id); ("endpoint", endpoint)].

(** The store after the identifiers 1, 2 and 3 were claimed at time 0. *)
Definition world123 : World :=
  world_of (claims [(0%N, 1); (0%N, 2); (0%N, 3)] world0).

(** ** Statements about requests and windows *)

(** A request the handler accepts for the identifier [id]. *)
Definition valid_request (r : Request) (id : Z) : Prop :=
  Method r = Http.MethodGet /\
  Strconv.Atoi (Values_Get (Query r) "id") = inr id /\
  0 < id.

Definition endpoint_of (r : Request) : string := Values_Get (Query r) "endpoint".

(** A request is turned away with [status] and [msg], and nothing else
    happens: no store call, no goroutine, no other effect. *)
Definition rejected (status : Z) (msg : string) (r : Request) (w : World) : Prop :=
  acceptHandler r w =
    Ok tt (set_trace (trace w ++ [EWriteHeader status; EWrite (msg +:+ newline)]) w).

(** C5 as stated, for one request: the handler enumerates the store and
    starts the notification to the request's endpoint. *)
Definition notifies (r : Request) (w : World) : Prop :=
  exists w' count,
    acceptHandler r w = Ok tt w' /\
    ERedisKeys "*" ∈ events_of (acceptHandler r) w /\
    goroutines w' = goroutines w ++ [GoSendCountToEndpoint (endpoint_of r) count].

(** C4 as stated, for the window that starts in [w], makes the claims [l]
    and is drained [dt] after the last of them: the one value published is
    the message for the number of distinct identifiers claimed. *)
Definition count_equals_claims (w : World) (l : list (N * Z)) (dt : N) : Prop :=
  forall rs w1,
    claims l w = Ok rs w1 ->
    let w2 := world_of (elapse dt w1) in
    next_fault (redis_faults w2) = false ->
    published_values (events_of logAndNotifyUniqueRequests_tick w2) =
      [count_message (Z.of_nat (size (list_to_set (claimed rs) : gset Z)))
         (rfc3339 w2 (now w2))].

(** ** Further notions for the start-up, the store and the handler *)

(** [os.Getenv] read off a world. *)
Definition getenv (w : World) (key : string) : string :=
  default EmptyString (environ w !! key).

(** The action is not a request for the identifier [i]. *)
Definition no_request_for (i : Z) (a : Action) : bool :=
  match a with
  | Serve r =>
      match Strconv.Atoi (Values_Get (Query r) "id") with
      | inr j => negb (j =? i)
      | inl _ => true
      end
  | _ => true
  end.

(** The entry of [key], if there is one, does not outlast [deadline]. *)
Definition expires_by (key : string) (deadline : Z) (w : World) : Prop :=
  forall e, redis w !! key = Some e -> expireAt e <= deadline.

(** Every entry of the store has expired. *)
Definition all_expired (w : World) : Prop :=
  forall k e, redis w !! k = Some e -> expireAt e < now w.

(** ** The in-memory variant: main.go *)

(** The first version of the service keeps the identifiers in a process-wide
    [sync.Map] guarded by a mutex, logs the count to a file once per minute
    and knows neither Redis nor Kafka.  Its functions carry the names of the
    ones above, so they live in a module of their own.  The state is passed
    explicitly; the mutex makes each locked block one step, and the blocks
    of different goroutines can alternate.  [sendCountToEndpoint] rebuilds
    the endpoint with [net/url] before its GET; only its start by [go] is
    modelled. *)
Module Baseline.

Record State := mkState {
  uniqueRequests : gmap Z bool;               (* the sync.Map: id -> true *)
  request_log : list (string * list LogArg);  (* lines written to request_logs.log *)
  started : list Task;                        (* started by go *)
  effects : list Event                        (* response writes, default logger, server *)
}.

Definition set_uniqueRequests (m : gmap Z bool) (s : State) : State :=
  mkState m (request_log s) (started s) (effects s).

Definition emit (e : Event) (s : State) : State :=
  mkState (uniqueRequests s) (request_log s) (started s) (effects s ++ [e]).

Definition go (t : Task) (s : State) : State :=
  mkState (uniqueRequests s) (request_log s) (started s ++ [t]) (effects s).

(** [logger.Printf] of the file logger. *)
Definition logger_Printf (format : string) (args : list LogArg) (s : State) : State :=
  mkState (uniqueRequests s) (request_log s ++ [(format, args)]) (started s) (effects s).

(** [count := 0; uniqueRequests.Range(func(_, _) bool { count++; return true })] *)
Definition Range_count (m : gmap Z bool) : Z :=
  map_fold (fun _ _ count => count + 1) 0 m.

(** [http.Error(w, msg, code)] *)
Definition http_Error (msg : string) (code : Z) (s : State) : State :=
  emit (EWrite (msg +:+ newline)) (emit (EWriteHeader code) s).

(** One iteration of the loop of [logAndNotifyUniqueRequests]: count and
    reset under the lock, then log. *)
Definition logAndNotifyUniqueRequests_tick (s : State) : State :=
  let count := Range_count (uniqueRequests s) in
  let s1 := set_uniqueRequests ∅ s in
  logger_Printf ("Unique requests in the last minute: %d" +:+ newline) [AInt count] s1.

Definition acceptHandler (r : Request) (s : State) : State :=
  if negb (String.eqb (Method r) Http.MethodGet) then
    http_Error "Only GET method is supported" Http.StatusMethodNotAllowed s
  else
    let query := Query r in
    let idParam := Values_Get query "id" in
    let endpoint := Values_Get query "endpoint" in
    match Strconv.Atoi idParam with
    | inl _ => http_Error "Invalid or missing 'id' parameter" Http.StatusBadRequest s
    | inr id =>
        if id <=? 0 then
          http_Error "Invalid or missing 'id' parameter" Http.StatusBadRequest s
        else
          (* Record the unique request *)
          let s1 := set_uniqueRequests (<[id := true]> (uniqueRequests s)) s in
          let s2 := emit (EWrite "ok") (emit (EWriteHeader Http.StatusOK) s1) in
          if negb (String.eqb endpoint EmptyString) then
            (* Count unique requests *)
            let count := Range_count (uniqueRequests s2) in
            go (GoSendCountToEndpoint endpoint count) s2
          else s2
    end.

(** How [main] ends up: serving, or exited through [log.Fatalf]. *)
Inductive Outcome :=
| Serving (s : State)
| Exited (code : Z) (s : State).

(** [initLogger] and [main], up to [http.ListenAndServe]; [open_fails] is the
    outcome of [os.OpenFile] on the log file. *)
Definition main (open_fails : bool) (s : State) : Outcome :=
  if open_fails then
    Exited 1 (emit (ELog "Failed to open log file: %v" [AErr]) s)
  else
    let s1 := go GoLogAndNotifyUniqueRequests s in
    let s2 := emit (EHandleFunc "/api/verve/accept") s1 in
    let s3 := emit (ELog ("Starting server on %s..." +:+ newline) [AStr ":8080"]) s2 in
    Serving (emit (EListenAndServe ":8080") s3).

(** The requests served one after the other. *)
Definition serve_all (rs : list Request) (s : State) : State :=
  foldl (fun s r => acceptHandler r s) s rs.

Definition state0 : State := mkState ∅ [] [] [].

(** [acceptHandler] takes the lock twice, and other goroutines can take it
    in between.  Its first part, to the written response: the validation,
    the locked [Store] and the answer (which touches the request's own
    writer only). *)
Definition answer (r : Request) (s : State) : State :=
  if negb (String.eqb (Method r) Http.MethodGet) then
    http_Error "Only GET method is supported" Http.StatusMethodNotAllowed s
  else
    match Strconv.Atoi (Values_Get (Query r) "id") with
    | inl _ => http_Error "Invalid or missing 'id' parameter" Http.StatusBadRequest s
    | inr id =>
        if id <=? 0 then
          http_Error "Invalid or missing 'id' parameter" Http.StatusBadRequest s
        else
          emit (EWrite "ok")
            (emit (EWriteHeader Http.StatusOK)
               (set_uniqueRequests (<[id := true]> (uniqueRequests s)) s))
    end.

(** Its second part, for a request that names an endpoint: the locked count
    and the [go] statement. *)
Definition count_and_notify (endpoint : string) (s : State) : State :=
  go (GoSendCountToEndpoint endpoint (Range_count (uniqueRequests s))) s.

(** What can run between the two parts: the locked blocks of other requests
    and the locked block of the ticker's loop. *)
Inductive Block :=
| Answered (r : Request)
| Counted (endpoint : string)
| Ticked.

Definition block (b : Block) (s : State) : State :=
  match b with
  | Answered r => answer r s
  | Counted endpoint => count_and_notify endpoint s
  | Ticked => logAndNotifyUniqueRequests_tick s
  end.

Definition blocks (bs : list Block) (s : State) : State :=
  foldl (fun s b => block b s) s bs.

Definition is_ticked (b : Block) : bool :=
  match b with Ticked => true | _ => false end.

End Baseline.

(** The identifier a request is accepted for, by either variant: the method
    is GET and [id] parses to a positive [int]. *)
Definition accepted_id (r : Request) : option Z :=
  if String.eqb (Method r) Http.MethodGet then
    match Strconv.Atoi (Values_Get (Query r) "id") with
    | inr id => if id <=? 0 then None else Some id
    | inl _ => None
    end
  else None.

(** ** Other goroutines between the store commands of one *)

(** The handler issues its two store commands, [SetNX] and [Keys], one after
    the other, and the tick its [Keys] and its [Del]s; other goroutines run
    in between.  The last part of [acceptHandler], after the response of a
    unique claim that names an endpoint: the enumeration and the [go]
    statement. *)
Definition notify_phase (endpoint : string) : M unit :=
  res ← redis_Keys_all;
  let keys := default [] res in
  let count := Z.of_nat (length keys) in
  go (GoSendCountToEndpoint endpoint count).

(** What another goroutine does between two store commands of one: a whole
    step of the running system, or one store command of a handler or of a
    tick that is under way there: the claim of [isUniqueID], a [Keys], a
    [Del]. *)
Inductive Between :=
| Whole (a : Action)
| OtherClaim (id : Z)
| OtherKeys
| OtherDel (key : string).

Definition between (b : Between) : M unit :=
  match b with
  | Whole a => step a
  | OtherClaim id => isUniqueID id;; mret tt
  | OtherKeys => redis_Keys_all;; mret tt
  | OtherDel key => redis_Del key;; mret tt
  end.

Definition run_between (bs : list Between) : M unit := for_range bs between.

(** The clean-up loop of a tick with what other goroutines do before each
    [Del]. *)
Fixpoint delete_keys_amid (keys : list string) (gaps : list (list Between)) : M unit :=
  match keys with
  | [] => mret tt
  | key :: keys' =>
      run_between (hd [] gaps);;
      redis_Del key;;
      delete_keys_amid keys' (tl gaps)
  end.

(** One tick of [logAndNotifyUniqueRequests] with what other goroutines do
    between its calls: the first gap lies between the enumeration and the
    publish, the following ones before each [Del]. *)
Definition tick_amid (gaps : list (list Between)) : M unit :=
  res ← redis_Keys_all;
  match res with
  | None =>
      log_Printf ("Error fetching keys from Redis: %v" +:+ newline) [AErr]
  | Some keys =>
      let count := Z.of_nat (length keys) in
      run_between (hd [] gaps);;
      publishToKafka count;;
      delete_keys_amid keys (tl gaps)
  end.

(** Every store command still to come succeeds. *)
Definition store_answers (w : World) : Prop :=
  forallb negb (redis_faults w) = true.

(** The action handles no request. *)
Definition no_request (a : Action) : bool :=
  match a with Serve _ => false | _ => true end.

(** Nothing is claimed: no request is handled and no [SetNX] issued. *)
Definition no_claim (b : Between) : bool :=
  match b with
  | Whole a => no_request a
  | OtherClaim _ => false
  | _ => true
  end.

(** Nothing is deleted: no tick runs and no [Del] is issued. *)
Definition no_delete (b : Between) : bool :=
  match b with
  | Whole a => negb (is_tick a)
  | OtherDel _ => false
  | _ => true
  end.

(** While a drain that began at [t0] runs: every entry of the store either
    had expired before [t0], or is still to be deleted, or (when claims are
    made meanwhile) was written after [t0]. *)
Definition draining (claiming : bool) (t0 : Z) (todo : list string) (w : World) : Prop :=
  forall k e, redis w !! k = Some e ->
    expireAt e < t0 \/ k ∈ todo \/
    (claiming = true /\ t0 + 1 * GoTime.Minute <= expireAt e).

(** The notifications queued among the started goroutines. *)
Fixpoint pending_notifications (ts : list Task) : nat :=
  match ts with
  | [] => 0
  | GoSendCountToEndpoint _ _ :: ts' => S (pending_notifications ts')
  | _ :: ts' => pending_notifications ts'
  end.

(** * Properties *)

Ltac run_m := unfold mbind, M_bind, mret, M_ret; simpl.

(** Setters nest; reducing them innermost first keeps the terms small. *)
Ltac setters :=
  cbv beta iota delta
    [set_now set_redisDB set_kafkaWriter set_redis set_redis_faults
     set_dial_faults set_topic_faults set_write_faults set_post_results
     set_goroutines set_trace redis_called
     now rfc3339 environ redisDB kafkaWriter redis redis_faults dial_faults
     topic_faults write_faults post_results goroutines trace];
  simpl.

(** ** [strconv] and [encoding/json] *)

Example Atoi_5 : Strconv.Atoi "5" = inr 5.
Proof. reflexivity. Qed.

Example Atoi_plus : Strconv.Atoi "+42" = inr 42.
Proof. reflexivity. Qed.

Example Atoi_neg : Strconv.Atoi "-3" = inr (-3).
Proof. reflexivity. Qed.

Example Atoi_abc : Strconv.Atoi "abc" = inl Strconv.ErrSyntax.
Proof. reflexivity. Qed.

Example Atoi_empty : Strconv.Atoi EmptyString = inl Strconv.ErrSyntax.
Proof. reflexivity. Qed.

Example Atoi_sign_only : Strconv.Atoi "-" = inl Strconv.ErrSyntax.
Proof. reflexivity. Qed.

Example Atoi_huge : Strconv.Atoi "9223372036854775808" = inl Strconv.ErrRange.
Proof. reflexivity. Qed.

Example Itoa_12 : Strconv.Itoa 12 = "12".
Proof. reflexivity. Qed.

Example Itoa_neg : Strconv.Itoa (-7) = "-7".
Proof. reflexivity. Qed.

Lemma to_int_not_nil (z : Z) :
  Z.to_int z <> Decimal.Pos Decimal.Nil /\ Z.to_int z <> Decimal.Neg Decimal.Nil.
Proof.
  destruct z as [|p|p]; simpl; split; try discriminate;
    intros E; injection E as E; revert E; apply DecimalPos.Unsigned.to_uint_nonnil.
Qed.

(** Distinct identifiers have distinct keys. *)
Lemma Itoa_inj (a b : Z) : Strconv.Itoa a = Strconv.Itoa b -> a = b.
Proof.
  unfold Strconv.Itoa. intros H. apply DecimalZ.to_int_inj.
  destruct (to_int_not_nil a) as [Ha1 Ha2], (to_int_not_nil b) as [Hb1 Hb2].
  pose proof (NilZero.isi _ Ha1 Ha2) as Ha.
  pose proof (NilZero.isi _ Hb1 Hb2) as Hb.
  rewrite H in Ha. congruence.
Qed.

#[global] Instance Itoa_Inj : Inj (=) (=) Strconv.Itoa.
Proof. intros a b. apply Itoa_inj. Qed.

Lemma Marshal_count_payload (count : Z) (ts : string) :
  Json.Marshal (count_payload count ts) = Some (count_message count ts).
Proof. reflexivity. Qed.

Example Marshal_example :
  Json.Marshal (count_payload 3 "2024-01-01T00:00:00Z") =
  Some ("{" +:+ Json.dquote +:+ "timestamp" +:+ Json.dquote +:+ ":" +:+
        Json.dquote +:+ "2024-01-01T00:00:00Z" +:+ Json.dquote +:+ "," +:+
        Json.dquote +:+ "unique_request_count" +:+ Json.dquote +:+ ":3}").
Proof. reflexivity. Qed.

Example escape_example :
  Json.escape ("a<" +:+ Json.dquote +:+ newline) =
  "a" +:+ Json.backslash +:+ "u003c" +:+ Json.backslash +:+ Json.dquote +:+
  Json.backslash +:+ "n".
Proof. reflexivity. Qed.

Lemma Values_Get_missing (q : list (string * string)) (key : string) :
  (forall v, (key, v) ∉ q) -> Values_Get q key = EmptyString.
Proof.
  induction q as [|[k v] q IH]; intros H; simpl; [reflexivity|].
  destruct (String.eqb_spec k key) as [->|Hne].
  - exfalso. apply (H v). left.
  - apply IH. intros v' Hin. apply (H v'). right. exact Hin.
Qed.

Lemma events_of_Ok {A} (m : M A) (w w' : World) (a : A) (evs : list Event) :
  m w = Ok a w' -> trace w' = trace w ++ evs -> events_of m w = evs.
Proof.
  intros Hm Ht. unfold events_of. rewrite Hm. simpl. rewrite Ht.
  apply drop_app_length.
Qed.

(** ** The store primitives *)

Lemma set_redis_id (e : Event) (w : World) :
  set_redis (redis w) (redis_called e w) = redis_called e w.
Proof. destruct w; reflexivity. Qed.

Lemma enumerated_spec (w : World) (k : string) :
  k ∈ enumerated w <-> key_live w k = true.
Proof.
  unfold enumerated, key_live, live_keys. rewrite list_elem_of_fmap. split.
  - intros [[k' e] [-> Hin]]. apply elem_of_map_to_list in Hin.
    apply map_lookup_filter_Some in Hin as [Hk Hl]. simpl in *. rewrite Hk. exact Hl.
  - destruct (redis w !! k) as [e|] eqn:Hk; [|discriminate].
    intros Hl. exists (k, e). split; [reflexivity|].
    apply elem_of_map_to_list. apply map_lookup_filter_Some. split; assumption.
Qed.

Lemma enumerated_NoDup (w : World) : NoDup (enumerated w).
Proof. apply NoDup_fst_map_to_list. Qed.

Lemma isUniqueID_fault (id : Z) (w : World) :
  next_fault (redis_faults w) = true ->
  isUniqueID id w =
    Ok false
      (set_trace (trace w ++ [ERedisSetNX (Strconv.Itoa id) true (1 * GoTime.Minute);
                              ELog ("Error checking ID in Redis: %v" +:+ newline) [AErr]])
         (set_redis_faults (tl (redis_faults w)) w)).
Proof.
  intros H. unfold isUniqueID, redis_SetNX, redis_command. run_m. rewrite H. simpl.
  rewrite <- app_assoc. reflexivity.
Qed.

Lemma isUniqueID_ok (id : Z) (w : World) :
  next_fault (redis_faults w) = false ->
  isUniqueID id w =
    Ok (negb (key_live w (Strconv.Itoa id)))
      (set_redis
         (if key_live w (Strconv.Itoa id) then redis w
          else <[Strconv.Itoa id := mkEntry true (now w + 1 * GoTime.Minute)]> (redis w))
         (redis_called (ERedisSetNX (Strconv.Itoa id) true (1 * GoTime.Minute)) w)).
Proof.
  intros H. unfold isUniqueID, redis_SetNX, redis_command, key_live. run_m. rewrite H.
  destruct (redis w !! Strconv.Itoa id) as [e|]; [destruct (live (now w) e)|]; reflexivity.
Qed.

(** ** The Deduplicator under a store failure *)

(** C3: when the store call fails, [isUniqueID] fails closed: it returns
    [false], never [true], logs the error, and leaves the store as it was. *)
Theorem claim_fails_closed (id : Z) (w : World) :
  next_fault (redis_faults w) = true ->
  exists w',
    isUniqueID id w = Ok false w' /\
    trace w' = trace w ++
      [ERedisSetNX (Strconv.Itoa id) true (1 * GoTime.Minute);
       ELog ("Error checking ID in Redis: %v" +:+ newline) [AErr]] /\
    redis w' = redis w /\
    (forall w'', isUniqueID id w <> Ok true w'').
Proof.
  intros Hfault. rewrite (isUniqueID_fault id w Hfault).
  eexists. split; [reflexivity|]. simpl. repeat split; try reflexivity.
  intros w'' Heq. discriminate Heq.
Qed.

Lemma claim_fails_closed_witness :
  next_fault (redis_faults (set_redis_faults [true] world0)) = true /\
  exists w',
    isUniqueID 5 (set_redis_faults [true] world0) = Ok false w' /\
    trace w' = trace (set_redis_faults [true] world0) ++
      [ERedisSetNX (Strconv.Itoa 5) true (1 * GoTime.Minute);
       ELog ("Error checking ID in Redis: %v" +:+ newline) [AErr]] /\
    redis w' = redis (set_redis_faults [true] world0) /\
    (forall w'', isUniqueID 5 (set_redis_faults [true] world0) <> Ok true w'').
Proof.
  split; [reflexivity|].
  apply (claim_fails_closed 5 (set_redis_faults [true] world0)). reflexivity.
Defined.

(** ** Request validation *)

Lemma http_Error_eq (msg : string) (code : Z) (w : World) :
  http_Error msg code w =
    Ok tt (set_trace (trace w ++ [EWriteHeader code; EWrite (msg +:+ newline)]) w).
Proof.
  unfold http_Error, w_WriteHeader, w_Write, emit. run_m.
  rewrite <- app_assoc. reflexivity.
Qed.

Lemma invalid_request_shape (r : Request) (w : World) :
  (Method r <> Http.MethodGet ->
     rejected Http.StatusMethodNotAllowed "Only GET method is supported" r w) /\
  (Method r = Http.MethodGet ->
     (forall v, ("id", v) ∉ Query r) \/
     (exists e, Strconv.Atoi (Values_Get (Query r) "id") = inl e) \/
     (exists n, Strconv.Atoi (Values_Get (Query r) "id") = inr n /\ n <= 0) ->
     rejected Http.StatusBadRequest "Invalid or missing 'id' parameter" r w).
Proof.
  unfold rejected, acceptHandler. split.
  - intros Hm.
    destruct (String.eqb_spec (Method r) Http.MethodGet) as [E|_]; [contradiction|].
    simpl. apply http_Error_eq.
  - intros Hm Hbad. rewrite Hm. simpl.
    assert (Hcase : (exists e, Strconv.Atoi (Values_Get (Query r) "id") = inl e) \/
                    (exists n, Strconv.Atoi (Values_Get (Query r) "id") = inr n /\ n <= 0)).
    { destruct Hbad as [Hmiss|[H|H]]; auto.
      left. rewrite (Values_Get_missing _ _ Hmiss). eexists. reflexivity. }
    destruct Hcase as [[e He]|[n [Hn Hle]]].
    + rewrite He. apply http_Error_eq.
    + rewrite Hn. destruct (Z.leb_spec n 0); [|lia]. apply http_Error_eq.
Qed.

(** C9: a request whose method is not GET is answered 405, and a GET whose
    [id] is missing, does not parse, or is not strictly positive is answered
    400; in both cases the handler does nothing else (the resulting world
    differs from the initial one by the two response events only), so the
    Deduplicator is not called and the store is not touched. *)
Theorem invalid_request_rejected (r : Request) (w : World) :
  (Method r <> Http.MethodGet ->
     rejected Http.StatusMethodNotAllowed "Only GET method is supported" r w /\
     filter (fun e => is_redis e = true) (events_of (acceptHandler r) w) = []) /\
  (Method r = Http.MethodGet ->
     (forall v, ("id", v) ∉ Query r) \/
     (exists e, Strconv.Atoi (Values_Get (Query r) "id") = inl e) \/
     (exists n, Strconv.Atoi (Values_Get (Query r) "id") = inr n /\ n <= 0) ->
     rejected Http.StatusBadRequest "Invalid or missing 'id' parameter" r w /\
     filter (fun e => is_redis e = true) (events_of (acceptHandler r) w) = []).
Proof.
  destruct (invalid_request_shape r w) as [Hmethod Hid]. split.
  - intros Hm. specialize (Hmethod Hm). split; [exact Hmethod|].
    erewrite events_of_Ok; [|exact Hmethod|reflexivity]. reflexivity.
  - intros Hm Hbad. specialize (Hid Hm Hbad). split; [exact Hid|].
    erewrite events_of_Ok; [|exact Hid|reflexivity]. reflexivity.
Qed.

Lemma invalid_request_rejected_witness :
  rejected Http.StatusMethodNotAllowed "Only GET method is supported"
    (mkRequest "POST" [("id", "5")]) world0 /\
  rejected Http.StatusBadRequest "Invalid or missing 'id' parameter"
    (mkRequest "GET" [("endpoint", "http://cb")]) world0 /\
  rejected Http.StatusBadRequest "Invalid or missing 'id' parameter" (get "abc") world0 /\
  rejected Http.StatusBadRequest "Invalid or missing 'id' parameter" (get "-3") world0.
Proof.
  split; [|split; [|split]].
  - apply (proj1 (invalid_request_rejected (mkRequest "POST" [("id", "5")]) world0)).
    discriminate.
  - apply (proj2 (invalid_request_rejected
                    (mkRequest "GET" [("endpoint", "http://cb")]) world0)).
    + reflexivity.
    + left. intros v Hin. simpl in Hin.
      apply elem_of_cons in Hin as [Heq|Hin]; [discriminate Heq|].
      apply elem_of_nil in Hin. exact Hin.
  - apply (proj2 (invalid_request_rejected (get "abc") world0)).
    + reflexivity.
    + right. left. exists Strconv.ErrSyntax. reflexivity.
  - apply (proj2 (invalid_request_rejected (get "-3") world0)).
    + reflexivity.
    + right. right. exists (-3). split; [reflexivity|lia].
Defined.

(** ** The Publisher *)

Lemma publishToKafka_eq (count : Z) (w : World) :
  publishToKafka count w =
  Ok tt (set_trace
           (trace w ++
            [EKafkaWrite (Topic (kafkaWriter w)) "unique-id-count"
               (count_message count (rfc3339 w (now w)));
             if next_fault (write_faults w)
             then ELog ("Failed to write message to Kafka: %v" +:+ newline) [AErr]
             else ELog ("Published to Kafka: %s" +:+ newline)
                    [AStr (count_message count (rfc3339 w (now w)))]])
           (set_write_faults (tl (write_faults w)) w)).
Proof.
  unfold publishToKafka, time_Now_Format_RFC3339. run_m.
  rewrite Marshal_count_payload.
  unfold kafkaWriter_WriteMessages, log_Printf, emit.
  destruct (next_fault (write_faults w)); destruct w; simpl;
    rewrite <- app_assoc; reflexivity.
Qed.

(** C7: the published value is the JSON text of a map with exactly the two
    fields [unique_request_count] (the count handed in) and [timestamp] (the
    RFC 3339 rendering of the clock), under the key ["unique-id-count"];
    [WriteMessages] is called exactly once whatever its outcome, and on a
    failure the only thing that follows is the log line. *)
Theorem publish_once_two_fields (count : Z) (w : World) :
  let ts := rfc3339 w (now w) in
  let payload := count_payload count ts in
  (forall k, is_Some (payload !! k) <-> k = "unique_request_count" \/ k = "timestamp") /\
  payload !! "unique_request_count" = Some (Json.JInt count) /\
  payload !! "timestamp" = Some (Json.JString ts) /\
  Json.Marshal payload = Some (count_message count ts) /\
  exists w',
    publishToKafka count w = Ok tt w' /\
    trace w' = trace w ++
      [EKafkaWrite (Topic (kafkaWriter w)) "unique-id-count" (count_message count ts);
       if next_fault (write_faults w)
       then ELog ("Failed to write message to Kafka: %v" +:+ newline) [AErr]
       else ELog ("Published to Kafka: %s" +:+ newline) [AStr (count_message count ts)]] /\
    length (filter (fun e => is_kafka_write e = true) (drop (length (trace w)) (trace w')))
      = 1%nat.
Proof.
  intros ts payload. split; [|split; [|split; [|split]]].
  - intros k. subst payload. unfold count_payload.
    rewrite lookup_insert_is_Some, lookup_insert_is_Some, lookup_empty.
    split.
    + intros [H|[_ [H|[_ H]]]]; [left|right|destruct H as [? H]; discriminate H]; auto.
    + intros [-> | ->]; [left; reflexivity|right].
      split; [discriminate|]. left. reflexivity.
  - reflexivity.
  - reflexivity.
  - apply Marshal_count_payload.
  - rewrite publishToKafka_eq. eexists. split; [reflexivity|]. simpl.
    split; [reflexivity|].
    rewrite drop_app_length.
    destruct (next_fault (write_faults w)); reflexivity.
Qed.

(** ** The Aggregator *)

Lemma redis_Del_eq (key : string) (w : World) :
  exists m,
    (redis_Del key;; mret tt) w =
      Ok tt (set_redis m (redis_called (ERedisDel key) w)) /\
    (forall k e, m !! k = Some e -> redis w !! k = Some e) /\
    (next_fault (redis_faults w) = false ->
       m !! key = None /\ forall k, k <> key -> m !! k = redis w !! k).
Proof.
  unfold redis_Del, redis_command. run_m.
  destruct (next_fault (redis_faults w)) eqn:Hf.
  - exists (redis w). split; [destruct w; reflexivity|]. split; [auto|discriminate].
  - destruct (redis w !! key) as [e|] eqn:Hk.
    + exists (delete key (redis w)). split; [reflexivity|]. split.
      * intros k e' H. apply lookup_delete_Some in H. tauto.
      * intros _. split; [apply lookup_delete_eq|].
        intros k Hne. apply lookup_delete_ne. congruence.
    + exists (redis w). split; [destruct w; reflexivity|]. split; [auto|].
      intros _. split; auto.
Qed.

Lemma no_faults_cons (n : nat) (l : list bool) :
  no_faults (S n) l = true ->
  next_fault l = false /\ no_faults n (tl l) = true.
Proof.
  unfold no_faults, next_fault. destruct l as [|b l]; simpl.
  - intros _. split; [reflexivity|]. rewrite take_nil. reflexivity.
  - intros H. apply andb_true_iff in H as [Hb Hl]. destruct b; [discriminate|]. auto.
Qed.

(** The clean-up loop issues one [Del] per key, in order, never adds a key,
    and removes exactly the listed keys when the store answers. *)
Lemma delete_keys_spec (keys : list string) : forall w,
  exists m,
    delete_keys keys w =
      Ok tt (set_redis m
               (set_trace (trace w ++ map ERedisDel keys)
                  (set_redis_faults (drop (length keys) (redis_faults w)) w))) /\
    (forall k e, m !! k = Some e -> redis w !! k = Some e) /\
    (no_faults (length keys) (redis_faults w) = true ->
       forall k, m !! k = if decide (k ∈ keys) then None else redis w !! k).
Proof.
  induction keys as [|key keys IH]; intros w.
  - exists (redis w). split; [|split].
    + unfold delete_keys. simpl. run_m. rewrite app_nil_r. destruct w; reflexivity.
    + auto.
    + intros _ k. destruct (decide (k ∈ [])) as [Hin|_]; [inversion Hin|reflexivity].
  - destruct (redis_Del_eq key w) as (m1 & Hstep & Hsub1 & Hok1).
    destruct (IH (set_redis m1 (redis_called (ERedisDel key) w)))
      as (m2 & Hrest & Hsub2 & Hok2).
    exists m2. split; [|split].
    + unfold delete_keys in *. simpl for_range.
      unfold mbind at 1. unfold M_bind at 1. rewrite Hstep, Hrest.
      destruct w as [? ? ? ? ? ? rf ? ? ? ? ? ?]; simpl.
      rewrite <- app_assoc. simpl.
      destruct rf; simpl; rewrite ?drop_nil; reflexivity.
    + intros k e H. apply Hsub1, (Hsub2 k e H).
    + intros Hnf k. simpl in Hok2.
      apply no_faults_cons in Hnf as [Hhd Htl].
      destruct (Hok1 Hhd) as [Hkey Hother].
      rewrite (Hok2 Htl k).
      destruct (decide (k ∈ keys)) as [Hin|Hnin].
      * rewrite decide_True; [reflexivity|]. right. exact Hin.
      * destruct (decide (k = key)) as [->|Hne].
        -- rewrite decide_True; [exact Hkey|]. left.
        -- rewrite decide_False; [apply Hother; exact Hne|].
           intros Hin. apply elem_of_cons in Hin as [?|?]; contradiction.
Qed.

Lemma tick_fault (w : World) :
  next_fault (redis_faults w) = true ->
  logAndNotifyUniqueRequests_tick w = Ok tt (tick_skipped w).
Proof.
  intros H. unfold logAndNotifyUniqueRequests_tick, redis_Keys_all, redis_command.
  run_m. rewrite H. unfold tick_skipped, log_Printf, emit, redis_called. simpl.
  rewrite <- app_assoc. reflexivity.
Qed.

(** After a successful enumeration a tick is the publish of the number of
    keys followed by the clean-up loop over those keys. *)
Lemma tick_enumerates (w : World) :
  next_fault (redis_faults w) = false ->
  logAndNotifyUniqueRequests_tick w =
    (publishToKafka (Z.of_nat (length (enumerated w)));; delete_keys (enumerated w))
      (redis_called (ERedisKeys "*") w).
Proof.
  intros H. unfold logAndNotifyUniqueRequests_tick, redis_Keys_all, redis_command.
  unfold mbind at 1. unfold M_bind at 1. rewrite H. simpl.
  rewrite set_redis_id. reflexivity.
Qed.

Lemma tick_ok_spec (w : World) :
  next_fault (redis_faults w) = false ->
  let keys := enumerated w in
  let count := Z.of_nat (length keys) in
  exists m,
    logAndNotifyUniqueRequests_tick w =
      Ok tt (set_redis m
               (set_trace
                  (trace w ++
                   ERedisKeys "*" ::
                   EKafkaWrite (Topic (kafkaWriter w)) "unique-id-count"
                     (count_message count (rfc3339 w (now w))) ::
                   publish_log count w :: map ERedisDel keys)
                  (set_write_faults (tl (write_faults w))
                     (set_redis_faults (drop (length keys) (tl (redis_faults w))) w)))) /\
    (forall k e, m !! k = Some e -> redis w !! k = Some e) /\
    (no_faults (length keys) (tl (redis_faults w)) = true ->
       forall k, m !! k = if decide (k ∈ keys) then None else redis w !! k).
Proof.
  intros H keys count. rewrite (tick_enumerates w H).
  unfold mbind, M_bind. rewrite publishToKafka_eq. fold keys. fold count.
  match goal with |- context [delete_keys keys ?w1] =>
    destruct (delete_keys_spec keys w1) as (m & Heq & Hsub & Hdel) end.
  exists m. split; [|split].
  - rewrite Heq. unfold publish_log. destruct w; simpl.
    repeat rewrite <- app_assoc. reflexivity.
  - exact Hsub.
  - exact Hdel.
Qed.

Lemma tick_returns (w : World) :
  exists w', logAndNotifyUniqueRequests_tick w = Ok tt w'.
Proof.
  destruct (next_fault (redis_faults w)) eqn:H.
  - rewrite (tick_fault w H). eauto.
  - destruct (tick_ok_spec w H) as (m & Heq & _). rewrite Heq. eauto.
Qed.

Lemma logAndNotifyUniqueRequests_returns (ticker_C : list Z) :
  forall w, exists w', logAndNotifyUniqueRequests ticker_C w = Ok tt w'.
Proof.
  unfold logAndNotifyUniqueRequests.
  induction ticker_C as [|t ticks IH]; intros w; simpl.
  - eexists. reflexivity.
  - unfold mbind, M_bind, ticker_receive.
    destruct (tick_returns (set_now (Z.max (now w) t) w)) as [w1 ->]. apply IH.
Qed.

(** C8: when the enumeration fails the tick does nothing but log: no
    message is published, no key is deleted, the store is as it was; the
    loop neither exits nor stops, and goes on with the next tick. *)
Theorem tick_skipped_on_enumeration_failure (w : World) :
  next_fault (redis_faults w) = true ->
  logAndNotifyUniqueRequests_tick w = Ok tt (tick_skipped w) /\
  events_of logAndNotifyUniqueRequests_tick w =
    [ERedisKeys "*"; ELog ("Error fetching keys from Redis: %v" +:+ newline) [AErr]] /\
  redis (tick_skipped w) = redis w /\
  write_faults (tick_skipped w) = write_faults w /\
  (forall t ticks,
     logAndNotifyUniqueRequests (t :: ticks) w =
     logAndNotifyUniqueRequests ticks (tick_skipped (set_now (Z.max (now w) t) w))) /\
  (forall ticks w0, exists w1, logAndNotifyUniqueRequests ticks w0 = Ok tt w1).
Proof.
  intros Hfault. pose proof (tick_fault w Hfault) as Htick.
  split; [exact Htick|]. split; [|split; [reflexivity|split; [reflexivity|split]]].
  - eapply events_of_Ok; [exact Htick|]. reflexivity.
  - intros t ticks. unfold logAndNotifyUniqueRequests. simpl for_range.
    unfold mbind, M_bind, ticker_receive.
    rewrite (tick_fault (set_now (Z.max (now w) t) w)); [reflexivity|exact Hfault].
  - intros ticks w0. apply logAndNotifyUniqueRequests_returns.
Qed.

Lemma tick_skipped_on_enumeration_failure_witness :
  next_fault (redis_faults (set_redis_faults [true] world123)) = true /\
  events_of logAndNotifyUniqueRequests_tick (set_redis_faults [true] world123) =
    [ERedisKeys "*"; ELog ("Error fetching keys from Redis: %v" +:+ newline) [AErr]].
Proof.
  split; [reflexivity|].
  apply (tick_skipped_on_enumeration_failure (set_redis_faults [true] world123)).
  reflexivity.
Defined.

(** C2, as stated, fails: with the keys 1, 2 and 3 in the store the tick
    calls [WriteMessages] first and issues the three [Del]s after it. *)
Lemma deletes_precede_publish_counterexample :
  events_of logAndNotifyUniqueRequests_tick world123 =
    [ERedisKeys "*";
     EKafkaWrite "unique-id-count" "unique-id-count"
       (count_message 3 "2024-01-01T00:00:00Z");
     ELog ("Published to Kafka: %s" +:+ newline)
       [AStr (count_message 3 "2024-01-01T00:00:00Z")];
     ERedisDel "3"; ERedisDel "1"; ERedisDel "2"] /\
  deletes_precede_publish (events_of logAndNotifyUniqueRequests_tick world123) = false.
Proof. split; vm_compute; reflexivity. Qed.

Lemma publish_precedes_deletes_app (pre : list Event) (keys : list string) :
  forallb (fun e => negb (is_del e)) pre = true ->
  publish_precedes_deletes (pre ++ map ERedisDel keys) = true.
Proof.
  intros Hpre. induction pre as [|e pre IH]; simpl.
  - destruct keys as [|k keys]; simpl; [reflexivity|].
    induction keys as [|k' keys IHk]; simpl; [reflexivity|exact IHk].
  - simpl in Hpre. apply andb_true_iff in Hpre as [He Hpre].
    destruct (is_del e); [discriminate|]. apply IH, Hpre.
Qed.

(** C2, amended: on a tick whose enumeration succeeds the order is:
    enumerate the keys, take their number as the count, publish the count
    with the timestamp, and only then delete each enumerated key; no
    publish follows a deletion. *)
Theorem tick_publishes_then_deletes (w : World) :
  next_fault (redis_faults w) = false ->
  let keys := enumerated w in
  let count := Z.of_nat (length keys) in
  logAndNotifyUniqueRequests_tick w =
    (publishToKafka count;; delete_keys keys) (redis_called (ERedisKeys "*") w) /\
  events_of logAndNotifyUniqueRequests_tick w =
    [ERedisKeys "*";
     EKafkaWrite (Topic (kafkaWriter w)) "unique-id-count"
       (count_message count (rfc3339 w (now w)));
     publish_log count w] ++ map ERedisDel keys /\
  publish_precedes_deletes (events_of logAndNotifyUniqueRequests_tick w) = true.
Proof.
  intros Hok keys count.
  destruct (tick_ok_spec w Hok) as (m & Heq & _). fold keys count in Heq.
  assert (Hev : events_of logAndNotifyUniqueRequests_tick w =
                [ERedisKeys "*";
                 EKafkaWrite (Topic (kafkaWriter w)) "unique-id-count"
                   (count_message count (rfc3339 w (now w)));
                 publish_log count w] ++ map ERedisDel keys).
  { eapply events_of_Ok; [exact Heq|]. reflexivity. }
  split; [apply tick_enumerates, Hok|]. split; [exact Hev|].
  rewrite Hev. apply publish_precedes_deletes_app.
  unfold publish_log. destruct (next_fault (write_faults w)); reflexivity.
Qed.

Lemma tick_publishes_then_deletes_witness :
  next_fault (redis_faults world123) = false /\
  publish_precedes_deletes (events_of logAndNotifyUniqueRequests_tick world123) = true.
Proof.
  split; [reflexivity|].
  apply (tick_publishes_then_deletes world123). reflexivity.
Defined.

(** C10: when the publish fails the tick still issues a [Del] for every
    enumerated key: the failure is logged, the clean-up loop runs all the
    same, and with the store answering no enumerated key is left, so the
    window is reset and its count is gone. *)
Theorem drain_despite_publish_failure (w : World) :
  next_fault (redis_faults w) = false ->
  next_fault (write_faults w) = true ->
  let keys := enumerated w in
  exists w',
    logAndNotifyUniqueRequests_tick w = Ok tt w' /\
    events_of logAndNotifyUniqueRequests_tick w =
      [ERedisKeys "*";
       EKafkaWrite (Topic (kafkaWriter w)) "unique-id-count"
         (count_message (Z.of_nat (length keys)) (rfc3339 w (now w)));
       ELog ("Failed to write message to Kafka: %v" +:+ newline) [AErr]]
      ++ map ERedisDel keys /\
    (no_faults (length keys) (tl (redis_faults w)) = true ->
       (forall k, k ∈ keys -> redis w' !! k = None) /\ enumerated w' = []).
Proof.
  intros Hok Hfail keys.
  destruct (tick_ok_spec w Hok) as (m & Heq & Hsub & Hdel). fold keys in Heq, Hdel.
  eexists. split; [exact Heq|]. split.
  - eapply events_of_Ok; [exact Heq|]. simpl. unfold publish_log. rewrite Hfail.
    reflexivity.
  - intros Hnf. specialize (Hdel Hnf). split.
    + intros k Hin. simpl. rewrite Hdel. rewrite decide_True; [reflexivity|exact Hin].
    + apply elem_of_nil_inv. intros k Hin. apply enumerated_spec in Hin.
      unfold key_live in Hin. simpl in Hin. rewrite Hdel in Hin.
      destruct (decide (k ∈ keys)) as [_|Hnin]; [discriminate|].
      apply Hnin. apply enumerated_spec. exact Hin.
Qed.

Lemma drain_despite_publish_failure_witness :
  next_fault (redis_faults (set_write_faults [true] world123)) = false /\
  next_fault (write_faults (set_write_faults [true] world123)) = true /\
  exists w',
    logAndNotifyUniqueRequests_tick (set_write_faults [true] world123) = Ok tt w' /\
    events_of logAndNotifyUniqueRequests_tick (set_write_faults [true] world123) =
      [ERedisKeys "*";
       EKafkaWrite "unique-id-count" "unique-id-count"
         (count_message 3 "2024-01-01T00:00:00Z");
       ELog ("Failed to write message to Kafka: %v" +:+ newline) [AErr];
       ERedisDel "3"; ERedisDel "1"; ERedisDel "2"] /\
    enumerated w' = [].
Proof.
  split; [reflexivity|]. split; [reflexivity|].
  destruct (drain_despite_publish_failure (set_write_faults [true] world123))
    as (w' & Hrun & Hev & Hreset); [reflexivity|reflexivity|].
  exists w'. split; [exact Hrun|]. split; [exact Hev|].
  apply Hreset. reflexivity.
Defined.

(** ** Broker bootstrap *)

Lemma take_S_replicate (k : nat) (l : list bool) :
  take (S k) l = replicate (S k) true ->
  next_fault l = true /\ take k (tl l) = replicate k true.
Proof.
  destruct l as [|b l]; simpl; [discriminate|].
  intros H. injection H as -> H. auto.
Qed.

(** Every dial outcome schedule either makes the first [n] attempts fail or
    has a first success at some attempt before. *)
Lemma dial_schedule_cases (n : nat) : forall l : list bool,
  take n l = replicate n true \/
  exists k, (k < n)%nat /\ take k l = replicate k true /\ next_fault (drop k l) = false.
Proof.
  induction n as [|n IH]; intros l; [left; reflexivity|].
  destruct l as [|[|] l].
  - right. exists O. repeat split. lia.
  - destruct (IH l) as [Hall|(k & Hk & Htake & Hnext)].
    + left. simpl. rewrite Hall. reflexivity.
    + right. exists (S k). repeat split; [lia| |exact Hnext].
      simpl. rewrite Htake. reflexivity.
  - right. exists O. repeat split. lia.
Qed.

Lemma waitForKafka_failures (broker : string) (retries delay : Z) (k : nat) :
  forall (n : nat) (w : World),
    take k (dial_faults w) = replicate k true ->
    waitForKafka_from (k + n) broker retries delay w =
    waitForKafka_from n broker retries delay (after_failures broker delay k w).
Proof.
  induction k as [|k IH]; intros n w Hk.
  - unfold after_failures. simpl. rewrite app_nil_r, Z.add_0_r, drop_0.
    destruct w; reflexivity.
  - apply take_S_replicate in Hk as [Hhd Htl].
    change (S k + n)%nat with (S (k + n)). simpl waitForKafka_from.
    unfold mbind at 1. unfold M_bind at 1. unfold kafka_Dial. rewrite Hhd.
    unfold log_Printf, emit, time_Sleep. run_m.
    rewrite IH by exact Htl. f_equal.
    unfold after_failures. destruct w as [? ? ? ? ? ? ? df ? ? ? ? ?]; setters.
    repeat rewrite <- app_assoc. simpl.
    f_equal; [lia|]. destruct df; [discriminate Hhd|reflexivity].
Qed.

Lemma waitForKafka_exhausted (broker : string) (retries delay : Z) (w : World) :
  take (Z.to_nat retries) (dial_faults w) = replicate (Z.to_nat retries) true ->
  waitForKafka broker retries delay w =
    Ok (Some ("could not connect to Kafka at " +:+ broker +:+ " after "
              +:+ Strconv.Itoa retries +:+ " retries"))
       (after_failures broker delay (Z.to_nat retries) w).
Proof.
  intros H. unfold waitForKafka.
  rewrite <- (Nat.add_0_r (Z.to_nat retries)) at 1.
  rewrite waitForKafka_failures by exact H. reflexivity.
Qed.

Lemma waitForKafka_connects (broker : string) (retries delay : Z) (k : nat) (w : World) :
  (k < Z.to_nat retries)%nat ->
  take k (dial_faults w) = replicate k true ->
  next_fault (drop k (dial_faults w)) = false ->
  waitForKafka broker retries delay w =
    Ok None
       (set_trace (trace w ++ failed_attempts broker delay k ++ connected broker)
          (set_dial_faults (tl (drop k (dial_faults w)))
             (after_failures broker delay k w))).
Proof.
  intros Hlt Hk Hnext. unfold waitForKafka.
  replace (Z.to_nat retries) with (k + S (Z.to_nat retries - S k))%nat by lia.
  rewrite waitForKafka_failures by exact Hk.
  simpl waitForKafka_from. unfold mbind at 1. unfold M_bind at 1.
  unfold kafka_Dial. simpl dial_faults. rewrite Hnext.
  unfold conn_Close, log_Printf, emit. run_m.
  f_equal. unfold connected. repeat rewrite <- app_assoc. reflexivity.
Qed.

Lemma createKafkaTopic_fatal (topic broker : string) (w : World) :
  take 10 (dial_faults w) = replicate 10 true ->
  createKafkaTopic topic broker w =
    Exit 1 (set_trace
              (trace w ++ failed_attempts broker (5 * GoTime.Second) 10 ++
               [ELog "Kafka is not ready: %v" [AErr]])
              (after_failures broker (5 * GoTime.Second) 10 w)).
Proof.
  intros H. unfold createKafkaTopic. unfold mbind at 1. unfold M_bind at 1.
  rewrite waitForKafka_exhausted by exact H.
  unfold log_Fatalf. change (Z.to_nat 10) with 10%nat.
  f_equal. unfold after_failures. setters. rewrite <- app_assoc. reflexivity.
Qed.

Lemma createKafkaTopic_ok (topic broker : string) (k : nat) (w : World) :
  (k < 10)%nat ->
  take k (dial_faults w) = replicate k true ->
  no_faults 2 (drop k (dial_faults w)) = true ->
  createKafkaTopic topic broker w =
    Ok tt (set_trace (trace w ++ bootstrap_events topic broker k w)
             (set_topic_faults (tl (topic_faults w))
                (set_dial_faults (tl (tl (drop k (dial_faults w))))
                   (after_failures broker (5 * GoTime.Second) k w)))).
Proof.
  intros Hlt Hk Hnf.
  apply no_faults_cons in Hnf as [Hfirst Hnf].
  apply no_faults_cons in Hnf as [Hsecond _].
  unfold createKafkaTopic. unfold mbind at 1. unfold M_bind at 1.
  rewrite (waitForKafka_connects broker 10 _ k w) by (try assumption; simpl; lia).
  unfold mbind at 1. unfold M_bind at 1. unfold kafka_Dial. simpl dial_faults.
  rewrite Hsecond.
  unfold conn_CreateTopics, conn_Close, log_Printf, emit, bootstrap_events, topic_log.
  run_m.
  destruct (next_fault (topic_faults w)); run_m; f_equal; unfold after_failures;
    setters; repeat rewrite <- app_assoc; reflexivity.
Qed.

Lemma main_redis_fatal (w : World) :
  next_fault (redis_faults w) = true ->
  main w =
    Exit 1 (set_trace (trace w ++ [ERedisPing; ELog "Failed to connect to Redis: %v" [AErr]])
              (set_redis_faults (tl (redis_faults w)) w)).
Proof.
  intros H. unfold main, initRedis, redis_Ping, redis_command, os_Getenv, log_Fatalf.
  run_m. rewrite H. simpl. rewrite <- app_assoc. reflexivity.
Qed.

Lemma main_bootstraps (w : World) :
  next_fault (redis_faults w) = false ->
  main w =
    (createKafkaTopic "unique-id-count" (default EmptyString (environ w !! "KAFKA_BROKER"));;
     go GoLogAndNotifyUniqueRequests;;
     emit (EHandleFunc "/api/verve/accept");;
     log_Printf ("Starting server on %s..." +:+ newline) [AStr ":8080"];;
     emit (EListenAndServe ":8080")) (handles_ready w).
Proof.
  intros H. unfold main, initRedis, initKafka, redis_Ping, redis_command, os_Getenv.
  unfold mbind, M_bind, mret, M_ret. rewrite H. simpl.
  rewrite set_redis_id. reflexivity.
Qed.

Lemma filter_listen_failed_attempts (broker : string) (delay : Z) (k : nat) :
  filter (fun e => is_listen e = true) (failed_attempts broker delay k) = [].
Proof. induction k as [|k IH]; simpl; [reflexivity|exact IH]. Qed.

(** C6: [waitForKafka] dials at most ten times and sleeps five seconds
    after each failed attempt; when all ten attempts fail
    [createKafkaTopic] ends the process, and [main] never reaches
    [ListenAndServe]; when an attempt connects, the topic-creation request
    is made and its failure is only logged: [createKafkaTopic] returns and
    [main] goes on to serve. *)
Theorem broker_bootstrap (topic broker : string) (w : World) :
  let delay := 5 * GoTime.Second in
  ((exists k w', (k < 10)%nat /\
      waitForKafka broker 10 delay w = Ok None w' /\
      events_of (waitForKafka broker 10 delay) w =
        failed_attempts broker delay k ++ connected broker) \/
   (exists err w',
      waitForKafka broker 10 delay w = Ok (Some err) w' /\
      events_of (waitForKafka broker 10 delay) w = failed_attempts broker delay 10)) /\
  (take 10 (dial_faults w) = replicate 10 true ->
     (exists w', createKafkaTopic topic broker w = Exit 1 w') /\
     (exists w', main w = Exit 1 w') /\
     filter (fun e => is_listen e = true) (events_of main w) = []) /\
  (forall k, (k < 10)%nat ->
     take k (dial_faults w) = replicate k true ->
     no_faults 2 (drop k (dial_faults w)) = true ->
     (exists w', createKafkaTopic topic broker w = Ok tt w') /\
     events_of (createKafkaTopic topic broker) w = bootstrap_events topic broker k w /\
     (next_fault (redis_faults w) = false ->
        exists w', main w = Ok tt w' /\
          goroutines w' = goroutines w ++ [GoLogAndNotifyUniqueRequests] /\
          events_of main w =
            ERedisPing ::
            bootstrap_events "unique-id-count"
              (default EmptyString (environ w !! "KAFKA_BROKER")) k w ++
            serving_events)).
Proof.
  intros delay. split; [|split].
  - destruct (dial_schedule_cases 10 (dial_faults w)) as [Hall|(k & Hlt & Hk & Hnext)].
    + right. do 2 eexists. split.
      * apply waitForKafka_exhausted. exact Hall.
      * eapply events_of_Ok; [apply waitForKafka_exhausted; exact Hall|]. reflexivity.
    + left. exists k. eexists. split; [exact Hlt|]. split.
      * apply (waitForKafka_connects broker 10 delay k w);
          [simpl; lia|exact Hk|exact Hnext].
      * eapply events_of_Ok;
          [apply (waitForKafka_connects broker 10 delay k w);
           [simpl; lia|exact Hk|exact Hnext]|].
        reflexivity.
  - intros Hall. split; [|split].
    + eexists. apply createKafkaTopic_fatal. exact Hall.
    + destruct (next_fault (redis_faults w)) eqn:Hping.
      * eexists. apply main_redis_fatal. exact Hping.
      * rewrite (main_bootstraps w Hping). unfold mbind at 1. unfold M_bind at 1.
        rewrite createKafkaTopic_fatal by exact Hall. eexists. reflexivity.
    + unfold events_of. destruct (next_fault (redis_faults w)) eqn:Hping.
      * rewrite (main_redis_fatal w Hping). simpl.
        rewrite drop_app_length. reflexivity.
      * rewrite (main_bootstraps w Hping). unfold mbind at 1. unfold M_bind at 1.
        rewrite createKafkaTopic_fatal by exact Hall. simpl.
        rewrite <- app_assoc, drop_app_length. reflexivity.
  - intros k Hlt Hk Hnf.
    pose proof (createKafkaTopic_ok topic broker k w Hlt Hk Hnf) as Hrun.
    split; [eexists; exact Hrun|]. split.
    + eapply events_of_Ok; [exact Hrun|]. reflexivity.
    + intros Hping.
      pose proof (createKafkaTopic_ok "unique-id-count"
                    (default EmptyString (environ w !! "KAFKA_BROKER")) k
                    (handles_ready w) Hlt Hk Hnf) as Hboot.
      assert (Hmain : main w =
                Ok tt
                  (set_trace
                     (trace w ++ ERedisPing ::
                      bootstrap_events "unique-id-count"
                        (default EmptyString (environ w !! "KAFKA_BROKER")) k w ++
                      serving_events)
                     (set_goroutines (goroutines w ++ [GoLogAndNotifyUniqueRequests])
                        (set_topic_faults (tl (topic_faults w))
                           (set_dial_faults (tl (tl (drop k (dial_faults w))))
                              (after_failures
                                 (default EmptyString (environ w !! "KAFKA_BROKER"))
                                 (5 * GoTime.Second) k (handles_ready w))))))).
      { rewrite (main_bootstraps w Hping). unfold mbind at 1. unfold M_bind at 1.
        rewrite Hboot. unfold go, log_Printf, emit, serving_events. run_m.
        f_equal. unfold after_failures, handles_ready, redis_called. setters.
        f_equal. repeat rewrite <- app_assoc. reflexivity. }
      eexists. split; [exact Hmain|]. split; [reflexivity|].
      eapply events_of_Ok; [exact Hmain|]. reflexivity.
Qed.

Lemma broker_bootstrap_witness :
  (exists w', main (set_dial_faults (replicate 10 true) world0) = Exit 1 w') /\
  filter (fun e => is_listen e = true)
    (events_of main (set_dial_faults (replicate 10 true) world0)) = [] /\
  events_of (createKafkaTopic "unique-id-count" "kafka:9092")
    (set_topic_faults [true] (set_dial_faults [true; true; true] world0)) =
  bootstrap_events "unique-id-count" "kafka:9092" 3
    (set_topic_faults [true] (set_dial_faults [true; true; true] world0)).
Proof.
  destruct (broker_bootstrap "unique-id-count" "kafka:9092"
              (set_dial_faults (replicate 10 true) world0)) as (_ & Hfatal & _).
  destruct (Hfatal eq_refl) as (_ & Hmain & Hlisten).
  destruct (broker_bootstrap "unique-id-count" "kafka:9092"
              (set_topic_faults [true] (set_dial_faults [true; true; true] world0)))
    as (_ & _ & Hok).
  destruct (Hok 3%nat) as (_ & Hevents & _); [lia|reflexivity|reflexivity|].
  split; [exact Hmain|]. split; [exact Hlisten|exact Hevents].
Defined.

Example bootstrap_topic_exists :
  events_of (createKafkaTopic "unique-id-count" "kafka:9092")
    (set_topic_faults [true] world0) =
  [EKafkaDial "tcp" "kafka:9092"; EKafkaConnClose;
   ELog "Connected to Kafka at %s" [AStr "kafka:9092"];
   EKafkaDial "tcp" "kafka:9092"; EKafkaCreateTopics "unique-id-count" 1 1;
   ELog "Failed to create Kafka topic %s: %v" [AStr "unique-id-count"; AErr];
   EKafkaConnClose].
Proof. reflexivity. Qed.

(** ** The window count *)

Lemma window_inv_frame (t0 : Z) (ids : list Z) (w w' : World) :
  window_inv t0 ids w -> now w <= now w' -> redis w' = redis w ->
  window_inv t0 ids w'.
Proof.
  intros [Hc Hs Hcl Hnd] Hnow Hredis.
  split; [lia| | |exact Hnd]; rewrite Hredis; assumption.
Qed.

Lemma window_claimed_live (t0 : Z) (ids : list Z) (w : World) (id : Z) :
  window_inv t0 ids w -> now w <= t0 + 1 * GoTime.Minute -> id ∈ ids ->
  key_live w (Strconv.Itoa id) = true.
Proof.
  intros Hinv Hnow Hin. destruct (wi_claimed _ _ _ Hinv id Hin) as (e & He & Hexp).
  unfold key_live. rewrite He. unfold live. apply Z.leb_le. lia.
Qed.

(** One claim keeps the invariant; it returns [true] only for an
    identifier not claimed yet in the window. *)
Lemma isUniqueID_window (t0 : Z) (ids : list Z) (id : Z) (w : World) :
  window_inv t0 ids w -> now w <= t0 + 1 * GoTime.Minute ->
  exists b w',
    isUniqueID id w = Ok b w' /\ now w' = now w /\
    window_inv t0 (ids ++ (if b then [id] else [])) w'.
Proof.
  intros Hinv Hnow.
  destruct (next_fault (redis_faults w)) eqn:Hf.
  - rewrite (isUniqueID_fault id w Hf). do 2 eexists. split; [reflexivity|].
    split; [reflexivity|]. rewrite app_nil_r.
    eapply window_inv_frame; [exact Hinv|simpl; lia|reflexivity].
  - rewrite (isUniqueID_ok id w Hf).
    destruct (key_live w (Strconv.Itoa id)) eqn:Hlive; simpl.
    + do 2 eexists. split; [reflexivity|]. split; [reflexivity|]. rewrite app_nil_r.
      eapply window_inv_frame; [exact Hinv|simpl; lia|reflexivity].
    + do 2 eexists. split; [reflexivity|]. split; [reflexivity|].
      assert (Hfresh : id ∉ ids).
      { intros Hin. rewrite (window_claimed_live t0 ids w id Hinv Hnow Hin) in Hlive.
        discriminate. }
      destruct Hinv as [Hc Hs Hcl Hnd]. split; simpl.
      * exact Hc.
      * intros k e Hk. destruct (decide (Strconv.Itoa id = k)) as [<-|Hne].
        -- rewrite lookup_insert_eq in Hk. injection Hk as <-. simpl. right.
           split; [lia|]. exists id. split; [|reflexivity].
           apply elem_of_app. right. left.
        -- rewrite lookup_insert_ne in Hk by exact Hne.
           destruct (Hs k e Hk) as [Hold|(Hexp & id' & Hin & ->)]; [left; exact Hold|].
           right. split; [exact Hexp|]. exists id'. split; [|reflexivity].
           apply elem_of_app. left. exact Hin.
      * intros id' Hin. apply elem_of_app in Hin as [Hin|Hin].
        -- destruct (Hcl id' Hin) as (e & He & Hexp).
           exists e. split; [|exact Hexp].
           rewrite lookup_insert_ne; [exact He|].
           intros Heq. apply Itoa_inj in Heq. subst id'. contradiction.
        -- apply list_elem_of_singleton in Hin. subst id'.
           eexists. split; [apply lookup_insert_eq|]. simpl. lia.
      * apply NoDup_app. split; [exact Hnd|]. split; [|apply NoDup_singleton].
        intros x Hx Hx'. apply list_elem_of_singleton in Hx'. subst x. contradiction.
Qed.

Lemma claimed_cons (id : Z) (b : bool) (rs : list (Z * bool)) :
  claimed ((id, b) :: rs) = (if b then [id] else []) ++ claimed rs.
Proof. unfold claimed. destruct b; reflexivity. Qed.

Lemma elapsed_nonneg (l : list (N * Z)) : 0 <= elapsed l.
Proof. induction l as [|[d id] l IH]; simpl; lia. Qed.

(** A window of claims that ends within a minute of the drain keeps the
    invariant. *)
Lemma claims_window (t0 : Z) (l : list (N * Z)) : forall (ids : list Z) (w : World),
  window_inv t0 ids w -> now w + elapsed l <= t0 + 1 * GoTime.Minute ->
  exists rs w',
    claims l w = Ok rs w' /\ now w' = now w + elapsed l /\
    window_inv t0 (ids ++ claimed rs) w'.
Proof.
  induction l as [|[d id] l IH]; intros ids w Hinv Hend.
  - exists [], w. split; [reflexivity|]. simpl. rewrite Z.add_0_r, app_nil_r. auto.
  - simpl in Hend. pose proof (elapsed_nonneg l) as Hl.
    assert (Hinv1 : window_inv t0 ids (set_now (now w + Z.of_N d) w)).
    { eapply window_inv_frame; [exact Hinv|simpl; lia|reflexivity]. }
    destruct (isUniqueID_window t0 ids id _ Hinv1) as (b & w1 & Hclaim & Hnow1 & Hinv2);
      [simpl; lia|].
    simpl in Hnow1.
    destruct (IH _ w1 Hinv2) as (rs & w2 & Hrest & Hnow2 & Hinv3); [lia|].
    exists ((id, b) :: rs), w2. split; [|split].
    + simpl claims. unfold mbind, M_bind, elapse. rewrite Hclaim, Hrest. reflexivity.
    + simpl. lia.
    + rewrite claimed_cons, app_assoc. exact Hinv3.
Qed.

(** Within a minute of the drain the enumeration returns the keys of the
    claimed identifiers, each once. *)
Lemma enumerated_window (t0 : Z) (ids : list Z) (w : World) :
  window_inv t0 ids w -> now w <= t0 + 1 * GoTime.Minute ->
  enumerated w ≡ₚ Strconv.Itoa <$> ids.
Proof.
  intros Hinv Hnow. apply NoDup_Permutation.
  - apply enumerated_NoDup.
  - apply NoDup_fmap_2; [apply _|]. exact (wi_nodup _ _ _ Hinv).
  - intros k. rewrite enumerated_spec, list_elem_of_fmap. split.
    + unfold key_live. destruct (redis w !! k) as [e|] eqn:Hk; [|discriminate].
      intros Hlive. apply Z.leb_le in Hlive.
      destruct (wi_store _ _ _ Hinv k e Hk) as [Hold|(_ & id & Hin & ->)].
      * pose proof (wi_clock _ _ _ Hinv). lia.
      * exists id. auto.
    + intros (id & -> & Hin). eapply window_claimed_live; eassumption.
Qed.

Lemma published_values_dels (keys : list string) :
  published_values (map ERedisDel keys) = [].
Proof. induction keys as [|k keys IH]; [reflexivity|exact IH]. Qed.

Lemma tick_published_values (w : World) :
  next_fault (redis_faults w) = false ->
  published_values (events_of logAndNotifyUniqueRequests_tick w) =
    [count_message (Z.of_nat (length (enumerated w))) (rfc3339 w (now w))].
Proof.
  intros Hok. destruct (tick_ok_spec w Hok) as (m & Heq & _).
  erewrite events_of_Ok; [|exact Heq|reflexivity].
  unfold publish_log. destruct (next_fault (write_faults w)); simpl;
    rewrite published_values_dels; reflexivity.
Qed.

(** C4, as stated, fails: identifier 1 is claimed at time 0 and the next
    drain runs two minutes later; the entry has expired, the published count
    is 0, yet one identifier was claimed since the previous drain.  The
    second part reaches the same end through the loop itself: the tick after
    one minute is skipped on an enumeration error, and the tick after two
    minutes publishes 0. *)
Lemma count_equals_claims_counterexample :
  ~ count_equals_claims world0 [(0%N, 1)] (Z.to_N (2 * GoTime.Minute)) /\
  published_values
    (events_of
       (run [Serve (get "1"); Elapse 60000000000; Tick; Elapse 60000000000; Tick])
       (set_redis_faults [false; true] world0)) =
  [count_message 0 "2024-01-01T00:00:00Z"].
Proof.
  split.
  - intros H. specialize (H _ _ eq_refl eq_refl).
    vm_compute in H. discriminate H.
  - vm_compute. reflexivity.
Qed.

(** C4, amended: for a window that starts with no live entry (the previous
    drain cleared the store), has no drain running among its claims, and is
    drained no later than one minute (the TTL) after it started, so that no
    claim record has expired, the count handed to the Publisher is the number
    of distinct identifiers whose claim returned [true]; each identifier is
    claimed, and counted, at most once. *)
Theorem window_count (w : World) (l : list (N * Z)) (dt : N) :
  (forall k, key_live w k = false) ->
  elapsed l + Z.of_N dt <= 1 * GoTime.Minute ->
  exists rs w1,
    claims l w = Ok rs w1 /\
    NoDup (claimed rs) /\
    length (enumerated (world_of (elapse dt w1))) = length (claimed rs) /\
    (next_fault (redis_faults w1) = false ->
       logAndNotifyUniqueRequests_tick (world_of (elapse dt w1)) =
         (publishToKafka (Z.of_nat (length (claimed rs)));;
          delete_keys (enumerated (world_of (elapse dt w1))))
           (redis_called (ERedisKeys "*") (world_of (elapse dt w1)))) /\
    count_equals_claims w l dt.
Proof.
  intros Hempty Hlen.
  assert (Hinv0 : window_inv (now w) [] w).
  { split; [lia| | |apply NoDup_nil_2].
    - intros k e Hk. left. specialize (Hempty k). unfold key_live in Hempty.
      rewrite Hk in Hempty. apply Z.leb_gt in Hempty. exact Hempty.
    - intros id Hin. inversion Hin. }
  destruct (claims_window (now w) l [] w Hinv0) as (rs & w1 & Hrun & Hnow & Hinv);
    [lia|].
  simpl in Hinv.
  set (w2 := world_of (elapse dt w1)).
  assert (Hinv2 : window_inv (now w) (claimed rs) w2).
  { eapply window_inv_frame; [exact Hinv|simpl; lia|reflexivity]. }
  assert (Hnow2 : now w2 <= now w + 1 * GoTime.Minute) by (simpl; lia).
  pose proof (enumerated_window _ _ _ Hinv2 Hnow2) as Hperm.
  assert (Hcount : length (enumerated w2) = length (claimed rs)).
  { rewrite Hperm. apply length_fmap. }
  exists rs, w1. split; [exact Hrun|]. split; [exact (wi_nodup _ _ _ Hinv)|].
  split; [exact Hcount|]. split.
  - intros Hok. rewrite <- Hcount. apply tick_enumerates. exact Hok.
  - intros rs' w1' Hrun' w2' Hok. rewrite Hrun in Hrun'. injection Hrun' as <- <-.
    subst w2'. fold w2 in Hok |- *.
    rewrite (tick_published_values w2 Hok), Hcount.
    rewrite size_list_to_set by exact (wi_nodup _ _ _ Hinv). reflexivity.
Qed.

Lemma window_count_witness :
  (forall k, key_live world0 k = false) /\
  elapsed [(5%N, 1); (5%N, 2); (5%N, 1); (5%N, 3)] + Z.of_N 40 <= 1 * GoTime.Minute /\
  count_equals_claims world0 [(5%N, 1); (5%N, 2); (5%N, 1); (5%N, 3)] 40.
Proof.
  assert (Hempty : forall k, key_live world0 k = false) by (intros k; reflexivity).
  assert (Hlen : elapsed [(5%N, 1); (5%N, 2); (5%N, 1); (5%N, 3)] + Z.of_N 40
                 <= 1 * GoTime.Minute) by (vm_compute; discriminate).
  split; [exact Hempty|]. split; [exact Hlen|].
  destruct (window_count world0 [(5%N, 1); (5%N, 2); (5%N, 1); (5%N, 3)] 40 Hempty Hlen)
    as (rs & w1 & _ & _ & _ & _ & H).
  exact H.
Defined.

Example window_example :
  published_values
    (events_of logAndNotifyUniqueRequests_tick
       (world_of (claims [(5%N, 1); (5%N, 2); (5%N, 1); (5%N, 3)] world0))) =
  [count_message 3 "2024-01-01T00:00:00Z"].
Proof. vm_compute. reflexivity. Qed.

(** ** The Request Orchestrator *)

Lemma isUniqueID_true (id : Z) (w w1 : World) :
  isUniqueID id w = Ok true w1 ->
  next_fault (redis_faults w) = false /\
  key_live w (Strconv.Itoa id) = false /\
  w1 = set_redis
         (<[Strconv.Itoa id := mkEntry true (now w + 1 * GoTime.Minute)]> (redis w))
         (redis_called (ERedisSetNX (Strconv.Itoa id) true (1 * GoTime.Minute)) w).
Proof.
  destruct (next_fault (redis_faults w)) eqn:Hf.
  - rewrite (isUniqueID_fault id w Hf). discriminate.
  - rewrite (isUniqueID_ok id w Hf).
    destruct (key_live w (Strconv.Itoa id)); simpl; [discriminate|].
    intros H. injection H as <-. auto.
Qed.

Lemma isUniqueID_false (id : Z) (w w1 : World) :
  isUniqueID id w = Ok false w1 ->
  now w1 = now w /\ redis w1 = redis w /\ goroutines w1 = goroutines w.
Proof.
  destruct (next_fault (redis_faults w)) eqn:Hf.
  - rewrite (isUniqueID_fault id w Hf). intros H. injection H as <-. auto.
  - rewrite (isUniqueID_ok id w Hf).
    destruct (key_live w (Strconv.Itoa id)); simpl; [|discriminate].
    intros H. injection H as <-. auto.
Qed.

Lemma isUniqueID_returns (id : Z) (w : World) :
  exists b w1, isUniqueID id w = Ok b w1.
Proof.
  destruct (next_fault (redis_faults w)) eqn:Hf.
  - rewrite (isUniqueID_fault id w Hf). eauto.
  - rewrite (isUniqueID_ok id w Hf). eauto.
Qed.

(** A valid request goes to the Deduplicator, and the answer decides the
    branch. *)
Lemma acceptHandler_valid (r : Request) (id : Z) (w : World) :
  valid_request r id ->
  acceptHandler r w =
    (unique ← isUniqueID id;
     if negb unique then
       w_WriteHeader Http.StatusOK;; w_Write duplicate_body
     else
       w_WriteHeader Http.StatusOK;;
       w_Write "ok";;
       if negb (String.eqb (endpoint_of r) EmptyString) then
         res ← redis_Keys_all;
         go (GoSendCountToEndpoint (endpoint_of r) (Z.of_nat (length (default [] res))))
       else mret tt) w.
Proof.
  intros (Hm & Hid & Hpos). unfold acceptHandler. rewrite Hm, Hid. simpl.
  destruct (Z.leb_spec id 0); [lia|]. reflexivity.
Qed.

Lemma respond_last (body : string) (w : World) :
  (w_WriteHeader Http.StatusOK;; w_Write body) w = Ok tt (responded body w).
Proof.
  unfold w_WriteHeader, w_Write, emit, responded. run_m.
  rewrite <- app_assoc. reflexivity.
Qed.

Lemma respond_then {A} (body : string) (k : M A) (w : World) :
  (w_WriteHeader Http.StatusOK;; w_Write body;; k) w = k (responded body w).
Proof.
  unfold w_WriteHeader, w_Write, emit, responded. run_m.
  rewrite <- app_assoc. reflexivity.
Qed.

Lemma accept_duplicate (r : Request) (id : Z) (w w1 : World) :
  valid_request r id ->
  isUniqueID id w = Ok false w1 ->
  acceptHandler r w = Ok tt (responded duplicate_body w1).
Proof.
  intros Hv Hdup. rewrite (acceptHandler_valid r id w Hv).
  unfold mbind at 1. unfold M_bind at 1. rewrite Hdup.
  change (negb false) with true. cbv beta iota.
  apply respond_last.
Qed.

Lemma accept_unique (r : Request) (id : Z) (w w1 : World) :
  valid_request r id ->
  isUniqueID id w = Ok true w1 ->
  acceptHandler r w =
    Ok tt (if String.eqb (endpoint_of r) EmptyString then responded "ok" w1
           else notification_queued (endpoint_of r) (responded "ok" w1)).
Proof.
  intros Hv Huniq. rewrite (acceptHandler_valid r id w Hv).
  unfold mbind at 1. unfold M_bind at 1. rewrite Huniq.
  change (negb true) with false. cbv beta iota.
  rewrite respond_then.
  destruct (String.eqb (endpoint_of r) EmptyString); simpl; [reflexivity|].
  unfold redis_Keys_all, redis_command, go, notification_queued, fresh_count.
  unfold mbind, M_bind.
  destruct (next_fault (redis_faults (responded "ok" w1))); [reflexivity|].
  cbv beta iota zeta. rewrite set_redis_id. reflexivity.
Qed.

Lemma sendCountToEndpoint_eq (endpoint : string) (count : Z) (w : World) :
  sendCountToEndpoint endpoint count w =
    Ok tt (set_trace
             (trace w ++
              [EHttpPost endpoint "application/json"
                 (count_message count (rfc3339 w (now w)));
               post_log endpoint w])
             (set_post_results (tl (post_results w)) w)).
Proof.
  unfold sendCountToEndpoint, time_Now_Format_RFC3339. run_m.
  rewrite Marshal_count_payload. unfold http_Post, log_Printf, emit, post_log.
  destruct (default (Some Http.StatusOK) (head (post_results w)));
    destruct w; setters; rewrite <- app_assoc; reflexivity.
Qed.

(** C5, as stated, fails: identifier 1 is in the store, so the request is a
    duplicate; it is valid and names an endpoint, and the handler answers
    without enumerating the store or starting a notification. *)
Lemma notifies_counterexample :
  valid_request (get_notify "1" "http://cb") 1 /\
  endpoint_of (get_notify "1" "http://cb") <> EmptyString /\
  events_of (acceptHandler (get_notify "1" "http://cb")) world123 =
    [ERedisSetNX "1" true (1 * GoTime.Minute);
     EWriteHeader 200; EWrite duplicate_body] /\
  ~ notifies (get_notify "1" "http://cb") world123.
Proof.
  split; [|split; [|split]].
  - unfold valid_request. split; [reflexivity|]. split; [reflexivity|lia].
  - discriminate.
  - vm_compute. reflexivity.
  - intros (w' & count & Hrun & _ & Hgo).
    vm_compute in Hrun. injection Hrun as <-. vm_compute in Hgo. discriminate Hgo.
Qed.

Lemma schedule_only (task : Task) (w : World) :
  goroutines w = [task] ->
  schedule w =
    match task with
    | GoSendCountToEndpoint endpoint count =>
        sendCountToEndpoint endpoint count (set_goroutines [] w)
    | GoLogAndNotifyUniqueRequests => Ok tt w
    end.
Proof. intros H. unfold schedule. rewrite H. destruct task; reflexivity. Qed.

Lemma notify_phase_eq (endpoint : string) (w : World) :
  notify_phase endpoint w = Ok tt (notification_queued endpoint w).
Proof.
  unfold notify_phase, redis_Keys_all, redis_command, go, notification_queued, fresh_count.
  unfold mbind, M_bind.
  destruct (next_fault (redis_faults w)); [reflexivity|].
  cbv beta iota zeta. rewrite set_redis_id. reflexivity.
Qed.

(** A unique claim that names an endpoint ends in the notification phase,
    entered in the world the response left. *)
Lemma accept_notify (r : Request) (id : Z) (w w1 : World) :
  valid_request r id ->
  endpoint_of r <> EmptyString ->
  isUniqueID id w = Ok true w1 ->
  acceptHandler r w = notify_phase (endpoint_of r) (responded "ok" w1).
Proof.
  intros Hv Hep Huniq. rewrite notify_phase_eq, (accept_unique r id w w1 Hv Huniq).
  destruct (String.eqb_spec (endpoint_of r) EmptyString); [contradiction|reflexivity].
Qed.

Lemma isUniqueID_false_events (id : Z) (w w1 : World) :
  isUniqueID id w = Ok false w1 ->
  exists evs,
    trace w1 = trace w ++ evs /\
    (ERedisKeys "*" ∉ evs) /\
    goroutines w1 = goroutines w.
Proof.
  destruct (next_fault (redis_faults w)) eqn:Hf.
  - rewrite (isUniqueID_fault id w Hf). intros H. injection H as <-.
    eexists. split; [reflexivity|]. split; [|reflexivity].
    intros Hin. apply elem_of_cons in Hin as [Hin|Hin]; [discriminate|].
    apply elem_of_cons in Hin as [Hin|Hin]; [discriminate|]. inversion Hin.
  - rewrite (isUniqueID_ok id w Hf).
    destruct (key_live w (Strconv.Itoa id)); simpl; [|discriminate].
    intros H. injection H as <-.
    eexists. split; [reflexivity|]. split; [|reflexivity].
    intros Hin. apply elem_of_cons in Hin as [Hin|Hin]; [discriminate|]. inversion Hin.
Qed.

Lemma next_notification_last (ts : list Task) (endpoint : string) (count : Z) :
  pending_notifications ts = 0%nat ->
  next_notification (ts ++ [GoSendCountToEndpoint endpoint count]) =
    Some (endpoint, count, ts).
Proof.
  induction ts as [|[|ep c] ts IH]; simpl; intros H.
  - reflexivity.
  - rewrite (IH H). reflexivity.
  - discriminate.
Qed.

Lemma next_notification_pending (ts : list Task) (n : nat) (t : Task) :
  pending_notifications ts = S n ->
  exists endpoint count rest,
    next_notification (ts ++ [t]) = Some (endpoint, count, rest ++ [t]) /\
    pending_notifications rest = n.
Proof.
  induction ts as [|[|ep c] ts IH]; simpl; intros H.
  - discriminate.
  - destruct (IH H) as (endpoint & count & rest & -> & Hrest).
    exists endpoint, count, (GoLogAndNotifyUniqueRequests :: rest).
    split; [reflexivity|exact Hrest].
  - exists ep, c, ts. split; [reflexivity|]. injection H as ->. reflexivity.
Qed.

(** The scheduler runs the queued notifications oldest first: after as many
    steps as there are notifications ahead of the last task, none is left
    ahead of it. *)
Lemma schedule_drains (n : nat) : forall (ts : list Task) (t : Task) (w : World),
  goroutines w = ts ++ [t] ->
  pending_notifications ts = n ->
  exists v rest,
    run (replicate n Schedule) w = Ok tt v /\
    goroutines v = rest ++ [t] /\
    pending_notifications rest = 0%nat.
Proof.
  induction n as [|n IH]; intros ts t w Hgo Hn.
  - exists w, ts. split; [reflexivity|]. split; assumption.
  - destruct (next_notification_pending ts n t Hn) as (ep & c & rest & Hnext & Hrest).
    destruct (IH rest t
                (set_trace
                   (trace w ++
                    [EHttpPost ep "application/json" (count_message c (rfc3339 w (now w)));
                     post_log ep (set_goroutines (rest ++ [t]) w)])
                   (set_post_results (tl (post_results w))
                      (set_goroutines (rest ++ [t]) w))))
      as (v & rest' & Hrun & Hv & Hnone); [reflexivity|exact Hrest|].
    exists v, rest'. split; [|split; assumption].
    unfold run in *. simpl replicate. simpl for_range.
    unfold mbind at 1. unfold M_bind at 1. simpl step. unfold schedule at 1.
    rewrite Hgo, Hnext, sendCountToEndpoint_eq. exact Hrun.
Qed.

(** C5, amended: for a valid request that names an endpoint the claim
    decides.  When it was unique, the handler writes the 200 response, then
    enumerates the store for the count (0 when that enumeration fails) and
    starts the notification; once the scheduler has run the notifications
    queued before it, the next one it runs is this one, and it posts the
    two-field payload to the endpoint exactly once, whatever the outcome of
    the POST, only logs afterwards and writes nothing to the response.  The
    enumeration counts the store as it is when it runs, whatever happened
    since the claim.  When the claim was a duplicate, the handler writes the
    duplicate response and returns: it does not enumerate the store and
    starts no notification. *)
Theorem unique_claim_notifies (r : Request) (id : Z) (w : World) :
  valid_request r id ->
  endpoint_of r <> EmptyString ->
  (exists b w1, isUniqueID id w = Ok b w1) /\
  (forall w1, isUniqueID id w = Ok true w1 ->
     let queued := notification_queued (endpoint_of r) (responded "ok" w1) in
     let count := if next_fault (redis_faults w1) then 0
                  else Z.of_nat (length (enumerated w1)) in
     acceptHandler r w = Ok tt queued /\
     acceptHandler r w = notify_phase (endpoint_of r) (responded "ok" w1) /\
     events_of (acceptHandler r) w =
       [ERedisSetNX (Strconv.Itoa id) true (1 * GoTime.Minute);
        EWriteHeader Http.StatusOK; EWrite "ok"; ERedisKeys "*"] /\
     goroutines queued = goroutines w ++ [GoSendCountToEndpoint (endpoint_of r) count] /\
     (goroutines w = [] ->
        schedule queued =
        sendCountToEndpoint (endpoint_of r) count (set_goroutines [] queued)) /\
     (exists v rest,
        run (replicate (pending_notifications (goroutines w)) Schedule) queued = Ok tt v /\
        pending_notifications rest = 0%nat /\
        schedule v =
        sendCountToEndpoint (endpoint_of r) count (set_goroutines rest v)) /\
     (forall v,
        (exists v', sendCountToEndpoint (endpoint_of r) count v = Ok tt v') /\
        events_of (sendCountToEndpoint (endpoint_of r) count) v =
          [EHttpPost (endpoint_of r) "application/json"
             (count_message count (rfc3339 v (now v)));
           post_log (endpoint_of r) v])) /\
  (forall v,
     notify_phase (endpoint_of r) v = Ok tt (notification_queued (endpoint_of r) v) /\
     events_of (notify_phase (endpoint_of r)) v = [ERedisKeys "*"] /\
     goroutines (notification_queued (endpoint_of r) v) =
       goroutines v ++
       [GoSendCountToEndpoint (endpoint_of r)
          (if next_fault (redis_faults v) then 0 else Z.of_nat (length (enumerated v)))]) /\
  (forall w1, isUniqueID id w = Ok false w1 ->
     acceptHandler r w = Ok tt (responded duplicate_body w1) /\
     events_of (acceptHandler r) w =
       events_of (isUniqueID id) w ++ [EWriteHeader Http.StatusOK; EWrite duplicate_body] /\
     (ERedisKeys "*" ∉ events_of (acceptHandler r) w) /\
     goroutines (responded duplicate_body w1) = goroutines w).
Proof.
  intros Hv Hep. split; [apply isUniqueID_returns|]. split; [|split].
  - intros w1 Huniq queued count.
    assert (Hrun : acceptHandler r w = Ok tt queued).
    { rewrite (accept_unique r id w w1 Hv Huniq).
      destruct (String.eqb_spec (endpoint_of r) EmptyString); [contradiction|reflexivity]. }
    destruct (isUniqueID_true id w w1 Huniq) as (Hok & Hfresh & Hw1).
    assert (Hcount : fresh_count (responded "ok" w1) = count).
    { unfold fresh_count, count. simpl.
      destruct (next_fault (redis_faults w1)); reflexivity. }
    assert (Hgo : goroutines queued =
                  goroutines w ++ [GoSendCountToEndpoint (endpoint_of r) count]).
    { unfold queued, notification_queued. rewrite Hcount. rewrite Hw1. reflexivity. }
    split; [exact Hrun|]. split; [exact (accept_notify r id w w1 Hv Hep Huniq)|].
    split; [|split; [exact Hgo|split; [|split]]].
    + eapply events_of_Ok; [exact Hrun|]. unfold queued. rewrite Hw1. simpl.
      repeat rewrite <- app_assoc. reflexivity.
    + intros Hnone. rewrite Hnone in Hgo.
      apply (schedule_only _ queued Hgo).
    + destruct (schedule_drains (pending_notifications (goroutines w)) (goroutines w)
                  (GoSendCountToEndpoint (endpoint_of r) count) queued Hgo eq_refl)
        as (v & rest & Hdrain & Hv' & Hnone).
      exists v, rest. split; [exact Hdrain|]. split; [exact Hnone|].
      unfold schedule. rewrite Hv', (next_notification_last rest _ _ Hnone). reflexivity.
    + intros v. rewrite sendCountToEndpoint_eq. split; [eexists; reflexivity|].
      eapply events_of_Ok; [apply sendCountToEndpoint_eq|]. reflexivity.
  - intros v. split; [apply notify_phase_eq|]. split.
    + eapply events_of_Ok; [apply notify_phase_eq|]. reflexivity.
    + unfold notification_queued, fresh_count. simpl.
      destruct (next_fault (redis_faults v)); reflexivity.
  - intros w1 Hdup.
    pose proof (accept_duplicate r id w w1 Hv Hdup) as Hrun.
    destruct (isUniqueID_false_events id w w1 Hdup) as (evs & Htr & Hnokeys & Hgo).
    assert (Hevs : events_of (isUniqueID id) w = evs).
    { eapply events_of_Ok; [exact Hdup|exact Htr]. }
    assert (Hall : events_of (acceptHandler r) w =
                   evs ++ [EWriteHeader Http.StatusOK; EWrite duplicate_body]).
    { eapply events_of_Ok; [exact Hrun|]. simpl. rewrite Htr, <- app_assoc. reflexivity. }
    split; [exact Hrun|]. split; [rewrite Hevs; exact Hall|]. split; [|exact Hgo].
    rewrite Hall. intros Hin. apply elem_of_app in Hin as [Hin|Hin]; [exact (Hnokeys Hin)|].
    apply elem_of_cons in Hin as [Hin|Hin]; [discriminate|].
    apply elem_of_cons in Hin as [Hin|Hin]; [discriminate|]. inversion Hin.
Qed.

Lemma unique_claim_notifies_witness :
  valid_request (get_notify "7" "http://cb") 7 /\
  endpoint_of (get_notify "7" "http://cb") <> EmptyString /\
  events_of (acceptHandler (get_notify "7" "http://cb")) world123 =
    [ERedisSetNX (Strconv.Itoa 7) true (1 * GoTime.Minute);
     EWriteHeader Http.StatusOK; EWrite "ok"; ERedisKeys "*"] /\
  valid_request (get_notify "1" "http://cb") 1 /\
  acceptHandler (get_notify "1" "http://cb") world123 =
    Ok tt (responded duplicate_body (world_of (isUniqueID 1 world123))).
Proof.
  assert (Hv : valid_request (get_notify "7" "http://cb") 7).
  { unfold valid_request. split; [reflexivity|]. split; [reflexivity|lia]. }
  assert (Hep : endpoint_of (get_notify "7" "http://cb") <> EmptyString)
    by discriminate.
  assert (Hv1 : valid_request (get_notify "1" "http://cb") 1).
  { unfold valid_request. split; [reflexivity|]. split; [reflexivity|lia]. }
  assert (Hep1 : endpoint_of (get_notify "1" "http://cb") <> EmptyString)
    by discriminate.
  split; [exact Hv|]. split; [exact Hep|]. split; [|split; [exact Hv1|]].
  - destruct (unique_claim_notifies (get_notify "7" "http://cb") 7 world123 Hv Hep)
      as (_ & Huniq & _).
    destruct (Huniq (world_of (isUniqueID 7 world123))) as (_ & _ & Hev & _);
      [vm_compute; reflexivity|exact Hev].
  - destruct (unique_claim_notifies (get_notify "1" "http://cb") 1 world123 Hv1 Hep1)
      as (_ & _ & _ & Hdup).
    destruct (Hdup (world_of (isUniqueID 1 world123))) as (Hrun & _);
      [vm_compute; reflexivity|exact Hrun].
Defined.

Example notification_example :
  events_of (run [Serve (get_notify "7" "http://cb"); Schedule]) world123 =
  [ERedisSetNX "7" true (1 * GoTime.Minute); EWriteHeader 200; EWrite "ok";
   ERedisKeys "*";
   EHttpPost "http://cb" "application/json" (count_message 4 "2024-01-01T00:00:00Z");
   ELog ("Sent count to endpoint %s, status code: %d" +:+ newline)
     [AStr "http://cb"; AInt 200]].
Proof. vm_compute. reflexivity. Qed.

(** ** First claim, then duplicates *)

Lemma acceptHandler_store (r : Request) (w : World) :
  exists w',
    acceptHandler r w = Ok tt w' /\ now w' = now w /\
    (redis w' = redis w \/
     exists id, key_live w (Strconv.Itoa id) = false /\
       redis w' =
         <[Strconv.Itoa id := mkEntry true (now w + 1 * GoTime.Minute)]> (redis w)).
Proof.
  destruct (String.eqb_spec (Method r) Http.MethodGet) as [Hm|Hm].
  - destruct (Strconv.Atoi (Values_Get (Query r) "id")) as [e|id] eqn:Hid.
    + eexists. split; [|split; [|left]].
      * apply (proj2 (invalid_request_shape r w) Hm). right. left. eauto.
      * reflexivity.
      * reflexivity.
    + destruct (Z.leb_spec id 0) as [Hle|Hpos].
      * eexists. split; [|split; [|left]].
        -- apply (proj2 (invalid_request_shape r w) Hm). right. right. eauto.
        -- reflexivity.
        -- reflexivity.
      * assert (Hv : valid_request r id) by (repeat split; assumption).
        destruct (isUniqueID_returns id w) as ([|] & w1 & Hclaim).
        -- rewrite (accept_unique r id w w1 Hv Hclaim).
           destruct (isUniqueID_true id w w1 Hclaim) as (_ & Hfresh & ->).
           eexists. split; [reflexivity|].
           destruct (String.eqb (endpoint_of r) EmptyString);
             (split; [reflexivity|right; exists id; split; [exact Hfresh|reflexivity]]).
        -- rewrite (accept_duplicate r id w w1 Hv Hclaim).
           destruct (isUniqueID_false id w w1 Hclaim) as (Hnow & Hredis & _).
           eexists. split; [reflexivity|]. split; [exact Hnow|left; exact Hredis].
  - eexists. split; [|split; [|left]].
    + apply (proj1 (invalid_request_shape r w) Hm).
    + reflexivity.
    + reflexivity.
Qed.

Lemma schedule_store (w : World) :
  exists w', schedule w = Ok tt w' /\ now w' = now w /\ redis w' = redis w.
Proof.
  unfold schedule. destruct (next_notification (goroutines w)) as [[[ep c] rest]|].
  - rewrite sendCountToEndpoint_eq. eexists. repeat split.
  - eexists. repeat split.
Qed.

Lemma held_live (key : string) (deadline : Z) (w : World) :
  held key deadline w -> now w <= deadline -> key_live w key = true.
Proof.
  intros (e & He & Hexp) Hnow. unfold key_live. rewrite He.
  apply Z.leb_le. lia.
Qed.

(** Anything but a tick returns, does not turn the clock back, and leaves a
    held entry in place while its deadline has not passed. *)
Lemma step_holds (a : Action) (w : World) :
  is_tick a = false ->
  exists w',
    step a w = Ok tt w' /\ now w <= now w' /\
    (forall key deadline,
       held key deadline w -> now w <= deadline -> held key deadline w').
Proof.
  intros Hnot. destruct a as [d|r| |]; simpl in *; [| | discriminate |].
  - eexists. split; [reflexivity|]. simpl. split; [lia|]. intros key dl Hheld _.
    exact Hheld.
  - destruct (acceptHandler_store r w) as (w' & Hrun & Hnow & Hstore).
    exists w'. split; [exact Hrun|]. split; [lia|]. intros key dl Hheld Hdl.
    destruct Hstore as [Hsame|(id & Hfresh & Hins)].
    + unfold held. rewrite Hsame. exact Hheld.
    + destruct (decide (Strconv.Itoa id = key)) as [Heq|Hne].
      * subst key. rewrite (held_live _ _ _ Hheld Hdl) in Hfresh. discriminate.
      * unfold held. rewrite Hins, lookup_insert_ne by exact Hne. exact Hheld.
  - destruct (schedule_store w) as (w' & Hrun & Hnow & Hredis).
    exists w'. split; [exact Hrun|]. split; [lia|]. intros key dl Hheld _.
    unfold held. rewrite Hredis. exact Hheld.
Qed.

Lemma run_holds (key : string) (deadline : Z) (acts : list Action) : forall w,
  forallb (fun a => negb (is_tick a)) acts = true ->
  (now w <= deadline -> held key deadline w) ->
  exists w',
    run acts w = Ok tt w' /\ now w <= now w' /\
    (now w' <= deadline -> held key deadline w').
Proof.
  induction acts as [|a acts IH]; intros w Hnot Hheld.
  - exists w. split; [reflexivity|]. split; [lia|exact Hheld].
  - simpl in Hnot. apply andb_true_iff in Hnot as [Ha Hacts].
    apply negb_true_iff in Ha.
    destruct (step_holds a w Ha) as (w1 & Hstep & Hmono & Hkeep).
    destruct (IH w1 Hacts) as (w2 & Hrun & Hmono2 & Hkeep2).
    { intros Hdl. apply Hkeep; [apply Hheld|]; lia. }
    exists w2. split; [|split; [lia|exact Hkeep2]].
    unfold run in *. simpl. unfold mbind, M_bind. rewrite Hstep. exact Hrun.
Qed.

Lemma held_duplicate (id : Z) (deadline : Z) (w : World) :
  held (Strconv.Itoa id) deadline w -> now w <= deadline ->
  exists w', isUniqueID id w = Ok false w'.
Proof.
  intros Hheld Hdl. destruct (next_fault (redis_faults w)) eqn:Hf.
  - rewrite (isUniqueID_fault id w Hf). eauto.
  - rewrite (isUniqueID_ok id w Hf), (held_live _ _ _ Hheld Hdl). eauto.
Qed.

Lemma first_claim_held (id : Z) (w w1 : World) :
  isUniqueID id w = Ok true w1 ->
  held (Strconv.Itoa id) (now w + 1 * GoTime.Minute) w1 /\ now w1 = now w.
Proof.
  intros H. destruct (isUniqueID_true id w w1 H) as (_ & _ & ->). split; [|reflexivity].
  eexists. split; [apply lookup_insert_eq|]. simpl. lia.
Qed.

(** C1: with the store answering, the first claim of an identifier that has
    no live entry returns [true]; after any run of requests, notifications
    and passing time that has no drain in it, and as long as the entry's
    minute has not passed, a claim of the same identifier returns [false].
    The handler answers 200 with body ["ok"] to the first request and 200
    with the duplicate message to a later one. *)
Theorem first_claim_then_duplicates
    (i : Z) (r r' : Request) (w : World) (acts : list Action) :
  valid_request r i -> valid_request r' i ->
  key_live w (Strconv.Itoa i) = false ->
  next_fault (redis_faults w) = false ->
  forallb (fun a => negb (is_tick a)) acts = true ->
  (exists w1, isUniqueID i w = Ok true w1 /\
     exists w2, run acts w1 = Ok tt w2 /\
       (now w2 <= now w + 1 * GoTime.Minute ->
        exists w3, isUniqueID i w2 = Ok false w3)) /\
  (exists w1, acceptHandler r w = Ok tt w1 /\
     filter (fun e => is_response e = true) (events_of (acceptHandler r) w) =
       [EWriteHeader Http.StatusOK; EWrite "ok"] /\
     exists w2, run acts w1 = Ok tt w2 /\
       (now w2 <= now w + 1 * GoTime.Minute ->
        exists w3, acceptHandler r' w2 = Ok tt w3 /\
          filter (fun e => is_response e = true) (events_of (acceptHandler r') w2) =
            [EWriteHeader Http.StatusOK; EWrite duplicate_body])).
Proof.
  intros Hv Hv' Hfresh Hok Hnot.
  pose proof (isUniqueID_ok i w Hok) as Hfirst. rewrite Hfresh in Hfirst.
  simpl in Hfirst.
  destruct (first_claim_held i w _ Hfirst) as [Hheld Hnow1].
  split.
  - eexists. split; [exact Hfirst|].
    destruct (run_holds _ _ acts _ Hnot (fun _ => Hheld)) as (w2 & Hrun & _ & Hkeep).
    exists w2. split; [exact Hrun|]. intros Hdl.
    apply (held_duplicate i (now w + 1 * GoTime.Minute) w2 (Hkeep Hdl) Hdl).
  - pose proof (accept_unique r i w _ Hv Hfirst) as Haccept.
    match type of Haccept with _ = Ok tt ?x => set (w1 := x) in * end.
    assert (Hheld1 : held (Strconv.Itoa i) (now w + 1 * GoTime.Minute) w1).
    { unfold w1. destruct (String.eqb (endpoint_of r) EmptyString); exact Hheld. }
    exists w1. split; [exact Haccept|]. split.
    + unfold events_of. rewrite Haccept. unfold w1.
      destruct (String.eqb (endpoint_of r) EmptyString); simpl;
        repeat rewrite <- app_assoc; rewrite drop_app_length; reflexivity.
    + destruct (run_holds _ _ acts _ Hnot (fun _ => Hheld1)) as (w2 & Hrun & _ & Hkeep).
      exists w2. split; [exact Hrun|]. intros Hdl.
      destruct (held_duplicate i _ w2 (Hkeep Hdl) Hdl) as (w3 & Hdup).
      pose proof (accept_duplicate r' i w2 w3 Hv' Hdup) as Haccept'.
      eexists. split; [exact Haccept'|].
      unfold events_of. rewrite Haccept'. simpl.
      destruct (next_fault (redis_faults w2)) eqn:Hf.
      * rewrite (isUniqueID_fault i w2 Hf) in Hdup. injection Hdup as <-. simpl.
        repeat rewrite <- app_assoc. rewrite drop_app_length. reflexivity.
      * rewrite (isUniqueID_ok i w2 Hf), (held_live _ _ _ (Hkeep Hdl) Hdl) in Hdup.
        injection Hdup as <-. simpl.
        repeat rewrite <- app_assoc. rewrite drop_app_length. reflexivity.
Qed.

Lemma first_claim_then_duplicates_witness :
  valid_request (get "5") 5 /\
  key_live world0 (Strconv.Itoa 5) = false /\
  next_fault (redis_faults world0) = false /\
  (exists w1, isUniqueID 5 world0 = Ok true w1 /\
     exists w2, run [Serve (get "6"); Elapse 1000; Schedule] w1 = Ok tt w2 /\
       (now w2 <= now world0 + 1 * GoTime.Minute ->
        exists w3, isUniqueID 5 w2 = Ok false w3)).
Proof.
  assert (Hv : valid_request (get "5") 5).
  { unfold valid_request. split; [reflexivity|]. split; [reflexivity|lia]. }
  split; [exact Hv|]. split; [reflexivity|]. split; [reflexivity|].
  apply (first_claim_then_duplicates 5 (get "5") (get "5") world0
           [Serve (get "6"); Elapse 1000; Schedule] Hv Hv eq_refl eq_refl eq_refl).
Defined.

Example scenario_A :
  filter (fun e => is_response e = true)
    (events_of (run [Serve (get "5"); Serve (get "5")]) world0) =
  [EWriteHeader 200; EWrite "ok"; EWriteHeader 200; EWrite duplicate_body].
Proof. vm_compute. reflexivity. Qed.

Example scenario_C :
  published_values
    (events_of (run [Serve (get "1"); Serve (get "2"); Serve (get "3"); Tick]) world0) =
    [count_message 3 "2024-01-01T00:00:00Z"] /\
  filter (fun e => is_response e = true)
    (events_of (acceptHandler (get "1"))
       (world_of (run [Serve (get "1"); Serve (get "2"); Serve (get "3"); Tick] world0))) =
    [EWriteHeader 200; EWrite "ok"].
Proof. split; vm_compute; reflexivity. Qed.

Example ttl_expiry :
  filter (fun e => is_response e = true)
    (events_of (run [Serve (get "5"); Elapse 60000000001; Serve (get "5")]) world0) =
  [EWriteHeader 200; EWrite "ok"; EWriteHeader 200; EWrite "ok"].
Proof. vm_compute. reflexivity. Qed.


(** * Further properties of the program *)

(** ** Start-up *)

(** X1: when the Redis ping fails at start-up, [main] logs the failure and
    exits with code 1 right there: no Kafka dial, no goroutine, no
    listener. *)
Theorem redis_unreachable_at_startup (w : World) :
  next_fault (redis_faults w) = true ->
  exists w',
    main w = Exit 1 w' /\
    events_of main w = [ERedisPing; ELog "Failed to connect to Redis: %v" [AErr]] /\
    goroutines w' = goroutines w /\
    dial_faults w' = dial_faults w.
Proof.
  intros Hping. pose proof (main_redis_fatal w Hping) as Hmain.
  eexists. split; [exact Hmain|]. split; [|split; reflexivity].
  unfold events_of. rewrite Hmain. simpl. apply drop_app_length.
Qed.

Lemma redis_unreachable_at_startup_witness :
  next_fault (redis_faults (set_redis_faults [true] world0)) = true /\
  events_of main (set_redis_faults [true] world0) =
    [ERedisPing; ELog "Failed to connect to Redis: %v" [AErr]].
Proof.
  split; [reflexivity|].
  destruct (redis_unreachable_at_startup (set_redis_faults [true] world0) eq_refl)
    as (w' & _ & Hev & _).
  exact Hev.
Defined.

(** X2: [waitForKafka] gives up after [retries] failed attempts, whatever
    [retries] and [delay] are: it has slept [delay] after each of them, the
    last one included, and returns the error; with [retries <= 0] it returns
    the error at once, without dialing. *)
Theorem waitForKafka_gives_up (broker : string) (retries delay : Z) (w : World) :
  take (Z.to_nat retries) (dial_faults w) = replicate (Z.to_nat retries) true ->
  exists err w',
    waitForKafka broker retries delay w = Ok (Some err) w' /\
    events_of (waitForKafka broker retries delay) w =
      failed_attempts broker delay (Z.to_nat retries) /\
    now w' = now w + Z.max 0 retries * Z.max 0 delay /\
    dial_faults w' = drop (Z.to_nat retries) (dial_faults w) /\
    (retries <= 0 -> w' = w).
Proof.
  intros Hall. pose proof (waitForKafka_exhausted broker retries delay w Hall) as Hrun.
  do 2 eexists. split; [exact Hrun|]. split; [|split; [|split]].
  - eapply events_of_Ok; [exact Hrun|]. reflexivity.
  - simpl. replace (Z.of_nat (Z.to_nat retries)) with (Z.max 0 retries) by lia.
    reflexivity.
  - reflexivity.
  - intros Hle. unfold after_failures.
    replace (Z.to_nat retries) with 0%nat by lia.
    simpl. rewrite app_nil_r, Z.add_0_r, drop_0. destruct w; reflexivity.
Qed.

Lemma waitForKafka_gives_up_witness :
  take (Z.to_nat 3) (dial_faults (set_dial_faults [true; true; true; false] world0)) =
    replicate (Z.to_nat 3) true /\
  exists err w',
    waitForKafka "kafka:9092" 3 (2 * GoTime.Second)
      (set_dial_faults [true; true; true; false] world0) = Ok (Some err) w' /\
    now w' = 6 * GoTime.Second /\
    dial_faults w' = [false].
Proof.
  split; [reflexivity|].
  destruct (waitForKafka_gives_up "kafka:9092" 3 (2 * GoTime.Second)
              (set_dial_faults [true; true; true; false] world0) eq_refl)
    as (err & w' & Hrun & _ & Hnow & Hfaults & _).
  exists err, w'. split; [exact Hrun|]. split; [exact Hnow|exact Hfaults].
Defined.

Lemma tl_drop {A} (k : nat) (l : list A) : tl (drop k l) = drop (S k) l.
Proof.
  revert k. induction l as [|x l IH]; intros [|k]; try reflexivity.
  simpl. apply IH.
Qed.

(** X3: when the broker answers at attempt [k+1], [waitForKafka] returns a
    nil error having slept [k] times: the clock has advanced by [k * delay],
    [k+1] dial outcomes are used, and the probe connection is closed. *)
Theorem waitForKafka_connects_after
    (broker : string) (retries delay : Z) (k : nat) (w : World) :
  (k < Z.to_nat retries)%nat ->
  take k (dial_faults w) = replicate k true ->
  next_fault (drop k (dial_faults w)) = false ->
  exists w',
    waitForKafka broker retries delay w = Ok None w' /\
    events_of (waitForKafka broker retries delay) w =
      failed_attempts broker delay k ++ connected broker /\
    now w' = now w + Z.of_nat k * Z.max 0 delay /\
    dial_faults w' = drop (S k) (dial_faults w) /\
    redis w' = redis w.
Proof.
  intros Hlt Hk Hnext.
  pose proof (waitForKafka_connects broker retries delay k w Hlt Hk Hnext) as Hrun.
  eexists. split; [exact Hrun|]. split; [|split; [|split]].
  - eapply events_of_Ok; [exact Hrun|]. reflexivity.
  - reflexivity.
  - simpl. apply tl_drop.
  - reflexivity.
Qed.

Lemma waitForKafka_connects_after_witness :
  (2 < Z.to_nat 10)%nat /\
  exists w',
    waitForKafka "kafka:9092" 10 (5 * GoTime.Second)
      (set_dial_faults [true; true] world0) = Ok None w' /\
    now w' = 10 * GoTime.Second.
Proof.
  split; [vm_compute; lia|].
  destruct (waitForKafka_connects_after "kafka:9092" 10 (5 * GoTime.Second) 2
              (set_dial_faults [true; true] world0))
    as (w' & Hrun & _ & Hnow & _); [vm_compute; lia|reflexivity|reflexivity|].
  exists w'. split; [exact Hrun|exact Hnow].
Defined.

Lemma createKafkaTopic_redial (topic broker : string) (k : nat) (w : World) :
  (k < 10)%nat ->
  take k (dial_faults w) = replicate k true ->
  next_fault (drop k (dial_faults w)) = false ->
  next_fault (tl (drop k (dial_faults w))) = true ->
  createKafkaTopic topic broker w =
    Exit 1 (set_trace
              (trace w ++ failed_attempts broker (5 * GoTime.Second) k ++
               connected broker ++
               [EKafkaDial "tcp" broker;
                ELog "Failed to connect to Kafka broker: %v" [AErr]])
              (set_dial_faults (tl (tl (drop k (dial_faults w))))
                 (after_failures broker (5 * GoTime.Second) k w))).
Proof.
  intros Hlt Hk Hfirst Hsecond.
  unfold createKafkaTopic. unfold mbind at 1. unfold M_bind at 1.
  rewrite (waitForKafka_connects broker 10 _ k w) by (try assumption; simpl; lia).
  unfold mbind at 1. unfold M_bind at 1. unfold kafka_Dial. simpl dial_faults.
  rewrite Hsecond. unfold log_Fatalf. f_equal.
  unfold after_failures. setters. repeat rewrite <- app_assoc. reflexivity.
Qed.

(** X4: a broker that answers the probe of [waitForKafka] but not the dial
    that follows ends the process: [createKafkaTopic] logs and exits with
    code 1 without asking for the topic. *)
Theorem redial_failure_is_fatal (topic broker : string) (k : nat) (w : World) :
  (k < 10)%nat ->
  take k (dial_faults w) = replicate k true ->
  next_fault (drop k (dial_faults w)) = false ->
  next_fault (tl (drop k (dial_faults w))) = true ->
  exists w',
    createKafkaTopic topic broker w = Exit 1 w' /\
    events_of (createKafkaTopic topic broker) w =
      failed_attempts broker (5 * GoTime.Second) k ++ connected broker ++
      [EKafkaDial "tcp" broker; ELog "Failed to connect to Kafka broker: %v" [AErr]] /\
    topic_faults w' = topic_faults w.
Proof.
  intros Hlt Hk Hfirst Hsecond.
  pose proof (createKafkaTopic_redial topic broker k w Hlt Hk Hfirst Hsecond) as Hrun.
  eexists. split; [exact Hrun|]. split; [|reflexivity].
  unfold events_of. rewrite Hrun. simpl. apply drop_app_length.
Qed.

Lemma redial_failure_is_fatal_witness :
  (1 < 10)%nat /\
  events_of (createKafkaTopic "unique-id-count" "kafka:9092")
    (set_dial_faults [true; false; true] world0) =
  failed_attempts "kafka:9092" (5 * GoTime.Second) 1 ++ connected "kafka:9092" ++
  [EKafkaDial "tcp" "kafka:9092"; ELog "Failed to connect to Kafka broker: %v" [AErr]].
Proof.
  split; [lia|].
  destruct (redial_failure_is_fatal "unique-id-count" "kafka:9092" 1
              (set_dial_faults [true; false; true] world0))
    as (w' & _ & Hev & _); [lia|reflexivity|reflexivity|reflexivity|].
  exact Hev.
Defined.

Lemma main_serves (k : nat) (w : World) :
  next_fault (redis_faults w) = false ->
  (k < 10)%nat ->
  take k (dial_faults w) = replicate k true ->
  no_faults 2 (drop k (dial_faults w)) = true ->
  main w =
    Ok tt
      (set_trace
         (trace w ++ ERedisPing ::
          bootstrap_events "unique-id-count" (getenv w "KAFKA_BROKER") k w ++
          serving_events)
         (set_goroutines (goroutines w ++ [GoLogAndNotifyUniqueRequests])
            (set_topic_faults (tl (topic_faults w))
               (set_dial_faults (tl (tl (drop k (dial_faults w))))
                  (after_failures (getenv w "KAFKA_BROKER") (5 * GoTime.Second) k
                     (handles_ready w)))))).
Proof.
  intros Hping Hlt Hk Hnf.
  pose proof (createKafkaTopic_ok "unique-id-count" (getenv w "KAFKA_BROKER") k
                (handles_ready w) Hlt Hk Hnf) as Hboot.
  rewrite (main_bootstraps w Hping). unfold mbind at 1. unfold M_bind at 1.
  unfold getenv in *. rewrite Hboot.
  unfold go, log_Printf, emit, serving_events. run_m.
  f_equal. unfold after_failures, handles_ready, redis_called. setters.
  f_equal. repeat rewrite <- app_assoc. reflexivity.
Qed.

(** When [main] gets as far as serving, Redis answered the ping, the broker
    answered some attempt before the eleventh, and the dial after it. *)
Lemma main_Ok_inv (w w' : World) :
  main w = Ok tt w' ->
  next_fault (redis_faults w) = false /\
  exists k, (k < 10)%nat /\
    take k (dial_faults w) = replicate k true /\
    no_faults 2 (drop k (dial_faults w)) = true.
Proof.
  intros Hmain. destruct (next_fault (redis_faults w)) eqn:Hping.
  { rewrite (main_redis_fatal w Hping) in Hmain. discriminate. }
  split; [reflexivity|].
  rewrite (main_bootstraps w Hping) in Hmain.
  unfold mbind at 1 in Hmain. unfold M_bind at 1 in Hmain.
  destruct (dial_schedule_cases 10 (dial_faults w)) as [Hall|(k & Hlt & Hk & Hnext)].
  { rewrite createKafkaTopic_fatal in Hmain by exact Hall. discriminate. }
  exists k. split; [exact Hlt|]. split; [exact Hk|].
  destruct (next_fault (tl (drop k (dial_faults w)))) eqn:Hsecond.
  { rewrite (createKafkaTopic_redial _ _ k) in Hmain by assumption. discriminate. }
  unfold no_faults, next_fault in *.
  destruct (drop k (dial_faults w)) as [|b [|b' l]]; simpl in *; try reflexivity;
    subst; reflexivity.
Qed.

(** X5: once [main] serves, the handles are built from the environment: the
    writer's address is what [kafka.TCP] makes of the value of
    [KAFKA_BROKER], its topic is the value of [KAFKA_TOPIC], and the Redis
    client is given [REDIS_HOST:REDIS_PORT]; [os.Getenv] gives the empty
    string for an unset variable.  The topic [main] asks the broker to
    create is the fixed ["unique-id-count"], while every later
    [publishToKafka] writes to the topic named by [KAFKA_TOPIC]. *)
Theorem handles_follow_environment (w w' : World) :
  main w = Ok tt w' ->
  kafkaWriter w' =
    mkWriter (kafka_TCP (getenv w "KAFKA_BROKER")) (getenv w "KAFKA_TOPIC")
      kafka_LeastBytes /\
  redisDB w' = getenv w "REDIS_HOST" +:+ ":" +:+ getenv w "REDIS_PORT" /\
  EKafkaCreateTopics "unique-id-count" 1 1 ∈ events_of main w /\
  goroutines w' = goroutines w ++ [GoLogAndNotifyUniqueRequests] /\
  (forall count,
     head (events_of (publishToKafka count) w') =
     Some (EKafkaWrite (getenv w "KAFKA_TOPIC") "unique-id-count"
             (count_message count (rfc3339 w (now w'))))).
Proof.
  intros Hmain.
  destruct (main_Ok_inv w w' Hmain) as (Hping & k & Hlt & Hk & Hnf).
  pose proof (main_serves k w Hping Hlt Hk Hnf) as Hexplicit.
  assert (Hev : events_of main w =
                ERedisPing ::
                bootstrap_events "unique-id-count" (getenv w "KAFKA_BROKER") k w ++
                serving_events).
  { eapply events_of_Ok; [exact Hexplicit|]. reflexivity. }
  rewrite Hexplicit in Hmain. injection Hmain as <-.
  split; [reflexivity|]. split; [reflexivity|]. split; [|split; [reflexivity|]].
  - rewrite Hev. unfold bootstrap_events.
    apply elem_of_cons. right. apply elem_of_app. left.
    apply elem_of_app. right. apply elem_of_app. right.
    apply elem_of_cons. right. apply elem_of_cons. left. reflexivity.
  - intros count. unfold events_of. rewrite publishToKafka_eq. simpl.
    rewrite drop_app_length. reflexivity.
Qed.

Lemma handles_follow_environment_witness :
  main (set_dial_faults [true] world0) =
    Ok tt (world_of (main (set_dial_faults [true] world0))) /\
  kafkaWriter (world_of (main (set_dial_faults [true] world0))) =
    mkWriter (kafka_TCP "kafka:9092") "unique-id-count" kafka_LeastBytes.
Proof.
  assert (Hmain : main (set_dial_faults [true] world0) =
                  Ok tt (world_of (main (set_dial_faults [true] world0))))
    by (vm_compute; reflexivity).
  split; [exact Hmain|].
  destruct (handles_follow_environment _ _ Hmain) as (Hwriter & _).
  exact Hwriter.
Defined.

(** ** The Deduplicator and the store *)

Lemma key_live_later (w : World) (k : string) (t : Z) :
  key_live w k = false -> now w <= t -> key_live (set_now t w) k = false.
Proof.
  unfold key_live. simpl. destruct (redis w !! k) as [e|]; [|reflexivity].
  unfold live. intros Hdead Hle. apply Z.leb_gt in Hdead. apply Z.leb_gt. lia.
Qed.

(** X6: claims of pairwise distinct identifiers that have no live entry all
    return [true] when the store answers, however the calls are spread in
    time: an identifier's entry never stands in the way of another one. *)
Theorem distinct_identifiers_all_claimed (l : list (N * Z)) : forall w : World,
  NoDup l.*2 ->
  (forall id, id ∈ l.*2 -> key_live w (Strconv.Itoa id) = false) ->
  no_faults (length l) (redis_faults w) = true ->
  exists w', claims l w = Ok ((fun c : N * Z => (c.2, true)) <$> l) w'.
Proof.
  induction l as [|[d id] l IH]; intros w Hnd Hdead Hnf.
  - exists w. reflexivity.
  - simpl in Hnd. apply NoDup_cons in Hnd as [Hfresh Hnd].
    apply no_faults_cons in Hnf as [Hok Hnf].
    set (w0 := set_now (now w + Z.of_N d) w).
    assert (Hdead0 : forall id', id' ∈ id :: l.*2 ->
                       key_live w0 (Strconv.Itoa id') = false).
    { intros id' Hin. apply key_live_later; [apply Hdead; exact Hin|lia]. }
    pose proof (isUniqueID_ok id w0 Hok) as Hclaim.
    rewrite (Hdead0 id) in Hclaim by left. simpl in Hclaim.
    match type of Hclaim with _ = Ok true ?x => set (w1 := x) in * end.
    destruct (IH w1 Hnd) as (w2 & Hrest).
    + intros id' Hin. unfold key_live, w1. simpl.
      rewrite lookup_insert_ne.
      * apply (Hdead0 id'). right. exact Hin.
      * intros Heq. apply Itoa_inj in Heq. subst id'. contradiction.
    + exact Hnf.
    + exists w2. simpl claims. unfold mbind, M_bind, elapse. fold w0.
      rewrite Hclaim, Hrest. reflexivity.
Qed.

Lemma distinct_identifiers_all_claimed_witness :
  NoDup [(0%N, 4); (90000000000%N, 9); (0%N, 2)].*2 /\
  exists w',
    claims [(0%N, 4); (90000000000%N, 9); (0%N, 2)] world0 =
      Ok [(4, true); (9, true); (2, true)] w'.
Proof.
  assert (Hnd : NoDup [(0%N, 4); (90000000000%N, 9); (0%N, 2)].*2).
  { simpl. apply NoDup_cons. split.
    { intros Hin. apply elem_of_cons in Hin as [Heq|Hin]; [discriminate Heq|].
      apply list_elem_of_singleton in Hin. discriminate Hin. }
    apply NoDup_cons. split; [|apply NoDup_singleton].
    intros Hin. apply list_elem_of_singleton in Hin. discriminate Hin. }
  split; [exact Hnd|].
  apply (distinct_identifiers_all_claimed
           [(0%N, 4); (90000000000%N, 9); (0%N, 2)] world0 Hnd).
  - intros id _. reflexivity.
  - reflexivity.
Defined.

Lemma acceptHandler_effect (r : Request) (w : World) :
  exists w',
    acceptHandler r w = Ok tt w' /\ now w' = now w /\
    (redis w' = redis w \/
     exists id, Strconv.Atoi (Values_Get (Query r) "id") = inr id /\
       key_live w (Strconv.Itoa id) = false /\
       redis w' =
         <[Strconv.Itoa id := mkEntry true (now w + 1 * GoTime.Minute)]> (redis w)).
Proof.
  destruct (String.eqb_spec (Method r) Http.MethodGet) as [Hm|Hm].
  - destruct (Strconv.Atoi (Values_Get (Query r) "id")) as [e|id] eqn:Hid.
    + eexists. split; [|split; [|left]].
      * apply (proj2 (invalid_request_shape r w) Hm). right. left. eauto.
      * reflexivity.
      * reflexivity.
    + destruct (Z.leb_spec id 0) as [Hle|Hpos].
      * eexists. split; [|split; [|left]].
        -- apply (proj2 (invalid_request_shape r w) Hm). right. right. eauto.
        -- reflexivity.
        -- reflexivity.
      * assert (Hv : valid_request r id) by (repeat split; assumption).
        destruct (isUniqueID_returns id w) as ([|] & w1 & Hclaim).
        -- rewrite (accept_unique r id w w1 Hv Hclaim).
           destruct (isUniqueID_true id w w1 Hclaim) as (_ & Hfresh & ->).
           eexists. split; [reflexivity|].
           destruct (String.eqb (endpoint_of r) EmptyString);
             (split; [reflexivity|right; exists id; repeat split; assumption]).
        -- rewrite (accept_duplicate r id w w1 Hv Hclaim).
           destruct (isUniqueID_false id w w1 Hclaim) as (Hnow & Hredis & _).
           eexists. split; [reflexivity|]. split; [exact Hnow|left; exact Hredis].
  - eexists. split; [|split; [|left]].
    + apply (proj1 (invalid_request_shape r w) Hm).
    + reflexivity.
    + reflexivity.
Qed.

(** A tick returns, leaves the clock alone and adds no entry to the store. *)
Lemma tick_store (w : World) :
  exists w',
    logAndNotifyUniqueRequests_tick w = Ok tt w' /\ now w' = now w /\
    (forall k e, redis w' !! k = Some e -> redis w !! k = Some e).
Proof.
  destruct (next_fault (redis_faults w)) eqn:Hf.
  - rewrite (tick_fault w Hf). eexists. split; [reflexivity|]. split; [reflexivity|].
    intros k e H. exact H.
  - destruct (tick_ok_spec w Hf) as (m & Heq & Hsub & _). rewrite Heq.
    eexists. split; [reflexivity|]. split; [reflexivity|]. exact Hsub.
Qed.

Lemma step_expiry (i : Z) (deadline : Z) (a : Action) (w : World) :
  no_request_for i a = true ->
  expires_by (Strconv.Itoa i) deadline w ->
  exists w',
    step a w = Ok tt w' /\ now w <= now w' /\
    expires_by (Strconv.Itoa i) deadline w'.
Proof.
  intros Hnot Hexp. destruct a as [d|r| |]; simpl in *.
  - eexists. split; [reflexivity|]. simpl. split; [lia|exact Hexp].
  - destruct (acceptHandler_effect r w) as (w' & Hrun & Hnow & Hstore).
    exists w'. split; [exact Hrun|]. split; [lia|].
    destruct Hstore as [Hsame|(id & Hid & _ & Hins)].
    + unfold expires_by. rewrite Hsame. exact Hexp.
    + rewrite Hid in Hnot. apply negb_true_iff, Z.eqb_neq in Hnot.
      unfold expires_by. rewrite Hins, lookup_insert_ne; [exact Hexp|].
      intros Heq. apply Itoa_inj in Heq. contradiction.
  - destruct (tick_store w) as (w' & Hrun & Hnow & Hsub).
    exists w'. split; [exact Hrun|]. split; [lia|].
    intros e He. apply Hexp, Hsub, He.
  - destruct (schedule_store w) as (w' & Hrun & Hnow & Hredis).
    exists w'. split; [exact Hrun|]. split; [lia|].
    unfold expires_by. rewrite Hredis. exact Hexp.
Qed.

Lemma run_expiry (i : Z) (deadline : Z) (acts : list Action) : forall w,
  forallb (no_request_for i) acts = true ->
  expires_by (Strconv.Itoa i) deadline w ->
  exists w',
    run acts w = Ok tt w' /\ now w <= now w' /\
    expires_by (Strconv.Itoa i) deadline w'.
Proof.
  induction acts as [|a acts IH]; intros w Hnot Hexp.
  - exists w. split; [reflexivity|]. split; [lia|exact Hexp].
  - simpl in Hnot. apply andb_true_iff in Hnot as [Ha Hacts].
    destruct (step_expiry i deadline a w Ha Hexp) as (w1 & Hstep & Hmono & Hexp1).
    destruct (IH w1 Hacts Hexp1) as (w2 & Hrun & Hmono2 & Hexp2).
    exists w2. split; [|split; [lia|exact Hexp2]].
    unfold run in *. simpl. unfold mbind, M_bind. rewrite Hstep. exact Hrun.
Qed.

(** X7: the expiry is a safety net: once more than a minute has passed since
    an identifier was claimed, and no request for it came in between, a claim
    of it returns [true] again, drained or not (ticks, other requests and
    notifications may have happened meanwhile). *)
Theorem claim_again_after_expiry (i : Z) (w w1 : World) (acts : list Action) :
  isUniqueID i w = Ok true w1 ->
  forallb (no_request_for i) acts = true ->
  exists w2,
    run acts w1 = Ok tt w2 /\
    (now w + 1 * GoTime.Minute < now w2 ->
     next_fault (redis_faults w2) = false ->
     exists w3, isUniqueID i w2 = Ok true w3).
Proof.
  intros Hfirst Hnot.
  destruct (isUniqueID_true i w w1 Hfirst) as (_ & _ & Hw1).
  assert (Hexp : expires_by (Strconv.Itoa i) (now w + 1 * GoTime.Minute) w1).
  { intros e He. rewrite Hw1 in He. simpl in He.
    rewrite lookup_insert_eq in He. injection He as <-. simpl. lia. }
  destruct (run_expiry i _ acts w1 Hnot Hexp) as (w2 & Hrun & _ & Hexp2).
  exists w2. split; [exact Hrun|]. intros Hlate Hok.
  rewrite (isUniqueID_ok i w2 Hok).
  assert (Hdead : key_live w2 (Strconv.Itoa i) = false).
  { unfold key_live. destruct (redis w2 !! Strconv.Itoa i) as [e|] eqn:He; [|reflexivity].
    apply Z.leb_gt. specialize (Hexp2 e He). lia. }
  rewrite Hdead. eexists. reflexivity.
Qed.

Lemma claim_again_after_expiry_witness :
  isUniqueID 5 world0 = Ok true (world_of (isUniqueID 5 world0)) /\
  exists w2,
    run [Serve (get "6"); Elapse 60000000001; Serve (get "7")]
      (world_of (isUniqueID 5 world0)) = Ok tt w2 /\
    (now world0 + 1 * GoTime.Minute < now w2 ->
     next_fault (redis_faults w2) = false ->
     exists w3, isUniqueID 5 w2 = Ok true w3).
Proof.
  assert (Hfirst : isUniqueID 5 world0 = Ok true (world_of (isUniqueID 5 world0)))
    by (vm_compute; reflexivity).
  split; [exact Hfirst|].
  apply (claim_again_after_expiry 5 world0 _
           [Serve (get "6"); Elapse 60000000001; Serve (get "7")] Hfirst).
  reflexivity.
Defined.

(** ** The Aggregator *)

Lemma all_expired_dead (w : World) (k : string) :
  all_expired w -> key_live w k = false.
Proof.
  intros Hall. unfold key_live. destruct (redis w !! k) as [e|] eqn:He; [|reflexivity].
  apply Z.leb_gt. exact (Hall k e He).
Qed.

Lemma all_expired_enumerated (w : World) : all_expired w -> enumerated w = [].
Proof.
  intros Hall. apply elem_of_nil_inv. intros k Hin.
  apply enumerated_spec in Hin. rewrite (all_expired_dead w k Hall) in Hin.
  discriminate.
Qed.

Lemma store_answers_next (w : World) :
  store_answers w -> next_fault (redis_faults w) = false.
Proof.
  unfold store_answers, next_fault.
  destruct (redis_faults w) as [|[|] l]; simpl; [reflexivity|discriminate|reflexivity].
Qed.

Lemma forallb_negb_drop (n : nat) : forall l : list bool,
  forallb negb l = true -> forallb negb (drop n l) = true.
Proof.
  induction n as [|n IH]; intros [|b l]; simpl; auto.
  intros H. apply andb_true_iff in H as [_ H]. apply IH, H.
Qed.

Lemma drop_tl {A} (n : nat) (l : list A) : drop n (tl l) = drop (S n) l.
Proof. destruct l; simpl; [apply drop_nil|reflexivity]. Qed.

Lemma isUniqueID_faults (id : Z) (b : bool) (w w1 : World) :
  isUniqueID id w = Ok b w1 -> redis_faults w1 = tl (redis_faults w).
Proof.
  destruct (next_fault (redis_faults w)) eqn:Hf.
  - rewrite (isUniqueID_fault id w Hf). intros H. injection H as _ <-. reflexivity.
  - rewrite (isUniqueID_ok id w Hf). intros H. injection H as _ <-. reflexivity.
Qed.

(** The handler uses up no, one or two outcomes of the store. *)
Lemma acceptHandler_faults (r : Request) (w w' : World) :
  acceptHandler r w = Ok tt w' ->
  exists n, redis_faults w' = drop n (redis_faults w).
Proof.
  destruct (String.eqb_spec (Method r) Http.MethodGet) as [Hm|Hm].
  - destruct (Strconv.Atoi (Values_Get (Query r) "id")) as [e|id] eqn:Hid.
    + rewrite (proj2 (invalid_request_shape r w) Hm) by (right; left; eauto).
      intros H. injection H as <-. exists 0%nat. reflexivity.
    + destruct (Z.leb_spec id 0) as [Hle|Hpos].
      * rewrite (proj2 (invalid_request_shape r w) Hm) by (right; right; eauto).
        intros H. injection H as <-. exists 0%nat. reflexivity.
      * assert (Hv : valid_request r id) by (repeat split; assumption).
        destruct (isUniqueID_returns id w) as ([|] & w1 & Hclaim);
          pose proof (isUniqueID_faults id _ w w1 Hclaim) as Hf.
        -- rewrite (accept_unique r id w w1 Hv Hclaim).
           destruct (String.eqb (endpoint_of r) EmptyString);
             intros H; injection H as <-.
           ++ exists 1%nat. simpl. rewrite Hf. destruct (redis_faults w); reflexivity.
           ++ exists 2%nat. simpl. rewrite Hf.
              destruct (redis_faults w) as [|? [|? ?]]; reflexivity.
        -- rewrite (accept_duplicate r id w w1 Hv Hclaim).
           intros H. injection H as <-.
           exists 1%nat. simpl. rewrite Hf. destruct (redis_faults w); reflexivity.
  - rewrite (proj1 (invalid_request_shape r w) Hm).
    intros H. injection H as <-. exists 0%nat. reflexivity.
Qed.

(** What one step of the running system does to the clock, to the outcomes
    of the store still to come and to the store: it adds no entry, except
    that a request may write one that lasts a minute from now. *)
Lemma step_effect (a : Action) (w : World) :
  exists w',
    step a w = Ok tt w' /\ now w <= now w' /\
    (exists n, redis_faults w' = drop n (redis_faults w)) /\
    (forall k e, redis w' !! k = Some e ->
       redis w !! k = Some e \/
       (no_request a = false /\ expireAt e = now w + 1 * GoTime.Minute)).
Proof.
  destruct a as [d|r| |]; simpl step.
  - eexists. split; [reflexivity|]. simpl. split; [lia|]. split; [exists 0%nat; reflexivity|].
    intros k e He. left. exact He.
  - destruct (acceptHandler_effect r w) as (w' & Hrun & Hnow & Hstore).
    exists w'. split; [exact Hrun|]. split; [lia|].
    split; [exact (acceptHandler_faults r w w' Hrun)|].
    intros k e He. destruct Hstore as [Hsame|(id & _ & _ & Hins)].
    + left. rewrite <- Hsame. exact He.
    + rewrite Hins in He. apply lookup_insert_Some in He as [[_ <-]|[_ He]].
      * right. split; reflexivity.
      * left. exact He.
  - destruct (next_fault (redis_faults w)) eqn:Hf.
    + rewrite (tick_fault w Hf). eexists. split; [reflexivity|]. simpl.
      split; [lia|]. split.
      * exists 1%nat. destruct (redis_faults w); reflexivity.
      * intros k e He. left. exact He.
    + destruct (tick_ok_spec w Hf) as (m & Heq & Hsub & _). rewrite Heq.
      eexists. split; [reflexivity|]. simpl. split; [lia|]. split.
      * eexists. apply drop_tl.
      * intros k e He. left. apply Hsub, He.
  - destruct (schedule_store w) as (w' & Hrun & Hnow & Hredis).
    exists w'. split; [exact Hrun|]. split; [lia|]. split.
    + exists 0%nat. revert Hrun. unfold schedule.
      destruct (next_notification (goroutines w)) as [[[ep c] rest]|].
      * rewrite sendCountToEndpoint_eq. intros H. injection H as <-. reflexivity.
      * intros H. injection H as <-. reflexivity.
    + intros k e He. left. rewrite <- Hredis. exact He.
Qed.

Lemma redis_Keys_all_eq (w : World) :
  exists res, redis_Keys_all w = Ok res (redis_called (ERedisKeys "*") w).
Proof.
  unfold redis_Keys_all, redis_command.
  destruct (next_fault (redis_faults w)); eexists; [reflexivity|].
  cbv beta iota zeta. rewrite set_redis_id. reflexivity.
Qed.

(** The same for what another goroutine does in between. *)
Lemma between_effect (b : Between) (w : World) :
  exists w',
    between b w = Ok tt w' /\ now w <= now w' /\
    (exists n, redis_faults w' = drop n (redis_faults w)) /\
    (forall k e, redis w' !! k = Some e ->
       redis w !! k = Some e \/
       (no_claim b = false /\ expireAt e = now w + 1 * GoTime.Minute)).
Proof.
  destruct b as [a|id| |key]; simpl between.
  - apply step_effect.
  - destruct (isUniqueID_returns id w) as (b & w1 & Hclaim).
    pose proof (isUniqueID_faults id b w w1 Hclaim) as Hf.
    unfold mbind, M_bind. rewrite Hclaim. exists w1. split; [reflexivity|].
    destruct b.
    + destruct (isUniqueID_true id w w1 Hclaim) as (_ & _ & Hw1).
      split; [rewrite Hw1; simpl; lia|]. split.
      * exists 1%nat. rewrite Hf. destruct (redis_faults w); reflexivity.
      * intros k e He. rewrite Hw1 in He. simpl in He.
        apply lookup_insert_Some in He as [[_ <-]|[_ He]].
        -- right. split; reflexivity.
        -- left. exact He.
    + destruct (isUniqueID_false id w w1 Hclaim) as (Hnow & Hredis & _).
      split; [lia|]. split.
      * exists 1%nat. rewrite Hf. destruct (redis_faults w); reflexivity.
      * intros k e He. left. rewrite <- Hredis. exact He.
  - destruct (redis_Keys_all_eq w) as (res & Hkeys).
    unfold mbind, M_bind. rewrite Hkeys. eexists. split; [reflexivity|]. simpl.
    split; [lia|]. split.
    + exists 1%nat. destruct (redis_faults w); reflexivity.
    + intros k e He. left. exact He.
  - destruct (redis_Del_eq key w) as (m & Hdel & Hsub & _). rewrite Hdel.
    eexists. split; [reflexivity|]. simpl. split; [lia|]. split.
    + exists 1%nat. destruct (redis_faults w); reflexivity.
    + intros k e He. left. apply Hsub, He.
Qed.

Lemma between_draining (claiming : bool) (t0 : Z) (todo : list string)
    (b : Between) (w : World) :
  (claiming = false -> no_claim b = true) ->
  store_answers w -> t0 <= now w -> draining claiming t0 todo w ->
  exists w',
    between b w = Ok tt w' /\ store_answers w' /\ t0 <= now w' /\
    draining claiming t0 todo w'.
Proof.
  intros Hreq Hcalm Ht Hdr.
  destruct (between_effect b w) as (w' & Hstep & Hmono & (n & Hf) & Hstore).
  exists w'. split; [exact Hstep|]. split; [|split; [lia|]].
  - unfold store_answers. rewrite Hf. apply forallb_negb_drop, Hcalm.
  - intros k e He. destruct (Hstore k e He) as [Hold|[Hserve Hexp]].
    + apply (Hdr k e Hold).
    + right. right. destruct claiming.
      * split; [reflexivity|lia].
      * rewrite (Hreq eq_refl) in Hserve. discriminate.
Qed.

Lemma run_between_draining (claiming : bool) (t0 : Z) (todo : list string)
    (bs : list Between) : forall w : World,
  (claiming = false -> forallb no_claim bs = true) ->
  store_answers w -> t0 <= now w -> draining claiming t0 todo w ->
  exists w',
    run_between bs w = Ok tt w' /\ store_answers w' /\ t0 <= now w' /\
    draining claiming t0 todo w'.
Proof.
  induction bs as [|b bs IH]; intros w Hreq Hcalm Ht Hdr.
  - exists w. split; [reflexivity|]. auto.
  - destruct (between_draining claiming t0 todo b w)
      as (w1 & Hstep & Hcalm1 & Ht1 & Hdr1); [|assumption..|].
    { intros Hno. specialize (Hreq Hno). simpl in Hreq.
      apply andb_true_iff in Hreq as [Hb _]. exact Hb. }
    destruct (IH w1) as (w2 & Hrun & Hrest); [|assumption..|].
    { intros Hno. specialize (Hreq Hno). simpl in Hreq.
      apply andb_true_iff in Hreq as [_ Hbs]. exact Hbs. }
    exists w2. split; [|exact Hrest].
    unfold run_between in *. simpl. unfold mbind, M_bind. rewrite Hstep. exact Hrun.
Qed.

Lemma redis_Del_answers (key : string) (w : World) :
  next_fault (redis_faults w) = false ->
  exists n m,
    redis_Del key w = Ok (Some n) (set_redis m (redis_called (ERedisDel key) w)) /\
    forall k e, m !! k = Some e -> k <> key /\ redis w !! k = Some e.
Proof.
  intros Hok. unfold redis_Del, redis_command. rewrite Hok.
  destruct (redis w !! key) as [e|] eqn:Hk.
  - do 2 eexists. split; [reflexivity|].
    intros k e' H. apply lookup_delete_Some in H as [Hne H].
    split; [congruence|exact H].
  - do 2 eexists. split; [reflexivity|].
    intros k e' H. split; [|exact H]. intros ->. rewrite Hk in H. discriminate.
Qed.

Lemma gaps_head (gaps : list (list Between)) :
  forallb (forallb no_claim) gaps = true ->
  forallb no_claim (hd [] gaps) = true /\
  forallb (forallb no_claim) (tl gaps) = true.
Proof.
  destruct gaps as [|g gaps]; simpl; [auto|].
  intros H. apply andb_true_iff in H. exact H.
Qed.

(** The clean-up loop, with other goroutines at work before each [Del],
    leaves only entries that had expired when the drain began or that were
    claimed since. *)
Lemma delete_keys_amid_draining (claiming : bool) (t0 : Z) (keys : list string) :
  forall (gaps : list (list Between)) (w : World),
  (claiming = false -> forallb (forallb no_claim) gaps = true) ->
  store_answers w -> t0 <= now w -> draining claiming t0 keys w ->
  exists w',
    delete_keys_amid keys gaps w = Ok tt w' /\ store_answers w' /\ t0 <= now w' /\
    draining claiming t0 [] w'.
Proof.
  induction keys as [|key keys IH]; intros gaps w Hreq Hcalm Ht Hdr.
  - exists w. split; [reflexivity|]. auto.
  - destruct (run_between_draining claiming t0 (key :: keys) (hd [] gaps) w)
      as (w1 & Hrun & Hcalm1 & Ht1 & Hdr1); [|assumption..|].
    { intros Hno. apply (gaps_head gaps (Hreq Hno)). }
    destruct (redis_Del_answers key w1 (store_answers_next w1 Hcalm1))
      as (n & m & Hdel & Hm).
    destruct (IH (tl gaps) (set_redis m (redis_called (ERedisDel key) w1)))
      as (w2 & Hrest & Hfinal).
    + intros Hno. apply (gaps_head gaps (Hreq Hno)).
    + unfold store_answers in *. simpl.
      change (tl (redis_faults w1)) with (drop 0 (tl (redis_faults w1))).
      rewrite drop_tl. apply forallb_negb_drop, Hcalm1.
    + exact Ht1.
    + intros k e He. simpl in He. destruct (Hm k e He) as [Hne Hold].
      destruct (Hdr1 k e Hold) as [Hexp|[Hin|Hfresh]]; [left; exact Hexp| |auto].
      right. left. apply elem_of_cons in Hin as [Heq|Hin]; [contradiction|exact Hin].
    + exists w2. split; [|exact Hfinal].
      simpl delete_keys_amid. unfold mbind, M_bind. rewrite Hrun, Hdel. exact Hrest.
Qed.

Lemma tick_amid_draining (claiming : bool) (gaps : list (list Between)) (w : World) :
  (claiming = false -> forallb (forallb no_claim) gaps = true) ->
  store_answers w ->
  exists w',
    tick_amid gaps w = Ok tt w' /\ store_answers w' /\ now w <= now w' /\
    draining claiming (now w) [] w'.
Proof.
  intros Hreq Hcalm. pose proof (store_answers_next w Hcalm) as Hok.
  assert (Hdr0 : draining claiming (now w) (enumerated w)
                   (redis_called (ERedisKeys "*") w)).
  { intros k e He. change (redis w !! k = Some e) in He.
    destruct (live (now w) e) eqn:Hlive.
    - right. left. apply enumerated_spec. unfold key_live. rewrite He. exact Hlive.
    - left. unfold live in Hlive. apply Z.leb_gt in Hlive. exact Hlive. }
  destruct (run_between_draining claiming (now w) (enumerated w) (hd [] gaps)
              (redis_called (ERedisKeys "*") w))
    as (w1 & Hrun & Hcalm1 & Ht1 & Hdr1).
  { intros Hno. apply (gaps_head gaps (Hreq Hno)). }
  { unfold store_answers in *. simpl.
    change (tl (redis_faults w)) with (drop 0 (tl (redis_faults w))).
    rewrite drop_tl. apply forallb_negb_drop, Hcalm. }
  { simpl. lia. }
  { exact Hdr0. }
  pose proof (publishToKafka_eq (Z.of_nat (length (enumerated w))) w1) as Hpub.
  match type of Hpub with _ = Ok tt ?wp =>
    destruct (delete_keys_amid_draining claiming (now w) (enumerated w) (tl gaps) wp)
      as (w2 & Hdel & Hcalm2 & Ht2 & Hdr2) end.
  { intros Hno. apply (gaps_head gaps (Hreq Hno)). }
  { exact Hcalm1. }
  { exact Ht1. }
  { exact Hdr1. }
  exists w2. split; [|split; [exact Hcalm2|split; [exact Ht2|exact Hdr2]]].
  unfold tick_amid, redis_Keys_all, redis_command.
  unfold mbind at 1. unfold M_bind at 1. rewrite Hok. cbv beta iota zeta.
  rewrite set_redis_id. unfold mbind, M_bind. rewrite Hrun, Hpub. exact Hdel.
Qed.

(** With nothing in between, the loop and the tick are the ones of the
    program. *)
Lemma delete_keys_amid_nil (keys : list string) : forall w : World,
  delete_keys_amid keys [] w = delete_keys keys w.
Proof.
  induction keys as [|key keys IH]; intros w; [reflexivity|].
  change (delete_keys_amid (key :: keys) [] w)
    with ((redis_Del key;; delete_keys_amid keys []) w).
  change (delete_keys (key :: keys) w)
    with (((redis_Del key;; mret tt);; delete_keys keys) w).
  unfold mbind, M_bind. destruct (redis_Del key w) as [a w'|c w']; [|reflexivity].
  apply IH.
Qed.

Lemma tick_amid_nil (w : World) :
  tick_amid [] w = logAndNotifyUniqueRequests_tick w.
Proof.
  unfold tick_amid, logAndNotifyUniqueRequests_tick.
  unfold mbind at 1 4. unfold M_bind at 1 4.
  destruct (redis_Keys_all w) as [[keys|] w'|c w']; [|reflexivity..].
  change ((publishToKafka (Z.of_nat (length keys));; delete_keys_amid keys []) w' =
          (publishToKafka (Z.of_nat (length keys));; delete_keys keys) w').
  unfold mbind, M_bind. rewrite publishToKafka_eq. apply delete_keys_amid_nil.
Qed.

(** X8: a tick whose store commands all succeed resets the window, as long
    as nothing is claimed while it runs.  Other goroutines are at work
    between the tick's enumeration, its publish and each of its [Del]s:
    whole requests, notifications and the passing of time, and single store
    commands of handlers under way.  Whatever they do, every entry left in
    the store either had expired when the tick began or was claimed since.
    When they claim nothing, every entry left has expired, and stays so as
    time passes: the next enumeration is empty, a tick that follows with no
    claim in between publishes the count 0, and any identifier can be
    claimed anew. *)
Theorem drain_resets_window (w : World) (gaps : list (list Between)) :
  store_answers w ->
  tick_amid [] w = logAndNotifyUniqueRequests_tick w /\
  exists w',
    tick_amid gaps w = Ok tt w' /\
    (forall k e, redis w' !! k = Some e ->
       expireAt e < now w \/ now w + 1 * GoTime.Minute <= expireAt e) /\
    (forallb (forallb no_claim) gaps = true ->
     all_expired w' /\
     forall d : N,
       let w2 := world_of (elapse d w') in
       enumerated w2 = [] /\
       published_values (events_of logAndNotifyUniqueRequests_tick w2) =
         [count_message 0 (rfc3339 w2 (now w2))] /\
       forall id, exists w3, isUniqueID id w2 = Ok true w3).
Proof.
  intros Hcalm. split; [apply tick_amid_nil|].
  destruct (tick_amid_draining true gaps w) as (w' & Hrun & Hcalm' & Ht' & Hdr');
    [discriminate|exact Hcalm|].
  exists w'. split; [exact Hrun|]. split.
  - intros k e He. destruct (Hdr' k e He) as [Hexp|[Hin|[_ Hfresh]]];
      [left; exact Hexp|inversion Hin|right; exact Hfresh].
  - intros Hnone.
    destruct (tick_amid_draining false gaps w) as (w'' & Hrun2 & _ & _ & Hdr2);
      [intros _; exact Hnone|exact Hcalm|].
    rewrite Hrun in Hrun2. injection Hrun2 as <-.
    assert (Hall : all_expired w').
    { intros k e He. destruct (Hdr2 k e He) as [Hexp|[Hin|[Hno _]]];
        [lia|inversion Hin|discriminate]. }
    split; [exact Hall|]. intros d w2.
    assert (Hall2 : all_expired w2).
    { intros k e He. specialize (Hall k e He). simpl. lia. }
    assert (Hok2 : next_fault (redis_faults w2) = false).
    { apply (store_answers_next w' Hcalm'). }
    split; [apply all_expired_enumerated, Hall2|]. split.
    + rewrite (tick_published_values w2 Hok2), (all_expired_enumerated w2 Hall2).
      reflexivity.
    + intros id. rewrite (isUniqueID_ok id w2 Hok2), (all_expired_dead w2 _ Hall2).
      eexists. reflexivity.
Qed.

Lemma drain_resets_window_witness :
  store_answers world123 /\
  exists w',
    tick_amid [[Whole (Elapse 7)]; [Whole Schedule; OtherKeys]; []; [OtherDel "2"]]
      world123 = Ok tt w' /\
    exists w3, isUniqueID 1 (world_of (elapse 0 w')) = Ok true w3.
Proof.
  split; [reflexivity|].
  destruct (drain_resets_window world123
              [[Whole (Elapse 7)]; [Whole Schedule; OtherKeys]; []; [OtherDel "2"]]
              eq_refl)
    as (_ & w' & Hrun & _ & Hnext).
  exists w'. split; [exact Hrun|].
  destruct (Hnext eq_refl) as (_ & Hclaim).
  destruct (Hclaim 0%N) as (_ & _ & Hany).
  apply (Hany 1).
Defined.

(** The condition is needed: a claim that lands between the tick's
    enumeration and its clean-up loop is neither counted nor deleted, and
    its record is live when the tick has finished. *)
Example drain_misses_late_claim :
  key_live (world_of (tick_amid [[OtherClaim 9]] world123)) "9" = true /\
  published_values (events_of (tick_amid [[OtherClaim 9]]) world123) =
    [count_message 3 "2024-01-01T00:00:00Z"].
Proof. split; vm_compute; reflexivity. Qed.

(** X9: the enumeration is not scoped to claim records: a tick counts every
    live key of the store, whoever wrote it and whatever its name, and
    issues a [Del] for each of them. *)
Theorem tick_takes_every_live_key (w : World) :
  next_fault (redis_faults w) = false ->
  published_values (events_of logAndNotifyUniqueRequests_tick w) =
    [count_message (Z.of_nat (size (live_keys (now w) (redis w)))) (rfc3339 w (now w))] /\
  forall k, key_live w k = true ->
    ERedisDel k ∈ events_of logAndNotifyUniqueRequests_tick w.
Proof.
  intros Hok. split.
  - rewrite (tick_published_values w Hok). unfold enumerated.
    rewrite length_fmap, length_map_to_list. reflexivity.
  - intros k Hlive. destruct (tick_ok_spec w Hok) as (m & Heq & _).
    erewrite events_of_Ok; [|exact Heq|reflexivity].
    do 3 (apply elem_of_cons; right).
    apply list_elem_of_fmap. exists k. split; [reflexivity|].
    apply enumerated_spec, Hlive.
Qed.

Lemma tick_takes_every_live_key_witness :
  next_fault
    (redis_faults (set_redis (<["session:abc" := mkEntry true 100]> ∅) world0)) = false /\
  ERedisDel "session:abc" ∈
    events_of logAndNotifyUniqueRequests_tick
      (set_redis (<["session:abc" := mkEntry true 100]> ∅) world0).
Proof.
  split; [reflexivity|].
  apply (tick_takes_every_live_key
           (set_redis (<["session:abc" := mkEntry true 100]> ∅) world0));
    reflexivity.
Defined.

Lemma redis_Del_explicit (key : string) (w : World) :
  (redis_Del key;; mret tt) w =
    Ok tt (set_redis
             (if next_fault (redis_faults w) then redis w else delete key (redis w))
             (redis_called (ERedisDel key) w)).
Proof.
  unfold redis_Del, redis_command. run_m.
  destruct (next_fault (redis_faults w)).
  - destruct w; reflexivity.
  - destruct (redis w !! key) as [e|] eqn:Hk; [reflexivity|].
    rewrite delete_id by exact Hk. reflexivity.
Qed.

(** The clean-up loop touches the listed keys only, and a key whose [Del]
    fails is left as it was. *)
Lemma delete_keys_faulted (keys : list string) : forall (w : World),
  NoDup keys ->
  exists w',
    delete_keys keys w = Ok tt w' /\ now w' = now w /\
    (forall k, k ∉ keys -> redis w' !! k = redis w !! k) /\
    (forall j k, keys !! j = Some k -> redis_faults w !! j = Some true ->
       redis w' !! k = redis w !! k).
Proof.
  induction keys as [|key keys IH]; intros w Hnd.
  - exists w. split; [reflexivity|]. split; [reflexivity|]. split; [auto|].
    intros j k Hj. rewrite lookup_nil in Hj. discriminate.
  - apply NoDup_cons in Hnd as [Hfresh Hnd].
    pose proof (redis_Del_explicit key w) as Hstep.
    match type of Hstep with _ = Ok tt ?x => set (w1 := x) in * end.
    destruct (IH w1 Hnd) as (w2 & Hrest & Hnow & Hother & Hfault).
    assert (Hne : forall k, k <> key -> redis w1 !! k = redis w !! k).
    { intros k Hk. unfold w1. simpl. destruct (next_fault (redis_faults w)); [reflexivity|].
      apply lookup_delete_ne. congruence. }
    exists w2. split; [|split; [exact Hnow|split]].
    + unfold delete_keys in *. simpl for_range.
      unfold mbind at 1. unfold M_bind at 1. rewrite Hstep. exact Hrest.
    + intros k Hk. apply not_elem_of_cons in Hk as [Hk1 Hk2].
      rewrite (Hother k Hk2). apply Hne, Hk1.
    + intros [|j] k Hj Hf; simpl in Hj.
      * injection Hj as <-. rewrite (Hother key Hfresh). unfold w1. simpl.
        unfold next_fault. destruct (redis_faults w) as [|b rf]; [discriminate|].
        simpl in Hf. injection Hf as ->. reflexivity.
      * assert (Hk : k <> key).
        { intros ->. apply Hfresh. eapply list_elem_of_lookup_2. exact Hj. }
        rewrite (Hfault j k Hj).
        -- apply Hne, Hk.
        -- unfold w1. simpl. destruct (redis_faults w) as [|b rf]; [discriminate|].
           exact Hf.
Qed.

(** X10: the result of [Del] is dropped, so a record whose deletion fails
    survives the drain: it was counted in this tick's message, it is still in
    the store and live afterwards, and the next tick counts it again if it
    comes before the record expires. *)
Theorem failed_delete_survives (w : World) (j : nat) (k : string) :
  next_fault (redis_faults w) = false ->
  enumerated w !! j = Some k ->
  tl (redis_faults w) !! j = Some true ->
  exists w',
    logAndNotifyUniqueRequests_tick w = Ok tt w' /\
    ERedisDel k ∈ events_of logAndNotifyUniqueRequests_tick w /\
    redis w' !! k = redis w !! k /\
    k ∈ enumerated w'.
Proof.
  intros Hok Hj Hf.
  assert (Hin : k ∈ enumerated w) by (eapply list_elem_of_lookup_2; exact Hj).
  destruct (tick_ok_spec w Hok) as (m & Heq & _).
  pose proof Heq as Hrun. rewrite (tick_enumerates w Hok) in Hrun.
  unfold mbind, M_bind in Hrun. rewrite publishToKafka_eq in Hrun.
  match type of Hrun with delete_keys _ ?x = _ =>
    destruct (delete_keys_faulted (enumerated w) x (enumerated_NoDup w))
      as (w' & Hloop & Hnow & _ & Hkeep) end.
  rewrite Hloop in Hrun. injection Hrun as Hw'.
  specialize (Hkeep j k Hj Hf). simpl in Hkeep, Hnow.
  eexists. split; [exact Heq|]. split; [|split].
  - erewrite events_of_Ok; [|exact Heq|reflexivity].
    do 3 (apply elem_of_cons; right).
    apply list_elem_of_fmap. exists k. auto.
  - rewrite <- Hw'. exact Hkeep.
  - apply enumerated_spec. apply enumerated_spec in Hin.
    unfold key_live in *. rewrite <- Hw', Hkeep. simpl in *.
    change (now w') with (now w') in *. rewrite Hnow. exact Hin.
Qed.

Lemma failed_delete_survives_witness :
  next_fault (redis_faults (set_redis_faults [false; false; true] world123)) = false /\
  enumerated (set_redis_faults [false; false; true] world123) !! 1%nat = Some "1" /\
  exists w',
    logAndNotifyUniqueRequests_tick (set_redis_faults [false; false; true] world123)
      = Ok tt w' /\
    enumerated w' = ["1"].
Proof.
  split; [reflexivity|]. split; [vm_compute; reflexivity|].
  destruct (failed_delete_survives (set_redis_faults [false; false; true] world123)
              1 "1") as (w' & Hrun & _); [reflexivity|vm_compute; reflexivity|reflexivity|].
  exists w'. split; [exact Hrun|].
  rewrite (tick_enumerates (set_redis_faults [false; false; true] world123) eq_refl)
    in Hrun.
  vm_compute in Hrun. injection Hrun as <-. vm_compute. reflexivity.
Defined.

Lemma tick_trace (w : World) :
  exists w' evs,
    logAndNotifyUniqueRequests_tick w = Ok tt w' /\
    trace w' = trace w ++ evs /\
    length (published_values evs) = (if next_fault (redis_faults w) then 0 else 1)%nat /\
    (redis_faults w = [] -> redis_faults w' = []).
Proof.
  destruct (next_fault (redis_faults w)) eqn:Hf.
  - rewrite (tick_fault w Hf). do 2 eexists. split; [reflexivity|].
    split; [reflexivity|]. split; [reflexivity|].
    intros Hnil. simpl. rewrite Hnil. reflexivity.
  - destruct (tick_ok_spec w Hf) as (m & Heq & _). rewrite Heq.
    do 2 eexists. split; [reflexivity|]. split; [reflexivity|]. split.
    + unfold publish_log. destruct (next_fault (write_faults w)); simpl;
        rewrite published_values_dels; reflexivity.
    + intros Hnil. simpl. rewrite Hnil. simpl. apply drop_nil.
Qed.

Lemma loop_trace (ticker_C : list Z) : forall w,
  exists w' evs,
    logAndNotifyUniqueRequests ticker_C w = Ok tt w' /\
    trace w' = trace w ++ evs /\
    (length (published_values evs) <= length ticker_C)%nat /\
    (redis_faults w = [] ->
     length (published_values evs) = length ticker_C).
Proof.
  unfold logAndNotifyUniqueRequests.
  induction ticker_C as [|t ticks IH]; intros w.
  - exists w, []. split; [reflexivity|]. rewrite app_nil_r. auto.
  - destruct (tick_trace (set_now (Z.max (now w) t) w))
      as (w1 & evs1 & Htick & Htr1 & Hlen1 & Hnil1).
    destruct (IH w1) as (w2 & evs2 & Hrest & Htr2 & Hlen2 & Hnil2).
    exists w2, (evs1 ++ evs2). split; [|split; [|split]].
    + simpl. unfold mbind, M_bind, ticker_receive. rewrite Htick. exact Hrest.
    + rewrite Htr2, Htr1. simpl. apply eq_sym, app_assoc.
    + unfold published_values in *. rewrite omap_app, length_app. simpl.
      destruct (next_fault (redis_faults (set_now (Z.max (now w) t) w))); lia.
    + intros Hnil. unfold published_values in *. rewrite omap_app, length_app.
      simpl in Hlen1, Hnil1. rewrite Hnil in Hlen1. simpl in Hlen1.
      rewrite Hlen1, (Hnil2 (Hnil1 Hnil)). reflexivity.
Qed.

(** X11: the loop publishes at most one message per tick: over any ticks it
    never exits and calls [WriteMessages] at most once for each of them, and
    exactly once for each when the store answers every command. *)
Theorem one_message_per_tick (ticker_C : list Z) (w : World) :
  (exists w', logAndNotifyUniqueRequests ticker_C w = Ok tt w') /\
  (length (published_values (events_of (logAndNotifyUniqueRequests ticker_C) w))
   <= length ticker_C)%nat /\
  (redis_faults w = [] ->
   length (published_values (events_of (logAndNotifyUniqueRequests ticker_C) w))
   = length ticker_C).
Proof.
  destruct (loop_trace ticker_C w) as (w' & evs & Hrun & Htr & Hle & Heq).
  rewrite (events_of_Ok _ w w' tt evs Hrun Htr).
  split; [eexists; exact Hrun|]. split; [exact Hle|exact Heq].
Qed.

Lemma one_message_per_tick_witness :
  redis_faults world123 = [] /\
  length (published_values
            (events_of (logAndNotifyUniqueRequests [60; 120; 180]) world123)) = 3%nat.
Proof.
  split; [reflexivity|].
  apply (one_message_per_tick [60; 120; 180] world123). reflexivity.
Defined.

(** ** The handler *)

Lemma isUniqueID_trace (id : Z) (w : World) :
  exists b w1 evs,
    isUniqueID id w = Ok b w1 /\
    trace w1 = trace w ++ evs /\
    filter (fun e => is_response e = true) evs = [] /\
    length (filter (fun e => is_redis e = true) evs) = 1%nat /\
    goroutines w1 = goroutines w.
Proof.
  destruct (next_fault (redis_faults w)) eqn:Hf.
  - rewrite (isUniqueID_fault id w Hf). do 3 eexists. split; [reflexivity|].
    split; [reflexivity|]. repeat split.
  - rewrite (isUniqueID_ok id w Hf). do 3 eexists. split; [reflexivity|].
    split; [reflexivity|]. repeat split.
Qed.

Lemma filter_response_app (evs1 evs2 : list Event) :
  filter (fun e => is_response e = true) (evs1 ++ evs2) =
  filter (fun e => is_response e = true) evs1 ++
  filter (fun e => is_response e = true) evs2.
Proof. apply filter_app. Qed.

(** X12: every request is answered exactly once: whatever the request and
    the state of the store, the handler returns, having written one status
    (200, 400 or 405) and one body, and having started at most one
    goroutine, a notification to the request's own endpoint. *)
Theorem request_answered_once (r : Request) (w : World) :
  exists w' status body,
    acceptHandler r w = Ok tt w' /\
    filter (fun e => is_response e = true) (events_of (acceptHandler r) w) =
      [EWriteHeader status; EWrite body] /\
    (status = Http.StatusOK \/ status = Http.StatusBadRequest \/
     status = Http.StatusMethodNotAllowed) /\
    (goroutines w' = goroutines w \/
     exists count,
       goroutines w' = goroutines w ++ [GoSendCountToEndpoint (endpoint_of r) count]).
Proof.
  destruct (String.eqb_spec (Method r) Http.MethodGet) as [Hm|Hm].
  - destruct (Strconv.Atoi (Values_Get (Query r) "id")) as [e|id] eqn:Hid.
    + assert (Hrej : rejected Http.StatusBadRequest "Invalid or missing 'id' parameter" r w).
      { apply (proj2 (invalid_request_shape r w) Hm). right. left. eauto. }
      do 3 eexists. split; [exact Hrej|]. split; [|split; [right; left; reflexivity|left; reflexivity]].
      erewrite events_of_Ok; [|exact Hrej|reflexivity]. reflexivity.
    + destruct (Z.leb_spec id 0) as [Hle|Hpos].
      * assert (Hrej : rejected Http.StatusBadRequest
                         "Invalid or missing 'id' parameter" r w).
        { apply (proj2 (invalid_request_shape r w) Hm). right. right. eauto. }
        do 3 eexists. split; [exact Hrej|].
        split; [|split; [right; left; reflexivity|left; reflexivity]].
        erewrite events_of_Ok; [|exact Hrej|reflexivity]. reflexivity.
      * assert (Hv : valid_request r id) by (repeat split; assumption).
        destruct (isUniqueID_trace id w) as (b & w1 & evs & Hclaim & Htr & Hresp & _ & Hgo).
        destruct b.
        -- pose proof (accept_unique r id w w1 Hv Hclaim) as Hrun.
           destruct (String.eqb (endpoint_of r) EmptyString).
           ++ do 3 eexists. split; [exact Hrun|].
              split; [|split; [left; reflexivity|left; exact Hgo]].
              erewrite events_of_Ok; [|exact Hrun|].
              2:{ simpl. rewrite Htr, <- app_assoc. reflexivity. }
              rewrite filter_response_app, Hresp. reflexivity.
           ++ do 3 eexists. split; [exact Hrun|].
              split; [|split; [left; reflexivity|right]].
              ** erewrite events_of_Ok; [|exact Hrun|].
                 2:{ simpl. rewrite Htr. repeat rewrite <- app_assoc. reflexivity. }
                 rewrite filter_response_app, Hresp. reflexivity.
              ** eexists. simpl. rewrite Hgo. reflexivity.
        -- pose proof (accept_duplicate r id w w1 Hv Hclaim) as Hrun.
           do 3 eexists. split; [exact Hrun|].
           split; [|split; [left; reflexivity|left; exact Hgo]].
           erewrite events_of_Ok; [|exact Hrun|].
           2:{ simpl. rewrite Htr, <- app_assoc. reflexivity. }
           rewrite filter_response_app, Hresp. reflexivity.
  - assert (Hrej : rejected Http.StatusMethodNotAllowed "Only GET method is supported" r w).
    { apply (proj1 (invalid_request_shape r w) Hm). }
    do 3 eexists. split; [exact Hrej|].
    split; [|split; [right; right; reflexivity|left; reflexivity]].
    erewrite events_of_Ok; [|exact Hrej|reflexivity]. reflexivity.
Qed.

(** X13: during a store outage a valid request is answered 200 with the
    duplicate message: the failed claim is logged, the store is not changed,
    and no notification is started even when the request names an
    endpoint. *)
Theorem outage_answers_duplicate (r : Request) (id : Z) (w : World) :
  valid_request r id ->
  next_fault (redis_faults w) = true ->
  exists w',
    acceptHandler r w = Ok tt w' /\
    events_of (acceptHandler r) w =
      [ERedisSetNX (Strconv.Itoa id) true (1 * GoTime.Minute);
       ELog ("Error checking ID in Redis: %v" +:+ newline) [AErr];
       EWriteHeader Http.StatusOK; EWrite duplicate_body] /\
    redis w' = redis w /\
    goroutines w' = goroutines w.
Proof.
  intros Hv Hfault.
  pose proof (accept_duplicate r id w _ Hv (isUniqueID_fault id w Hfault)) as Hrun.
  eexists. split; [exact Hrun|]. split; [|split; reflexivity].
  eapply events_of_Ok; [exact Hrun|]. simpl. rewrite <- app_assoc. reflexivity.
Qed.

Lemma outage_answers_duplicate_witness :
  valid_request (get_notify "8" "http://cb") 8 /\
  next_fault (redis_faults (set_redis_faults [true] world0)) = true /\
  events_of (acceptHandler (get_notify "8" "http://cb")) (set_redis_faults [true] world0) =
    [ERedisSetNX (Strconv.Itoa 8) true (1 * GoTime.Minute);
     ELog ("Error checking ID in Redis: %v" +:+ newline) [AErr];
     EWriteHeader Http.StatusOK; EWrite duplicate_body].
Proof.
  assert (Hv : valid_request (get_notify "8" "http://cb") 8).
  { unfold valid_request. split; [reflexivity|]. split; [reflexivity|lia]. }
  split; [exact Hv|]. split; [reflexivity|].
  destruct (outage_answers_duplicate (get_notify "8" "http://cb") 8
              (set_redis_faults [true] world0) Hv eq_refl) as (w' & _ & Hev & _).
  exact Hev.
Defined.

Lemma held_responded (key : string) (deadline : Z) (body : string) (w : World) :
  held key deadline w -> held key deadline (responded body w).
Proof. intros H. exact H. Qed.

(** What deletes nothing returns, does not turn the clock back, and leaves a
    held entry in place while its deadline has not passed. *)
Lemma between_holds (b : Between) (w : World) :
  no_delete b = true ->
  exists w',
    between b w = Ok tt w' /\ now w <= now w' /\
    (forall key deadline,
       held key deadline w -> now w <= deadline -> held key deadline w').
Proof.
  intros Hnot. destruct b as [a|id| |key]; simpl in *; [| | |discriminate].
  - apply step_holds. apply negb_true_iff, Hnot.
  - destruct (isUniqueID_returns id w) as (b & w1 & Hclaim).
    unfold mbind, M_bind. rewrite Hclaim. exists w1. split; [reflexivity|].
    destruct b.
    + destruct (isUniqueID_true id w w1 Hclaim) as (_ & Hfresh & Hw1).
      split; [rewrite Hw1; simpl; lia|]. intros key dl Hheld Hdl.
      destruct (decide (Strconv.Itoa id = key)) as [Heq|Hne].
      * subst key. rewrite (held_live _ _ _ Hheld Hdl) in Hfresh. discriminate.
      * unfold held. rewrite Hw1. simpl. rewrite lookup_insert_ne by exact Hne.
        exact Hheld.
    + destruct (isUniqueID_false id w w1 Hclaim) as (Hnow & Hredis & _).
      split; [lia|]. intros key dl Hheld _. unfold held. rewrite Hredis. exact Hheld.
  - destruct (redis_Keys_all_eq w) as (res & Hkeys).
    unfold mbind, M_bind. rewrite Hkeys. eexists. split; [reflexivity|]. simpl.
    split; [lia|]. intros key dl Hheld _. exact Hheld.
Qed.

Lemma run_between_holds (key : string) (deadline : Z) (bs : list Between) : forall w,
  forallb no_delete bs = true ->
  (now w <= deadline -> held key deadline w) ->
  exists w',
    run_between bs w = Ok tt w' /\ now w <= now w' /\
    (now w' <= deadline -> held key deadline w').
Proof.
  induction bs as [|b bs IH]; intros w Hnot Hheld.
  - exists w. split; [reflexivity|]. split; [lia|exact Hheld].
  - simpl in Hnot. apply andb_true_iff in Hnot as [Hb Hbs].
    destruct (between_holds b w Hb) as (w1 & Hstep & Hmono & Hkeep).
    destruct (IH w1 Hbs) as (w2 & Hrun & Hmono2 & Hkeep2).
    { intros Hdl. apply Hkeep; [apply Hheld|]; lia. }
    exists w2. split; [|split; [lia|exact Hkeep2]].
    unfold run_between in *. simpl. unfold mbind, M_bind. rewrite Hstep. exact Hrun.
Qed.

(** X14: the count sent to the endpoint includes the request's own
    identifier as long as no drain comes in between.  The handler claims
    with [SetNX], answers, and only then enumerates; other goroutines are at
    work before and after the answer.  When what they do contains no tick
    and no [Del], the minute of the claim has not passed and the enumeration
    succeeds, the key just written is among the enumerated ones and the
    count handed to the notification is at least 1.  With nothing in between
    this is the count of [acceptHandler] itself. *)
Theorem notified_count_includes_own
    (r : Request) (id : Z) (w w1 : World) (before after : list Between) :
  valid_request r id ->
  endpoint_of r <> EmptyString ->
  isUniqueID id w = Ok true w1 ->
  forallb no_delete (before ++ after) = true ->
  acceptHandler r w = notify_phase (endpoint_of r) (responded "ok" w1) /\
  exists w2 w3,
    run_between before w1 = Ok tt w2 /\
    run_between after (responded "ok" w2) = Ok tt w3 /\
    (now w3 <= now w + 1 * GoTime.Minute ->
     next_fault (redis_faults w3) = false ->
     exists w',
       notify_phase (endpoint_of r) w3 = Ok tt w' /\
       goroutines w' =
         goroutines w3 ++
         [GoSendCountToEndpoint (endpoint_of r) (Z.of_nat (length (enumerated w3)))] /\
       Strconv.Itoa id ∈ enumerated w3 /\
       1 <= Z.of_nat (length (enumerated w3))).
Proof.
  intros Hv Hep Huniq Hnot.
  split; [exact (accept_notify r id w w1 Hv Hep Huniq)|].
  rewrite forallb_app in Hnot. apply andb_true_iff in Hnot as [Hbefore Hafter].
  destruct (first_claim_held id w w1 Huniq) as (Hheld & Hnow).
  destruct (run_between_holds (Strconv.Itoa id) (now w + 1 * GoTime.Minute)
              before w1 Hbefore)
    as (w2 & Hrun2 & Hmono2 & Hheld2); [intros _; exact Hheld|].
  destruct (run_between_holds (Strconv.Itoa id) (now w + 1 * GoTime.Minute) after
              (responded "ok" w2) Hafter)
    as (w3 & Hrun3 & Hmono3 & Hheld3).
  { intros Hdl. apply held_responded, Hheld2, Hdl. }
  exists w2, w3. split; [exact Hrun2|]. split; [exact Hrun3|].
  intros Hdl Hok.
  assert (Hin : Strconv.Itoa id ∈ enumerated w3).
  { apply enumerated_spec. apply (held_live _ _ _ (Hheld3 Hdl) Hdl). }
  eexists. split; [apply notify_phase_eq|]. split; [|split; [exact Hin|]].
  - unfold notification_queued, fresh_count. simpl. rewrite Hok. reflexivity.
  - destruct (enumerated w3) as [|k ks]; [inversion Hin|]. simpl length. lia.
Qed.

Lemma notified_count_includes_own_witness :
  valid_request (get_notify "7" "http://cb") 7 /\
  endpoint_of (get_notify "7" "http://cb") <> EmptyString /\
  exists w2 w3,
    run_between [Whole (Serve (get "8")); OtherKeys]
      (world_of (isUniqueID 7 world123)) = Ok tt w2 /\
    run_between [Whole (Elapse 5); OtherClaim 9; Whole Schedule]
      (responded "ok" w2) = Ok tt w3 /\
    (now w3 <= now world123 + 1 * GoTime.Minute ->
     next_fault (redis_faults w3) = false ->
     exists w',
       notify_phase "http://cb" w3 = Ok tt w' /\
       goroutines w' =
         goroutines w3 ++
         [GoSendCountToEndpoint "http://cb" (Z.of_nat (length (enumerated w3)))] /\
       Strconv.Itoa 7 ∈ enumerated w3 /\
       1 <= Z.of_nat (length (enumerated w3))).
Proof.
  assert (Hv : valid_request (get_notify "7" "http://cb") 7).
  { unfold valid_request. split; [reflexivity|]. split; [reflexivity|lia]. }
  assert (Hep : endpoint_of (get_notify "7" "http://cb") <> EmptyString)
    by discriminate.
  split; [exact Hv|]. split; [exact Hep|].
  apply (notified_count_includes_own (get_notify "7" "http://cb") 7 world123
           (world_of (isUniqueID 7 world123))
           [Whole (Serve (get "8")); OtherKeys]
           [Whole (Elapse 5); OtherClaim 9; Whole Schedule]
           Hv Hep); [vm_compute; reflexivity|reflexivity].
Defined.

(** The condition is needed.  A tick enumerates while an earlier record of
    identifier 7 is live; the record expires, a request claims 7 anew, and
    the tick's [Del] for that key comes before the handler's enumeration: the
    count leaves the request's own identifier out.  A whole tick in between
    does the same. *)
Example notified_count_after_delete :
  isUniqueID 7 (world_of (elapse 60000000001 (world_of (isUniqueID 7 world0)))) =
    Ok true (world_of
               (isUniqueID 7 (world_of (elapse 60000000001 (world_of (isUniqueID 7 world0)))))) /\
  goroutines
    (world_of ((run_between [OtherDel "7"];; notify_phase "http://cb")
                 (responded "ok"
                    (world_of
                       (isUniqueID 7
                          (world_of (elapse 60000000001
                                       (world_of (isUniqueID 7 world0))))))))) =
  [GoSendCountToEndpoint "http://cb" 0] /\
  goroutines
    (world_of ((run_between [Whole Tick];; notify_phase "http://cb")
                 (responded "ok" (world_of (isUniqueID 7 world123))))) =
  [GoSendCountToEndpoint "http://cb" 0].
Proof. repeat split; vm_compute; reflexivity. Qed.

(** X15: a valid request without an endpoint costs one store command: the
    handler claims the identifier and answers, [ok] or the duplicate
    message; it does not enumerate the store and starts no goroutine. *)
Theorem no_endpoint_no_enumeration (r : Request) (id : Z) (w : World) :
  valid_request r id ->
  endpoint_of r = EmptyString ->
  exists b w1,
    isUniqueID id w = Ok b w1 /\
    acceptHandler r w =
      Ok tt (responded (if b then "ok" else duplicate_body) w1) /\
    length (filter (fun e => is_redis e = true) (events_of (acceptHandler r) w)) = 1%nat /\
    goroutines (responded (if b then "ok" else duplicate_body) w1) = goroutines w.
Proof.
  intros Hv Hep.
  destruct (isUniqueID_trace id w) as (b & w1 & evs & Hclaim & Htr & _ & Hredis & Hgo).
  exists b, w1. split; [exact Hclaim|].
  assert (Hrun : acceptHandler r w =
                 Ok tt (responded (if b then "ok" else duplicate_body) w1)).
  { destruct b.
    - rewrite (accept_unique r id w w1 Hv Hclaim), Hep. reflexivity.
    - apply (accept_duplicate r id w w1 Hv Hclaim). }
  split; [exact Hrun|]. split; [|exact Hgo].
  erewrite events_of_Ok; [|exact Hrun|].
  2:{ simpl. rewrite Htr, <- app_assoc. reflexivity. }
  rewrite filter_app, length_app, Hredis. reflexivity.
Qed.

Lemma no_endpoint_no_enumeration_witness :
  valid_request (get "5") 5 /\
  endpoint_of (get "5") = EmptyString /\
  exists b w1,
    isUniqueID 5 world123 = Ok b w1 /\
    acceptHandler (get "5") world123 =
      Ok tt (responded (if b then "ok" else duplicate_body) w1).
Proof.
  assert (Hv : valid_request (get "5") 5).
  { unfold valid_request. split; [reflexivity|]. split; [reflexivity|lia]. }
  split; [exact Hv|]. split; [reflexivity|].
  destruct (no_endpoint_no_enumeration (get "5") 5 world123 Hv eq_refl)
    as (b & w1 & Hclaim & Hrun & _).
  exists b, w1. split; [exact Hclaim|exact Hrun].
Defined.

(** ** The in-memory variant *)

Lemma Range_count_size (m : gmap Z bool) :
  Baseline.Range_count m = Z.of_nat (size m).
Proof.
  unfold Baseline.Range_count.
  apply (map_fold_weak_ind (fun (count : Z) (m : gmap Z bool) => count = Z.of_nat (size m))).
  - rewrite map_size_empty. reflexivity.
  - intros i x m' r Hnone ->. rewrite map_size_insert_None by exact Hnone. lia.
Qed.

Lemma accepted_id_valid (r : Request) (id : Z) :
  accepted_id r = Some id <-> valid_request r id.
Proof.
  unfold accepted_id, valid_request. split.
  - destruct (String.eqb_spec (Method r) Http.MethodGet) as [Hm|]; [|discriminate].
    destruct (Strconv.Atoi (Values_Get (Query r) "id")) as [e|n]; [discriminate|].
    destruct (Z.leb_spec n 0) as [|Hpos]; [discriminate|].
    intros Hsome. injection Hsome as <-. auto.
  - intros (Hm & Hid & Hpos). rewrite Hm, Hid. simpl.
    destruct (Z.leb_spec id 0); [lia|reflexivity].
Qed.

Lemma baseline_accept (r : Request) (id : Z) (s : Baseline.State) :
  accepted_id r = Some id ->
  Baseline.acceptHandler r s =
    let s2 := Baseline.emit (EWrite "ok")
                (Baseline.emit (EWriteHeader Http.StatusOK)
                   (Baseline.set_uniqueRequests
                      (<[id := true]> (Baseline.uniqueRequests s)) s)) in
    if String.eqb (endpoint_of r) EmptyString then s2
    else Baseline.go
           (GoSendCountToEndpoint (endpoint_of r)
              (Baseline.Range_count (Baseline.uniqueRequests s2))) s2.
Proof.
  intros Hacc. apply accepted_id_valid in Hacc as (Hm & Hid & Hpos).
  unfold Baseline.acceptHandler, endpoint_of. rewrite Hm, Hid. simpl.
  destruct (Z.leb_spec id 0); [lia|].
  destruct (Values_Get (Query r) "endpoint" =? EmptyString)%string; reflexivity.
Qed.

Lemma baseline_reject (r : Request) (s : Baseline.State) :
  accepted_id r = None ->
  exists status msg,
    Baseline.acceptHandler r s = Baseline.http_Error msg status s /\
    ((status = Http.StatusMethodNotAllowed /\ msg = "Only GET method is supported") \/
     (status = Http.StatusBadRequest /\ msg = "Invalid or missing 'id' parameter")).
Proof.
  unfold accepted_id, Baseline.acceptHandler.
  destruct (String.eqb (Method r) Http.MethodGet); simpl.
  - destruct (Strconv.Atoi (Values_Get (Query r) "id")) as [e|n].
    + intros _. do 2 eexists. split; [reflexivity|right; auto].
    + destruct (n <=? 0); [|discriminate].
      intros _. do 2 eexists. split; [reflexivity|right; auto].
  - intros _. do 2 eexists. split; [reflexivity|left; auto].
Qed.

Lemma baseline_accept_fields (r : Request) (id : Z) (s : Baseline.State) :
  accepted_id r = Some id ->
  Baseline.uniqueRequests (Baseline.acceptHandler r s) =
    <[id := true]> (Baseline.uniqueRequests s) /\
  Baseline.effects (Baseline.acceptHandler r s) =
    Baseline.effects s ++ [EWriteHeader Http.StatusOK; EWrite "ok"] /\
  Baseline.request_log (Baseline.acceptHandler r s) = Baseline.request_log s.
Proof.
  intros Hacc. rewrite (baseline_accept r id s Hacc). cbv zeta.
  destruct (String.eqb (endpoint_of r) EmptyString); simpl;
    (split; [reflexivity|]; split; [rewrite <- app_assoc; reflexivity|reflexivity]).
Qed.

(** X16: the in-memory variant answers every valid request with 200 and
    [ok], a repeated identifier included, and keeps each identifier once: the
    map holds the identifier afterwards, and a request for an identifier
    that is already there leaves the map, and so the count, as it was. *)
Theorem baseline_records_identifier (r : Request) (id : Z) (s : Baseline.State) :
  accepted_id r = Some id ->
  let s' := Baseline.acceptHandler r s in
  Baseline.uniqueRequests s' !! id = Some true /\
  Baseline.effects s' =
    Baseline.effects s ++ [EWriteHeader Http.StatusOK; EWrite "ok"] /\
  (Baseline.uniqueRequests s !! id = Some true ->
   Baseline.uniqueRequests s' = Baseline.uniqueRequests s /\
   Baseline.Range_count (Baseline.uniqueRequests s') =
     Baseline.Range_count (Baseline.uniqueRequests s)) /\
  (Baseline.uniqueRequests s !! id = None ->
   Baseline.Range_count (Baseline.uniqueRequests s') =
     Baseline.Range_count (Baseline.uniqueRequests s) + 1).
Proof.
  intros Hacc s'. subst s'.
  destruct (baseline_accept_fields r id s Hacc) as (Hmap & Heff & _).
  rewrite Hmap. split; [apply lookup_insert_eq|]. split; [exact Heff|]. split.
  - intros Hin. rewrite (insert_id _ _ _ Hin). auto.
  - intros Hnone. rewrite !Range_count_size, map_size_insert_None by exact Hnone. lia.
Qed.

Lemma baseline_records_identifier_witness :
  accepted_id (get "5") = Some 5 /\
  Baseline.uniqueRequests
    (Baseline.acceptHandler (get "5") (Baseline.acceptHandler (get "5") Baseline.state0)) =
  Baseline.uniqueRequests (Baseline.acceptHandler (get "5") Baseline.state0).
Proof.
  split; [reflexivity|].
  apply (baseline_records_identifier (get "5") 5
           (Baseline.acceptHandler (get "5") Baseline.state0) eq_refl).
  vm_compute. reflexivity.
Defined.

Lemma serve_all_dom (rs : list Request) : forall s : Baseline.State,
  dom (Baseline.uniqueRequests (Baseline.serve_all rs s)) =
  dom (Baseline.uniqueRequests s) ∪ list_to_set (omap accepted_id rs).
Proof.
  unfold Baseline.serve_all.
  induction rs as [|r rs IH]; intros s; simpl.
  - rewrite (right_id_L ∅ (∪)). reflexivity.
  - rewrite IH. destruct (accepted_id r) as [id|] eqn:Hacc.
    + destruct (baseline_accept_fields r id s Hacc) as (-> & _).
      rewrite dom_insert_L. simpl. apply set_eq. intros x.
      rewrite !elem_of_union, elem_of_singleton. tauto.
    + destruct (baseline_reject r s Hacc) as (status & msg & -> & _). simpl.
      reflexivity.
Qed.

Lemma serve_all_log (rs : list Request) : forall s : Baseline.State,
  Baseline.request_log (Baseline.serve_all rs s) = Baseline.request_log s.
Proof.
  unfold Baseline.serve_all.
  induction rs as [|r rs IH]; intros s; simpl; [reflexivity|].
  rewrite IH. destruct (accepted_id r) as [id|] eqn:Hacc.
  - apply (baseline_accept_fields r id s Hacc).
  - destruct (baseline_reject r s Hacc) as (status & msg & -> & _). reflexivity.
Qed.

(** X17: in the in-memory variant a tick logs the number of distinct
    identifiers accepted since the map was last empty, whatever requests
    came in and in whatever order, and resets the map: a tick right after
    logs 0. *)
Theorem baseline_tick_counts_distinct (rs : list Request) (s : Baseline.State) :
  Baseline.uniqueRequests s = ∅ ->
  let s1 := Baseline.logAndNotifyUniqueRequests_tick (Baseline.serve_all rs s) in
  Baseline.request_log s1 =
    Baseline.request_log s ++
    [("Unique requests in the last minute: %d" +:+ newline,
      [AInt (Z.of_nat (size (list_to_set (omap accepted_id rs) : gset Z)))])] /\
  Baseline.uniqueRequests s1 = ∅ /\
  Baseline.request_log (Baseline.logAndNotifyUniqueRequests_tick s1) =
    Baseline.request_log s1 ++
    [("Unique requests in the last minute: %d" +:+ newline, [AInt 0])].
Proof.
  intros Hempty s1. subst s1. unfold Baseline.logAndNotifyUniqueRequests_tick. simpl.
  split; [|split; reflexivity].
  rewrite serve_all_log, Range_count_size, <- size_dom, serve_all_dom, Hempty.
  rewrite dom_empty_L, (left_id_L ∅ (∪)). reflexivity.
Qed.

Lemma baseline_tick_counts_distinct_witness :
  Baseline.uniqueRequests Baseline.state0 = ∅ /\
  Baseline.request_log
    (Baseline.logAndNotifyUniqueRequests_tick
       (Baseline.serve_all [get "5"; get "abc"; get "7"; get "5"] Baseline.state0)) =
  [("Unique requests in the last minute: %d" +:+ newline, [AInt 2])].
Proof.
  split; [reflexivity|].
  destruct (baseline_tick_counts_distinct [get "5"; get "abc"; get "7"; get "5"]
              Baseline.state0 eq_refl) as (Hlog & _).
  rewrite Hlog. vm_compute. reflexivity.
Defined.

Lemma baseline_answer (r : Request) (id : Z) (s : Baseline.State) :
  accepted_id r = Some id ->
  Baseline.answer r s =
    Baseline.emit (EWrite "ok")
      (Baseline.emit (EWriteHeader Http.StatusOK)
         (Baseline.set_uniqueRequests (<[id := true]> (Baseline.uniqueRequests s)) s)).
Proof.
  intros Hacc. apply accepted_id_valid in Hacc as (Hm & Hid & Hpos).
  unfold Baseline.answer. rewrite Hm, Hid. simpl.
  destruct (Z.leb_spec id 0); [lia|reflexivity].
Qed.

(** The handler is its two parts, one after the other. *)
Lemma baseline_two_parts (r : Request) (id : Z) (s : Baseline.State) :
  accepted_id r = Some id ->
  endpoint_of r <> EmptyString ->
  Baseline.acceptHandler r s =
    Baseline.count_and_notify (endpoint_of r) (Baseline.answer r s).
Proof.
  intros Hacc Hep. rewrite (baseline_accept r id s Hacc), (baseline_answer r id s Hacc).
  cbv zeta. destruct (String.eqb_spec (endpoint_of r) EmptyString); [contradiction|].
  reflexivity.
Qed.

(** Only the ticker's block takes identifiers out of the map. *)
Lemma block_keeps (b : Baseline.Block) (id : Z) (s : Baseline.State) :
  Baseline.is_ticked b = false ->
  Baseline.uniqueRequests s !! id = Some true ->
  Baseline.uniqueRequests (Baseline.block b s) !! id = Some true.
Proof.
  intros Hb Hin. destruct b as [r'|ep|]; simpl in *; [| exact Hin | discriminate].
  destruct (accepted_id r') as [id'|] eqn:Hacc.
  - rewrite (baseline_answer r' id' s Hacc). simpl.
    destruct (decide (id' = id)) as [->|Hne].
    + apply lookup_insert_eq.
    + rewrite lookup_insert_ne by exact Hne. exact Hin.
  - unfold accepted_id in Hacc. unfold Baseline.answer.
    destruct (String.eqb (Method r') Http.MethodGet); simpl; [|exact Hin].
    destruct (Strconv.Atoi (Values_Get (Query r') "id")) as [e|n]; [exact Hin|].
    destruct (n <=? 0); [exact Hin|discriminate].
Qed.

Lemma blocks_keep (bs : list Baseline.Block) (id : Z) : forall s : Baseline.State,
  forallb (fun b => negb (Baseline.is_ticked b)) bs = true ->
  Baseline.uniqueRequests s !! id = Some true ->
  Baseline.uniqueRequests (Baseline.blocks bs s) !! id = Some true.
Proof.
  unfold Baseline.blocks.
  induction bs as [|b bs IH]; intros s Hnot Hin; simpl; [exact Hin|].
  simpl in Hnot. apply andb_true_iff in Hnot as [Hb Hbs].
  apply negb_true_iff in Hb.
  apply IH; [exact Hbs|]. apply block_keeps; assumption.
Qed.

(** X18: in the in-memory variant every valid request that names an endpoint
    starts a notification, a repeated identifier included.  The handler
    stores the identifier under the lock, answers, and takes the lock again
    to count; the blocks of other goroutines can run in between.  The count
    is the number of identifiers in the map when the second block runs; as
    long as the ticker's block is not among those in between, the request's
    own identifier is still in the map and the count is at least 1.  With
    nothing in between this is [acceptHandler] itself, which counts the map
    right after its own [Store]. *)
Theorem baseline_always_notifies
    (r : Request) (id : Z) (s : Baseline.State) (bs : list Baseline.Block) :
  accepted_id r = Some id ->
  endpoint_of r <> EmptyString ->
  Baseline.acceptHandler r s =
    Baseline.count_and_notify (endpoint_of r) (Baseline.answer r s) /\
  Baseline.started (Baseline.acceptHandler r s) =
    Baseline.started s ++
    [GoSendCountToEndpoint (endpoint_of r)
       (Z.of_nat (size (<[id := true]> (Baseline.uniqueRequests s))))] /\
  let s2 := Baseline.blocks bs (Baseline.answer r s) in
  let count := Z.of_nat (size (Baseline.uniqueRequests s2)) in
  Baseline.started (Baseline.count_and_notify (endpoint_of r) s2) =
    Baseline.started s2 ++ [GoSendCountToEndpoint (endpoint_of r) count] /\
  (forallb (fun b => negb (Baseline.is_ticked b)) bs = true ->
   Baseline.uniqueRequests s2 !! id = Some true /\ 1 <= count).
Proof.
  intros Hacc Hep. split; [exact (baseline_two_parts r id s Hacc Hep)|]. split.
  - rewrite (baseline_accept r id s Hacc). cbv zeta.
    destruct (String.eqb_spec (endpoint_of r) EmptyString) as [?|_]; [contradiction|].
    simpl. rewrite Range_count_size. reflexivity.
  - intros s2 count. split.
    + unfold Baseline.count_and_notify, Baseline.go. simpl.
      rewrite Range_count_size. reflexivity.
    + intros Hnot.
      assert (Hin : Baseline.uniqueRequests s2 !! id = Some true).
      { apply blocks_keep; [exact Hnot|]. rewrite (baseline_answer r id s Hacc). simpl.
        apply lookup_insert_eq. }
      split; [exact Hin|]. subst count.
      assert (size (Baseline.uniqueRequests s2) <> 0%nat); [|lia].
      intros Hz. apply map_size_empty_iff in Hz. rewrite Hz, lookup_empty in Hin.
      discriminate.
Qed.

Lemma baseline_always_notifies_witness :
  accepted_id (get_notify "5" "http://cb") = Some 5 /\
  endpoint_of (get_notify "5" "http://cb") <> EmptyString /\
  Baseline.started
    (Baseline.acceptHandler (get_notify "5" "http://cb") Baseline.state0) =
  [GoSendCountToEndpoint "http://cb" 1] /\
  Baseline.uniqueRequests
    (Baseline.blocks [Baseline.Answered (get "6"); Baseline.Counted "http://other"]
       (Baseline.answer (get_notify "5" "http://cb") Baseline.state0)) !! 5 = Some true.
Proof.
  split; [reflexivity|]. split; [discriminate|].
  destruct (baseline_always_notifies (get_notify "5" "http://cb") 5 Baseline.state0
              [Baseline.Answered (get "6"); Baseline.Counted "http://other"] eq_refl)
    as (_ & Hgo & _ & Hkeep); [discriminate|].
  split.
  - rewrite Hgo. vm_compute. reflexivity.
  - apply (Hkeep eq_refl).
Defined.

(** The condition is needed: when the ticker's block runs between the two
    parts of the handler, the map is empty at the count and the notification
    carries 0. *)
Example baseline_count_after_tick :
  Baseline.started
    (Baseline.count_and_notify "http://cb"
       (Baseline.blocks [Baseline.Ticked]
          (Baseline.answer (get_notify "5" "http://cb") Baseline.state0))) =
  [GoSendCountToEndpoint "http://cb" 0].
Proof. vm_compute. reflexivity. Qed.

(** X19: both variants turn the same requests away, with the same answer: a
    request that is not a GET with a positive [id] gets the same status and
    body from the in-memory handler and from the Redis-backed one, and
    neither records anything for it. *)
Theorem variants_reject_alike (r : Request) (w : World) (s : Baseline.State) :
  accepted_id r = None ->
  exists status msg,
    acceptHandler r w =
      Ok tt (set_trace (trace w ++ [EWriteHeader status; EWrite (msg +:+ newline)]) w) /\
    Baseline.acceptHandler r s =
      Baseline.mkState (Baseline.uniqueRequests s) (Baseline.request_log s)
        (Baseline.started s)
        (Baseline.effects s ++ [EWriteHeader status; EWrite (msg +:+ newline)]) /\
    (status = Http.StatusBadRequest \/ status = Http.StatusMethodNotAllowed).
Proof.
  intros Hnone. unfold accepted_id in Hnone.
  unfold acceptHandler, Baseline.acceptHandler.
  destruct (String.eqb (Method r) Http.MethodGet); simpl.
  - destruct (Strconv.Atoi (Values_Get (Query r) "id")) as [e|n].
    + do 2 eexists. split; [apply http_Error_eq|]. split; [|left; reflexivity].
      unfold Baseline.http_Error, Baseline.emit. simpl.
      rewrite <- app_assoc. reflexivity.
    + destruct (n <=? 0); [|discriminate].
      do 2 eexists. split; [apply http_Error_eq|]. split; [|left; reflexivity].
      unfold Baseline.http_Error, Baseline.emit. simpl.
      rewrite <- app_assoc. reflexivity.
  - do 2 eexists. split; [apply http_Error_eq|]. split; [|right; reflexivity].
    unfold Baseline.http_Error, Baseline.emit. simpl.
    rewrite <- app_assoc. reflexivity.
Qed.

Lemma variants_reject_alike_witness :
  accepted_id (get "0") = None /\
  exists status msg,
    acceptHandler (get "0") world0 =
      Ok tt (set_trace (trace world0 ++ [EWriteHeader status; EWrite (msg +:+ newline)])
               world0) /\
    Baseline.effects (Baseline.acceptHandler (get "0") Baseline.state0) =
      [EWriteHeader status; EWrite (msg +:+ newline)].
Proof.
  split; [reflexivity|].
  destruct (variants_reject_alike (get "0") world0 Baseline.state0 eq_refl)
    as (status & msg & Hext & Hbase & _).
  exists status, msg. split; [exact Hext|]. rewrite Hbase. reflexivity.
Defined.

(** The in-memory variant does not start without its log file: when the
    file cannot be opened [main] logs and exits with code 1, having started
    no goroutine and no listener; otherwise it starts the logging loop and
    then listens on port 8080. *)
Lemma baseline_main_cases (open_fails : bool) (s : Baseline.State) :
  match Baseline.main open_fails s with
  | Baseline.Exited code s' =>
      open_fails = true /\ code = 1 /\
      Baseline.started s' = Baseline.started s /\
      Baseline.effects s' =
        Baseline.effects s ++ [ELog "Failed to open log file: %v" [AErr]]
  | Baseline.Serving s' =>
      open_fails = false /\
      Baseline.started s' = Baseline.started s ++ [GoLogAndNotifyUniqueRequests] /\
      Baseline.effects s' = Baseline.effects s ++ serving_events /\
      Baseline.uniqueRequests s' = Baseline.uniqueRequests s
  end.
Proof.
  destruct open_fails; simpl.
  - repeat split.
  - repeat split. unfold serving_events. repeat rewrite <- app_assoc. reflexivity.
Qed.
